(** * KDB: an Arduino serial debugger (kdb.h, kdb.cpp)

    A shallow embedding of the [_KDB] class: its frame writer [sendOp],
    the blocking payload reader [readSize], the dispatcher [doOp], the
    polling loop [readOp], and the public entry points [capture], [init],
    [debugger], [print] and [println].

    Bytes ([uint8_t]) are integers in [0, 256) with the wrap-around
    written out ([u8]).  The two fixed arrays of the class, [caps[32]] and
    [readbuf[32]], are lists indexed with stdpp's lookup and insert.

    Nothing in the code checks an index.  An access to [readbuf] from
    index 32 on goes where the compiled code goes: [readbuf + 32] is the
    member [loops], which follows the array in the class, and further on
    lies the memory after the object ([beyond]).  The run goes on, and the
    cell is put on record in [overruns].  At an access outside [caps],
    where what is hit depends on the size of a pointer, the model stops
    with the outcome [Overrun]. *)

From Stdlib Require Import ZArith Bool Ascii String Lia.
From stdpp Require Import base list.

Local Open Scope Z_scope.

(** ** Opcodes (kdb.h, enum [_KDB_OpType]) *)

Inductive _KDB_OpType : Set :=
  | _KDB_RETURN
  | _KDB_READ_MEM
  | _KDB_WRITE_MEM
  | _KDB_READ_CAP
  | _KDB_WRITE_CAP
  | _KDB_READ_PIN
  | _KDB_WRITE_PIN
  | _KDB_INIT
  | _KDB_DEBUGGER
  | _KDB_CAPTURE
  | _KDB_READ_MEM_RES
  | _KDB_READ_CAP_RES
  | _KDB_READ_PIN_RES
  | _KDB_PRINT.

(** The enumerators in the order of their declaration. *)
Definition _KDB_OpType_decl : list _KDB_OpType :=
  [ _KDB_RETURN; _KDB_READ_MEM; _KDB_WRITE_MEM; _KDB_READ_CAP;
    _KDB_WRITE_CAP; _KDB_READ_PIN; _KDB_WRITE_PIN; _KDB_INIT;
    _KDB_DEBUGGER; _KDB_CAPTURE; _KDB_READ_MEM_RES; _KDB_READ_CAP_RES;
    _KDB_READ_PIN_RES; _KDB_PRINT ].

#[global] Instance OpType_eq_dec : EqDecision _KDB_OpType.
Proof. solve_decision. Defined.

(** An enumerator without initialiser takes the value of its predecessor
    plus one, the first one taking zero: its position in the declaration. *)
Fixpoint enum_pos (o : _KDB_OpType) (l : list _KDB_OpType) (n : Z) : Z :=
  match l with
  | [] => n
  | x :: l' => if decide (o = x) then n else enum_pos o l' (n + 1)
  end.

Definition op_value (o : _KDB_OpType) : Z := enum_pos o _KDB_OpType_decl 0.

(** The [switch] of [doOp] compares a byte with the enumerators. *)
Definition op_of_byte (b : Z) : option _KDB_OpType :=
  List.find (fun o => op_value o =? b) _KDB_OpType_decl.

(** ** The state of the debugger object (kdb.h, class [_KDB]) *)

Definition u8 (z : Z) : Z := z mod 256.

Record _KDB_PtrWithSize : Set := mkPtr { size : Z; ptr : Z }.

(** [loops_byte] is the byte that holds the member [loops] ([bool] is one
    byte wide, and [true] is stored as 1). *)
Record _KDB : Set := mkKDB {
  caps : list _KDB_PtrWithSize;
  capsize : Z;
  readbuf : list Z;
  loops_byte : Z
}.

(** [loops] as [while (loops)] tests it: set unless the byte is zero. *)
Definition loops (k : _KDB) : bool := negb (loops_byte k =? 0).

(** A cell of one of the two arrays, by its index. *)
Inductive cell : Set :=
  | readbuf_at (i : Z)
  | caps_at (i : Z).

#[global] Instance cell_eq_dec : EqDecision cell.
Proof. solve_decision. Defined.

(** One frame seen by the dispatcher: opcode byte, length byte, and the
    first [length] bytes of the scratch buffer. *)
Record Frame : Set := mkFrame {
  f_op : Z;
  f_len : Z;
  f_payload : list Z
}.

(** The object together with the board around it.  [rx] is what the serial
    port answers to the successive polls of [available()]: [None] when
    nothing has arrived, [Some b] when [read()] then yields [b].  [tx] is
    every byte given to [write], oldest first.  [mem] is the raw memory
    reached through addresses and [pins] the digital pins; both are taken
    to be disjoint from the object itself.  [beyond] is the memory that
    follows the object: [beyond w i] is the byte at [readbuf + i], for [i]
    from 33 on; the code reaches it only by running off the end of
    [readbuf], and it is taken to be disjoint from [mem] as well.  [slept]
    adds up the arguments of [delay].  [frames] is a ghost record of the
    frames handed to the [switch] of [doOp], oldest first, and [overruns]
    a ghost record of the cells outside [readbuf] that the code read or
    wrote, oldest first. *)
Record World : Type := mkWorld {
  kdb : _KDB;
  beyond : Z -> Z;
  mem : Z -> Z;
  pins : Z -> Z;
  rx : list (option Z);
  tx : list Z;
  slept : Z;
  frames : list Frame;
  overruns : list cell
}.

Definition set_kdb (k : _KDB) (w : World) : World :=
  mkWorld k (beyond w) (mem w) (pins w) (rx w) (tx w) (slept w) (frames w)
          (overruns w).
Definition set_beyond (m : Z -> Z) (w : World) : World :=
  mkWorld (kdb w) m (mem w) (pins w) (rx w) (tx w) (slept w) (frames w)
          (overruns w).
Definition set_mem (m : Z -> Z) (w : World) : World :=
  mkWorld (kdb w) (beyond w) m (pins w) (rx w) (tx w) (slept w) (frames w)
          (overruns w).
Definition set_pins (p : Z -> Z) (w : World) : World :=
  mkWorld (kdb w) (beyond w) (mem w) p (rx w) (tx w) (slept w) (frames w)
          (overruns w).
Definition set_rx (r : list (option Z)) (w : World) : World :=
  mkWorld (kdb w) (beyond w) (mem w) (pins w) r (tx w) (slept w) (frames w)
          (overruns w).
Definition set_tx (t : list Z) (w : World) : World :=
  mkWorld (kdb w) (beyond w) (mem w) (pins w) (rx w) t (slept w) (frames w)
          (overruns w).
Definition set_slept (s : Z) (w : World) : World :=
  mkWorld (kdb w) (beyond w) (mem w) (pins w) (rx w) (tx w) s (frames w)
          (overruns w).
Definition set_frames (f : list Frame) (w : World) : World :=
  mkWorld (kdb w) (beyond w) (mem w) (pins w) (rx w) (tx w) (slept w) f
          (overruns w).
Definition set_overruns (o : list cell) (w : World) : World :=
  mkWorld (kdb w) (beyond w) (mem w) (pins w) (rx w) (tx w) (slept w)
          (frames w) o.

Definition set_caps (c : list _KDB_PtrWithSize) (w : World) : World :=
  set_kdb (mkKDB c (capsize (kdb w)) (readbuf (kdb w)) (loops_byte (kdb w))) w.
Definition set_capsize (n : Z) (w : World) : World :=
  set_kdb (mkKDB (caps (kdb w)) n (readbuf (kdb w)) (loops_byte (kdb w))) w.
Definition set_readbuf (b : list Z) (w : World) : World :=
  set_kdb (mkKDB (caps (kdb w)) (capsize (kdb w)) b (loops_byte (kdb w))) w.
Definition set_loops_byte (b : Z) (w : World) : World :=
  set_kdb (mkKDB (caps (kdb w)) (capsize (kdb w)) (readbuf (kdb w)) b) w.

(** [loops = true;] and [loops = false;]. *)
Definition set_loops (l : bool) (w : World) : World :=
  set_loops_byte (if l then 1 else 0) w.

(** The constructor [_KDB::_KDB()]. *)
Definition KDB_new : _KDB :=
  mkKDB (replicate 32 (mkPtr 0 0)) 0 (replicate 32 0) 0.

(** Both arrays have their declared length. *)
Definition wf (w : World) : Prop :=
  length (caps (kdb w)) = 32%nat /\ length (readbuf (kdb w)) = 32%nat.

(** ** Outcomes *)

(** [Done]: the call returned.  [Polling]: the answers in [rx] are used up
    and the call is still inside a polling loop.  [Overrun c]: the code
    accessed [c], which lies outside [caps] (or below [readbuf], which no
    index of the code does), and the model stops.  [NoFuel]: the bound
    given to a loop of the model was too small (never the case for the
    public definitions, see [readOp_total] and [init_total]). *)
Inductive outcome : Type :=
  | Done (w : World)
  | Polling (w : World)
  | Overrun (c : cell) (w : World)
  | NoFuel.

Definition bind (m : outcome) (k : World -> outcome) : outcome :=
  match m with
  | Done w => k w
  | other => other
  end.

Notation "'let*' w ':=' m 'in' k" := (bind m (fun w => k))
  (at level 10, w name, m at level 100, k at level 200).

(** ** Array accesses *)

(** The code went outside [readbuf], at [readbuf + i]. *)
Definition note_overrun (i : Z) (w : World) : World :=
  set_overruns (overruns w ++ [readbuf_at i]) w.

(** A store to [readbuf + i] for [i] from 32 on: into [loops] at 32, into
    the memory after the object further on. *)
Definition spill (i b : Z) (w : World) : World :=
  note_overrun i
    (if i =? 32 then set_loops_byte b w
     else set_beyond (fun j => if j =? i then b else beyond w j) w).

(** [readbuf[i] = b]; the index is a [uint8_t], never negative. *)
Definition readbuf_set (i b : Z) (w : World) : outcome :=
  if (0 <=? i) && (i <? 32)
  then Done (set_readbuf (<[Z.to_nat i := b]> (readbuf (kdb w))) w)
  else if 32 <=? i then Done (spill i b w)
  else Overrun (readbuf_at i) w.

(** The value of [readbuf[i]], the byte at [readbuf + i]. *)
Definition readbuf_get (i : Z) (w : World) : Z :=
  if i <? 32 then default 0 (readbuf (kdb w) !! Z.to_nat i)
  else if i =? 32 then loops_byte (kdb w)
  else beyond w i.

(** [_KDB_Serial.write(b)]. *)
Definition serial_write (b : Z) (w : World) : World :=
  set_tx (tx w ++ [b]) w.

(** ** [_KDB::sendOp] (kdb.cpp, lines 150-160) *)

(** The [for] loop: [n] iterations are left and [i] is the index. *)
Fixpoint sendOp_loop (n : nat) (i : Z) (w : World) : outcome :=
  match n with
  | O => Done w
  | S n' =>
      if i <? 32
      then sendOp_loop n' (i + 1) (serial_write (readbuf_get i w) w)
      else sendOp_loop n' (i + 1)
             (serial_write (readbuf_get i w) (note_overrun i w))
  end.

Definition sendOp (opType opSize : Z) (w : World) : outcome :=
  let w := serial_write 0xA0 w in
  let w := serial_write 0x1E w in
  let w := serial_write opType w in
  let w := serial_write opSize w in
  sendOp_loop (Z.to_nat opSize) 0 w.

(** ** [_KDB::readSize] (kdb.cpp, lines 246-264) *)

(** The [while (true)] loop, one poll of [available()] per element of the
    answers; [size] is the argument already decremented. *)
Fixpoint readSize_loop (size pos : Z) (r : list (option Z)) (w : World)
  : outcome :=
  match r with
  | [] => Polling (set_rx [] w)
  | None :: r' => readSize_loop size pos r' w
  | Some b :: r' =>
      match readbuf_set pos b (set_rx r' w) with
      | Done w' =>
          if pos =? size then Done w'
          else readSize_loop size (u8 (pos + 1)) r' w'
      | other => other
      end
  end.

Definition readSize (size : Z) (w : World) : outcome :=
  if size =? 0 then Done w
  else readSize_loop (u8 (size - 1)) 0 (rx w) w.

(** ** Raw memory and [memcpy] *)

Definition load (m : Z -> Z) (addr : Z) (n : nat) : list Z :=
  map (fun i => m (addr + Z.of_nat i)) (seq 0 n).

Fixpoint store (m : Z -> Z) (addr : Z) (bs : list Z) : Z -> Z :=
  match bs with
  | [] => m
  | b :: bs' => store (fun a => if a =? addr then b else m a) (addr + 1) bs'
  end.

(** One byte stored at [readbuf + i], inside the array or past it. *)
Definition poke (i b : Z) (w : World) : World :=
  if i <? 32
  then set_readbuf (<[Z.to_nat i := b]> (readbuf (kdb w))) w
  else spill i b w.

(** The bytes [bs] stored one after the other from [readbuf + i] on. *)
Fixpoint poke_from (i : Z) (bs : list Z) (w : World) : World :=
  match bs with
  | [] => w
  | b :: bs' => poke_from (i + 1) bs' (poke i b w)
  end.

(** [memcpy(readbuf + off, src, n)] where [bs] are the [n] bytes at [src]:
    within the array the bytes replace a stretch of it; a copy that runs
    off its end goes on into [loops] and the memory after the object. *)
Definition readbuf_blit (off : Z) (bs : list Z) (w : World) : outcome :=
  let n := Z.of_nat (length bs) in
  if off + n <=? 32
  then Done (set_readbuf (take (Z.to_nat off) (readbuf (kdb w)) ++ bs ++
                          drop (Z.to_nat (off + n)) (readbuf (kdb w))) w)
  else Done (poke_from off bs w).

(** The cells from [readbuf + i] on that [n] successive reads touch outside
    the array. *)
Fixpoint note_reads (n : nat) (i : Z) (w : World) : World :=
  match n with
  | O => w
  | S n' => note_reads n' (i + 1) (if i <? 32 then w else note_overrun i w)
  end.

(** [memcpy(dst, readbuf + off, n)]: within the array a stretch of it is
    copied; a copy that runs off its end takes the bytes of [loops] and of
    the memory after the object. *)
Definition readbuf_copy_out (dst off n : Z) (w : World) : outcome :=
  if off + n <=? 32
  then Done (set_mem (store (mem w) dst
                        (take (Z.to_nat n) (drop (Z.to_nat off) (readbuf (kdb w))))) w)
  else Done (set_mem (store (mem w) dst
                        (map (fun i => readbuf_get (off + Z.of_nat i) w)
                             (seq 0 (Z.to_nat n))))
                     (note_reads (Z.to_nat n) off w)).

(** [caps + pos], dereferenced. *)
Definition caps_get (pos : Z) (w : World) : option _KDB_PtrWithSize :=
  if (0 <=? pos) && (pos <? 32) then caps (kdb w) !! Z.to_nat pos else None.

(** The conversions to [int] and to [size_t].  [int] is taken to be 32
    bits wide and [size_t] 64 bits wide.  (Where [size_t] has 32 bits the
    address below is the same modulo 2^32; with a 16-bit [int] the shifts
    by 16 and 24 are undefined.) *)
Definition to_int (z : Z) : Z := (z + 2 ^ 31) mod 2 ^ 32 - 2 ^ 31.
Definition to_size_t (z : Z) : Z := z mod 2 ^ 64.

(** [addr = readbuf[0] << 24 | readbuf[1] << 16 | readbuf[2] << 8 |
    readbuf[3];] the bytes are promoted to [int], shifted and combined as
    [int], and the result is converted to [size_t]: a first byte from
    0x80 on makes the [int] negative, and the conversion extends the
    sign. *)
Definition be32 (b0 b1 b2 b3 : Z) : Z :=
  to_size_t
    (Z.lor (Z.lor (Z.lor (to_int (Z.shiftl b0 24)) (to_int (Z.shiftl b1 16)))
                  (to_int (Z.shiftl b2 8)))
           b3).

(** [digitalRead] and [digitalWrite] of the Arduino core: a pin is low (0)
    or high (1), and writing any value but 0 drives it high. *)
Definition digitalRead (pin : Z) (w : World) : Z := pins w pin.
Definition digitalWrite (pin val : Z) (w : World) : World :=
  set_pins (fun p => if p =? pin then (if val =? 0 then 0 else 1) else pins w p) w.

(** ** [_KDB::doOp] (kdb.cpp, lines 162-212) *)

(** Lines 173-211: the [switch]. *)
Definition execOp (opType : Z) (w : World) : outcome :=
  match op_of_byte opType with
  | Some _KDB_RETURN => Done (set_loops false w)
  | Some _KDB_READ_MEM =>
      let addr := be32 (readbuf_get 0 w) (readbuf_get 1 w)
                       (readbuf_get 2 w) (readbuf_get 3 w) in
      let size := readbuf_get 4 w in
      let* w := readbuf_blit 0 (load (mem w) addr (Z.to_nat size)) w in
      sendOp (op_value _KDB_READ_MEM_RES) size w
  | Some _KDB_WRITE_MEM =>
      let addr := be32 (readbuf_get 0 w) (readbuf_get 1 w)
                       (readbuf_get 2 w) (readbuf_get 3 w) in
      let size := readbuf_get 4 w in
      readbuf_copy_out addr 5 size w
  | Some _KDB_READ_PIN =>
      let pin := readbuf_get 0 w in
      let* w := readbuf_set 0 (u8 (digitalRead pin w)) w in
      sendOp (op_value _KDB_READ_PIN_RES) 1 w
  | Some _KDB_WRITE_PIN =>
      let pin := readbuf_get 0 w in
      Done (digitalWrite pin (readbuf_get 1 w) w)
  | Some _KDB_READ_CAP =>
      let pos := readbuf_get 0 w in
      match caps_get pos w with
      | Some p =>
          let* w := readbuf_blit 0 (load (mem w) (ptr p) (Z.to_nat (size p))) w in
          sendOp (op_value _KDB_READ_CAP_RES) (size p) w
      | None => Overrun (caps_at pos) w
      end
  | Some _KDB_WRITE_CAP =>
      let pos := readbuf_get 0 w in
      match caps_get pos w with
      | Some p => readbuf_copy_out (ptr p) 1 (size p) w
      | None => Overrun (caps_at pos) w
      end
  | _ => Done w
  end.

(** The frame that reaches the [switch]. *)
Definition note_frame (opType opSize : Z) (w : World) : World :=
  set_frames (frames w ++
    [mkFrame opType opSize (take (Z.to_nat opSize) (readbuf (kdb w)))]) w.

Definition doOp (w : World) : outcome :=
  let* w := readSize 2 w in
  let opType := readbuf_get 0 w in
  let opSize := readbuf_get 1 w in
  let* w := readSize opSize w in
  execOp opType (note_frame opType opSize w).

(** ** [_KDB::readOp] (kdb.cpp, lines 213-244) *)

(** [if (maxloop != 255) { maxloop--; if (maxloop == 0) return; }]: the
    counter after the decrement, and whether the loop returns there. *)
Definition next_budget (maxloop : Z) : Z :=
  if maxloop =? 255 then maxloop else u8 (maxloop - 1).

Definition budget_spent (maxloop : Z) : bool :=
  negb (maxloop =? 255) && (next_budget maxloop =? 0).

(** The [while (loops)] loop; every iteration that goes on polls the port
    once, so [fuel] above the number of answers left is never used up. *)
Fixpoint readOp_loop (fuel : nat) (maxloop isOp : Z) (w : World) : outcome :=
  match fuel with
  | O => NoFuel
  | S fuel =>
      if loops (kdb w) then
        if budget_spent maxloop then Done w
        else
          let maxloop := next_budget maxloop in
          match rx w with
          | [] => Polling w
          | None :: r => readOp_loop fuel maxloop isOp (set_rx r w)
          | Some res :: r =>
              let w := set_rx r w in
              if res =? 0xA0 then readOp_loop fuel maxloop 1 w
              else if res =? 0x1E then
                if isOp =? 1 then
                  let* w := doOp w in
                  readOp_loop fuel maxloop 0 w
                else readOp_loop fuel maxloop isOp w
              else readOp_loop fuel maxloop isOp w
          end
      else Done w
  end.

Definition readOp (maxloop : Z) (w : World) : outcome :=
  readOp_loop (S (length (rx w))) maxloop 0 w.

(** ** Public entry points *)

(** [readbuf[0] = line >> 8; readbuf[1] = line;] *)
Definition put_line (line : Z) (w : World) : outcome :=
  let* w := readbuf_set 0 (u8 (Z.shiftr line 8)) w in
  readbuf_set 1 (u8 line) w.

(** [_KDB::debugger] (lines 23-30). *)
Definition debugger (line : Z) (w : World) : outcome :=
  let* w := put_line line w in
  let* w := sendOp (op_value _KDB_DEBUGGER) 2 w in
  readOp 255 (set_loops true w).

(** [caps[i].ptr = x; caps[i].size = size;] *)
Definition caps_set (i : Z) (p : _KDB_PtrWithSize) (w : World) : outcome :=
  if (0 <=? i) && (i <? 32)
  then Done (set_caps (<[Z.to_nat i := p]> (caps (kdb w))) w)
  else Overrun (caps_at i) w.

(** [_KDB::capture] (lines 32-51); [x] is the address, as [size_t px]. *)
Definition capture (line x size : Z) (w : World) : outcome :=
  let* w := put_line line w in
  let* w := readbuf_set 2 (u8 (Z.shiftr x 24)) w in
  let* w := readbuf_set 3 (u8 (Z.shiftr x 16)) w in
  let* w := readbuf_set 4 (u8 (Z.shiftr x 8)) w in
  let* w := readbuf_set 5 (u8 x) w in
  let* w := readbuf_set 6 size w in
  let* w := readbuf_set 7 (capsize (kdb w)) w in
  let* w := caps_set (capsize (kdb w)) (mkPtr size x) w in
  let* w := sendOp (op_value _KDB_CAPTURE) 8 w in
  Done (set_capsize (u8 (capsize (kdb w) + 1)) w).

(** [delay(ms)] of the Arduino core. *)
Definition delay (ms : Z) (w : World) : World := set_slept (slept w + ms) w.

(** [_KDB::init] (lines 53-65): the [while (loops)] loop.  Every round that
    goes on polls the port at least once. *)
Fixpoint init_loop (fuel : nat) (line : Z) (w : World) : outcome :=
  match fuel with
  | O => NoFuel
  | S fuel =>
      if loops (kdb w) then
        let* w := put_line line w in
        let* w := sendOp (op_value _KDB_INIT) 2 w in
        let* w := readOp 200 w in
        init_loop fuel line (delay 100 w)
      else Done w
  end.

Definition init (line : Z) (w : World) : outcome :=
  let w := set_loops true w in
  let w := set_capsize 0 w in
  init_loop (S (S (length (rx w)))) line w.

(** ** [print] and [println] on text (lines 67-76, 106-115, 145-148) *)

(** [strlen]: the characters before the first NUL; the end of the Rocq
    string stands for the terminator when it holds none. *)
Fixpoint strlen (s : string) : nat :=
  match s with
  | EmptyString => O
  | String c s' => if Ascii.eqb c zero then O else S (strlen s')
  end.

Definition str_bytes (s : string) : list Z :=
  map (fun c => Z.of_N (N_of_ascii c)) (list_ascii_of_string s).

(** The common body; [kind] is what goes to [readbuf[2]]. *)
Definition print_kind (kind line : Z) (str : string) (w : World) : outcome :=
  let len := u8 (Z.of_nat (strlen str)) in
  let len := if len >? 29 then 29 else len in
  let* w := put_line line w in
  let* w := readbuf_set 2 kind w in
  let* w := readbuf_blit 3 (take (Z.to_nat len) (str_bytes str)) w in
  sendOp (op_value _KDB_PRINT) (u8 (len + 3)) w.

Definition print (line : Z) (str : string) (w : World) : outcome :=
  print_kind 0 line str w.

Definition println (line : Z) (str : string) (w : World) : outcome :=
  print_kind 1 line str w.

Definition println_empty (line : Z) (w : World) : outcome :=
  println line EmptyString w.

(** ** Predicates used in the statements *)

(** The frame carries the opcode RETURN. *)
Definition is_return (f : Frame) : Prop := f_op f = 0.


(** How a call of the receiving side may change the world: it leaves the
    capture table alone, keeps the arrays at their length, consumes answers
    of the port from the front, appends to the written bytes, to the
    dispatched frames and to the recorded overruns; and as long as it stays
    inside [readbuf] it never sets [loops], and clears it only at a RETURN
    frame. *)
Record steps (w w' : World) : Prop := mkSteps {
  st_capsize : capsize (kdb w') = capsize (kdb w);
  st_caps : caps (kdb w') = caps (kdb w);
  st_wf : wf w -> wf w';
  st_rx : rx w' `suffix_of` rx w;
  st_tx : tx w `prefix_of` tx w';
  st_overruns : overruns w `prefix_of` overruns w';
  st_frames : exists fs, frames w' = frames w ++ fs /\
      (overruns w' = overruns w ->
       loops (kdb w) = true -> loops (kdb w') = false -> Exists is_return fs);
  st_loops : overruns w' = overruns w ->
             loops (kdb w) = false -> loops (kdb w') = false
}.

(** The worlds an outcome can hold all satisfy [P], and the model's loop
    bound was not reached. *)
Definition reaches (P : World -> Prop) (o : outcome) : Prop :=
  match o with
  | Done w | Polling w | Overrun _ w => P w
  | NoFuel => False
  end.

(** A board just after the constructor ran, with the given answers of the
    port still to come, zeroed memory and low pins, and no overrun on
    record. *)
Definition world_new (r : list (option Z)) : World :=
  mkWorld KDB_new (fun _ => 0) (fun _ => 0) (fun _ => 0) r [] 0 [] [].

(** The bytes that the port delivers, in order. *)
Definition rx_bytes (r : list (option Z)) : list Z := omap id r.

(** The byte sequence holds 0xA0 immediately followed by 0x1E. *)
Fixpoint has_sync (bs : list Z) : bool :=
  match bs with
  | a :: tl =>
      match tl with
      | b :: _ => ((a =? 0xA0) && (b =? 0x1E)) || has_sync tl
      | [] => false
      end
  | [] => false
  end.

(** The budget [maxloop] lets the loop of [readOp] poll [n] more times. *)
Fixpoint budget_allows (n : nat) (maxloop : Z) : bool :=
  match n with
  | O => true
  | S n' => negb (budget_spent maxloop) && budget_allows n' (next_budget maxloop)
  end.

(** The frame as it travels: sync bytes, opcode, length, payload. *)
Definition encode (f : Frame) : list Z :=
  [0xA0; 0x1E; f_op f; f_len f] ++ f_payload f.

(** What a call wrote to the port. *)
Definition written (w w' : World) : list Z := drop (length (tx w)) (tx w').

(** The call came back or still polls: the model did not stop at an access
    outside an array and its loop bound was not reached. *)
Definition in_bounds (o : outcome) : Prop :=
  match o with
  | Done _ | Polling _ => True
  | Overrun _ _ | NoFuel => False
  end.

(** The scratch buffer is untouched from index [n] on. *)
Definition same_from (n : nat) (w w' : World) : Prop :=
  drop n (readbuf (kdb w')) = drop n (readbuf (kdb w)).

(** One registration: the arguments of a call of [capture]. *)
Record Reg : Set := mkReg { r_line : Z; r_addr : Z; r_size : Z }.

(** Registrations made one after the other. *)
Fixpoint capture_all (regs : list Reg) (w : World) : outcome :=
  match regs with
  | [] => Done w
  | r :: regs' =>
      let* w := capture (r_line r) (r_addr r) (r_size r) w in
      capture_all regs' w
  end.

(** The CAPTURE frame announcing registration [r] under slot index [i]:
    line, address (4 bytes, high byte first), size, slot index. *)
Definition capture_frame (i : Z) (r : Reg) : Frame :=
  mkFrame (op_value _KDB_CAPTURE) 8
    [u8 (Z.shiftr (r_line r) 8); u8 (r_line r);
     u8 (Z.shiftr (r_addr r) 24); u8 (Z.shiftr (r_addr r) 16);
     u8 (Z.shiftr (r_addr r) 8); u8 (r_addr r);
     r_size r; i].

(** A frame whose payload is a line number, high byte first: what [init]
    and [debugger] announce. *)
Definition line_frame (o : _KDB_OpType) (line : Z) : Frame :=
  mkFrame (op_value o) 2 [u8 (Z.shiftr line 8); u8 line].

(** The budget left after [k] polls. *)
Fixpoint budget_after (k : nat) (maxloop : Z) : Z :=
  match k with
  | O => maxloop
  | S k' => budget_after k' (next_budget maxloop)
  end.

(** The world once a line number went to the scratch buffer and the frame
    carrying it was written. *)
Definition announced (o : _KDB_OpType) (line : Z) (w : World) : World :=
  set_tx (tx w ++ encode (line_frame o line))
    (set_readbuf (<[1%nat := u8 line]>
                    (<[0%nat := u8 (Z.shiftr line 8)]> (readbuf (kdb w)))) w).

(** The world once a RETURN frame with no payload, followed by [rest] on
    the port, was received and dispatched. *)
Definition returned (rest : list (option Z)) (w : World) : World :=
  set_loops false
    (note_frame 0 0
       (set_readbuf (0 :: 0 :: drop 2 (readbuf (kdb w))) (set_rx rest w))).

(** Nothing but the answers of the port was used up. *)
Definition only_rx (w w' : World) : Prop :=
  kdb w' = kdb w /\ mem w' = mem w /\ pins w' = pins w /\ tx w' = tx w /\
  slept w' = slept w /\ frames w' = frames w /\
  beyond w' = beyond w /\ overruns w' = overruns w.

(** Only the scratch buffer and the written bytes may differ. *)
Definition only_sent (w w' : World) : Prop :=
  rx w' = rx w /\ mem w' = mem w /\ pins w' = pins w /\ slept w' = slept w /\
  frames w' = frames w /\ caps (kdb w') = caps (kdb w) /\
  capsize (kdb w') = capsize (kdb w) /\ loops (kdb w') = loops (kdb w) /\
  beyond w' = beyond w /\ overruns w' = overruns w.

(** What a store to [readbuf + i] leaves alone. *)
Definition poke_keeps (w w' : World) : Prop :=
  caps (kdb w') = caps (kdb w) /\ capsize (kdb w') = capsize (kdb w) /\
  length (readbuf (kdb w')) = length (readbuf (kdb w)) /\
  mem w' = mem w /\ pins w' = pins w /\ rx w' = rx w /\ tx w' = tx w /\
  slept w' = slept w /\ frames w' = frames w.

(** * Properties *)

(** ** The step relation is a preorder kept by every call of the loop *)

Lemma steps_refl w : steps w w.
Proof.
  split; auto.
  exists []. rewrite app_nil_r. split; [done | congruence].
Qed.

(** The record of overruns only grows: when a run leaves it as it was, so
    did every part of the run. *)
Lemma overruns_between (l1 l2 l3 : list cell) :
  l1 `prefix_of` l2 -> l2 `prefix_of` l3 -> l3 = l1 -> l2 = l1 /\ l3 = l2.
Proof.
  intros [k1 ->] [k2 ->] E.
  rewrite <- app_assoc in E.
  apply (f_equal length) in E. rewrite !length_app in E.
  destruct k1; [| simpl in E; lia]. destruct k2; [| simpl in E; lia].
  by rewrite !app_nil_r.
Qed.

Lemma steps_trans w1 w2 w3 : steps w1 w2 -> steps w2 w3 -> steps w1 w3.
Proof.
  intros [A1 A2 A3 A4 A5 A8 (fs1 & A6 & A6') A7]
         [B1 B2 B3 B4 B5 B8 (fs2 & B6 & B6') B7].
  split; try congruence; auto.
  - by etrans.
  - by etrans.
  - by etrans.
  - exists (fs1 ++ fs2). split.
    + by rewrite B6, A6, app_assoc.
    + intros Ho Ht Hf. destruct (overruns_between _ _ _ A8 B8 Ho) as [Ho1 Ho2].
      apply Exists_app.
      destruct (loops (kdb w2)) eqn:E; [right | left]; auto.
  - intros Ho Hf. destruct (overruns_between _ _ _ A8 B8 Ho) as [Ho1 Ho2]. auto.
Qed.

Lemma steps_bind w m k :
  reaches (steps w) m ->
  (forall w1, m = Done w1 -> steps w w1 -> reaches (steps w1) (k w1)) ->
  reaches (steps w) (bind m k).
Proof.
  intros Hm Hk. destruct m as [w1| | |]; simpl in *; auto.
  specialize (Hk w1 eq_refl Hm).
  destruct (k w1); simpl in *; eauto using steps_trans.
Qed.

Lemma reaches_steps_trans w w1 o :
  steps w w1 -> reaches (steps w1) o -> reaches (steps w) o.
Proof. intros H. destruct o; simpl; eauto using steps_trans. Qed.

Ltac steps_fields :=
  split; simpl; unfold loops; simpl; try done;
  try (by (exists []; rewrite app_nil_r; split; [done | congruence])).

Lemma wf_set_readbuf l w :
  length l = 32%nat -> wf w -> wf (set_readbuf l w).
Proof. intros Hl [Hc _]. split; simpl; auto. Qed.

Lemma steps_set_readbuf l w :
  (wf w -> length l = 32%nat) -> steps w (set_readbuf l w).
Proof.
  intros Hl. steps_fields. intros Hw. apply wf_set_readbuf; auto.
Qed.

Lemma steps_set_rx r w : r `suffix_of` rx w -> steps w (set_rx r w).
Proof. intros Hr. steps_fields. Qed.

Lemma steps_serial_write b w : steps w (serial_write b w).
Proof. steps_fields. by apply prefix_app_r. Qed.

Lemma overruns_grown (l : list cell) c : l ++ [c] <> l.
Proof.
  intros E. apply (f_equal length) in E. rewrite length_app in E. simpl in E. lia.
Qed.

Lemma steps_note_overrun i w : steps w (note_overrun i w).
Proof.
  split; simpl; try done.
  - by apply prefix_app_r.
  - exists []. rewrite app_nil_r. split; [done |].
    intros E. by apply overruns_grown in E.
Qed.

Lemma steps_spill i b w : steps w (spill i b w).
Proof.
  unfold spill. split; try (by destruct (i =? 32)).
  - destruct (i =? 32); simpl; by apply prefix_app_r.
  - exists []. rewrite app_nil_r. split; [by destruct (i =? 32) |].
    intros E. destruct (i =? 32); simpl in E; by apply overruns_grown in E.
  - intros E. destruct (i =? 32); simpl in E; by apply overruns_grown in E.
Qed.

Lemma steps_readbuf_set i b w : reaches (steps w) (readbuf_set i b w).
Proof.
  unfold readbuf_set. case_match; simpl.
  - apply steps_set_readbuf. intros [_ Hl]. by rewrite length_insert.
  - case_match; simpl; [apply steps_spill | apply steps_refl].
Qed.

Lemma readbuf_set_rx i b w w1 : readbuf_set i b w = Done w1 -> rx w1 = rx w.
Proof.
  unfold readbuf_set, spill. intros E.
  repeat case_match; simplify_eq; done.
Qed.

Lemma steps_sendOp_loop n : forall i w, reaches (steps w) (sendOp_loop n i w).
Proof.
  induction n as [|n IH]; intros i w; simpl; [apply steps_refl |].
  case_match; simpl.
  - eapply reaches_steps_trans; [apply steps_serial_write | apply IH].
  - eapply reaches_steps_trans; [apply steps_note_overrun |].
    eapply reaches_steps_trans; [apply steps_serial_write | apply IH].
Qed.

Lemma steps_sendOp opType opSize w : reaches (steps w) (sendOp opType opSize w).
Proof.
  unfold sendOp.
  do 4 (eapply reaches_steps_trans; [apply steps_serial_write |]).
  apply steps_sendOp_loop.
Qed.

Lemma steps_readSize_loop size r : forall pos w,
  r `suffix_of` rx w -> reaches (steps w) (readSize_loop size pos r w).
Proof.
  induction r as [|[b|] r IH]; intros pos w Hr; simpl.
  - by apply steps_set_rx.
  - assert (Hr' : r `suffix_of` rx w) by (etrans; [apply suffix_cons_r|]; done).
    pose proof (steps_readbuf_set pos b (set_rx r w)) as Hs.
    destruct (readbuf_set pos b (set_rx r w)) as [w1| | |] eqn:E; simpl in *;
      try (eapply steps_trans; [apply steps_set_rx|]; done).
    + assert (steps w w1) by (eapply steps_trans; [apply steps_set_rx|]; done).
      case_match; simpl; [done |].
      eapply reaches_steps_trans; [done |]. apply IH.
      by rewrite (readbuf_set_rx _ _ _ _ E).
    + done.
  - apply IH. etrans; [apply suffix_cons_r|]; done.
Qed.

Lemma steps_readSize size w : reaches (steps w) (readSize size w).
Proof.
  unfold readSize. case_match; simpl; [apply steps_refl |].
  by apply steps_readSize_loop.
Qed.

Lemma steps_poke_from bs : forall i w, steps w (poke_from i bs w).
Proof.
  induction bs as [|b bs IH]; intros i w; simpl; [apply steps_refl |].
  eapply steps_trans; [| apply IH].
  unfold poke. case_match; [| apply steps_spill].
  apply steps_set_readbuf. intros [_ Hl]. by rewrite length_insert.
Qed.

Lemma steps_readbuf_blit off bs w :
  0 <= off -> reaches (steps w) (readbuf_blit off bs w).
Proof.
  intros Hoff. unfold readbuf_blit. case_match; simpl; [| apply steps_poke_from].
  apply steps_set_readbuf. intros [_ Hl].
  rewrite !length_app, length_take, length_drop, Hl. lia.
Qed.

Lemma steps_note_reads n : forall i w, steps w (note_reads n i w).
Proof.
  induction n as [|n IH]; intros i w; simpl; [apply steps_refl |].
  eapply steps_trans; [| apply IH].
  case_match; [apply steps_refl | apply steps_note_overrun].
Qed.

Lemma steps_set_mem m w : steps w (set_mem m w).
Proof. steps_fields. Qed.

Lemma steps_readbuf_copy_out dst off n w :
  reaches (steps w) (readbuf_copy_out dst off n w).
Proof.
  unfold readbuf_copy_out. case_match; simpl; [apply steps_set_mem |].
  eapply steps_trans; [apply steps_note_reads | apply steps_set_mem].
Qed.

Lemma steps_note_frame opType opSize w :
  steps w (note_frame opType opSize w).
Proof.
  split; simpl; try done.
  eexists. split; [done | congruence].
Qed.

Lemma op_of_byte_return b : op_of_byte b = Some _KDB_RETURN -> b = 0.
Proof.
  unfold op_of_byte. intros H. apply find_some in H as [_ H].
  apply Z.eqb_eq in H. by rewrite <- H.
Qed.

Lemma steps_execOp opType w :
  op_of_byte opType <> Some _KDB_RETURN -> reaches (steps w) (execOp opType w).
Proof.
  unfold execOp. intros Hne.
  destruct (op_of_byte opType) as [[]|]; try apply steps_refl.
  - done.
  - apply steps_bind; [by apply steps_readbuf_blit |].
    intros; apply steps_sendOp.
  - apply steps_readbuf_copy_out.
  - destruct (caps_get _ w); [| apply steps_refl].
    apply steps_bind; [by apply steps_readbuf_blit |].
    intros; apply steps_sendOp.
  - destruct (caps_get _ w); [| apply steps_refl].
    apply steps_readbuf_copy_out.
  - apply steps_bind; [apply steps_readbuf_set |].
    intros; apply steps_sendOp.
  - steps_fields.
Qed.

Lemma steps_execOp_noted opType opSize w :
  reaches (steps w) (execOp opType (note_frame opType opSize w)).
Proof.
  destruct (decide (op_of_byte opType = Some _KDB_RETURN)) as [Hr|Hr].
  - unfold execOp. rewrite Hr. apply op_of_byte_return in Hr. subst opType.
    split; simpl; try done.
    eexists. split; [done |]. intros _ _ _. apply Exists_cons_hd. done.
  - eapply reaches_steps_trans; [apply steps_note_frame |].
    by apply steps_execOp.
Qed.

Lemma steps_doOp w : reaches (steps w) (doOp w).
Proof.
  unfold doOp.
  apply steps_bind; [apply steps_readSize |]. intros w1 _ _.
  apply steps_bind; [apply steps_readSize |]. intros w2 _ _.
  apply steps_execOp_noted.
Qed.

Lemma steps_readOp_loop fuel : forall maxloop isOp w,
  (length (rx w) < fuel)%nat ->
  reaches (steps w) (readOp_loop fuel maxloop isOp w).
Proof.
  induction fuel as [|fuel IH]; intros maxloop isOp w Hlen; [lia |].
  simpl. destruct (loops (kdb w)); [| apply steps_refl].
  case_match; [apply steps_refl |].
  destruct (rx w) as [|[res|] r] eqn:Hrx; [apply steps_refl | |].
  - assert (Hs : steps w (set_rx r w)).
    { apply steps_set_rx. rewrite Hrx. apply suffix_cons_r. done. }
    assert (Hl : (length (rx (set_rx r w)) < fuel)%nat) by (simpl in *; lia).
    destruct (res =? 160);
      [eapply reaches_steps_trans; [apply Hs | by apply IH] |].
    destruct (res =? 30);
      [| eapply reaches_steps_trans; [apply Hs | by apply IH]].
    destruct (isOp =? 1);
      [| eapply reaches_steps_trans; [apply Hs | by apply IH]].
    eapply reaches_steps_trans; [apply Hs |].
    apply steps_bind; [apply steps_doOp |].
    intros w1 _ Hw1. apply IH.
    apply st_rx, suffix_length in Hw1. lia.
  - eapply reaches_steps_trans; [| apply IH; simpl in *; lia].
    apply steps_set_rx. rewrite Hrx. apply suffix_cons_r. done.
Qed.

Lemma steps_readOp maxloop w : reaches (steps w) (readOp maxloop w).
Proof. apply steps_readOp_loop. lia. Qed.

(** [readOp] always stays below the loop bound of its model. *)
Lemma readOp_total maxloop w : readOp maxloop w <> NoFuel.
Proof.
  pose proof (steps_readOp maxloop w) as H.
  destruct (readOp maxloop w); done.
Qed.

(** ** What the frame writer produces *)

Lemma readbuf_get_lt i w :
  i < 32 -> readbuf_get i w = default 0 (readbuf (kdb w) !! Z.to_nat i).
Proof.
  intros Hi. unfold readbuf_get. by destruct (Z.ltb_spec i 32); [| lia].
Qed.

Lemma sendOp_loop_ok n : forall (i : nat) w,
  (i + n <= 32)%nat -> (32 <= length (readbuf (kdb w)))%nat ->
  sendOp_loop n (Z.of_nat i) w =
  Done (set_tx (tx w ++ take n (drop i (readbuf (kdb w)))) w).
Proof.
  induction n as [|n IH]; intros i w Hi Hl; simpl.
  - rewrite take_0, app_nil_r. by destruct w.
  - destruct (Z.ltb_spec (Z.of_nat i) 32) as [_|]; [| lia].
    replace (Z.of_nat i + 1) with (Z.of_nat (S i)) by lia.
    rewrite IH by (simpl; lia). simpl. f_equal.
    destruct (lookup_lt_is_Some_2 (readbuf (kdb w)) i) as [b Hb]; [lia |].
    rewrite readbuf_get_lt by lia. rewrite Nat2Z.id, Hb. simpl.
    rewrite (drop_S _ _ _ Hb). simpl.
    by rewrite <- app_assoc.
Qed.

(** Within the buffer, [sendOp] writes the two sync bytes, the opcode, the
    length and the first [opSize] bytes of the scratch buffer. *)
Lemma sendOp_ok opType opSize w :
  0 <= opSize <= 32 -> wf w ->
  sendOp opType opSize w =
  Done (set_tx (tx w ++ [0xA0; 0x1E; opType; opSize] ++
                take (Z.to_nat opSize) (readbuf (kdb w))) w).
Proof.
  intros Hs [_ Hl]. unfold sendOp.
  rewrite (sendOp_loop_ok _ 0) by (simpl; lia).
  simpl. rewrite drop_0. f_equal. unfold set_tx. simpl.
  by rewrite <- !app_assoc.
Qed.

(** ** What the payload reader stores *)

Lemma readSize_loop_block bs : forall (p : nat) rest w,
  bs <> [] -> (p + length bs <= 32)%nat ->
  (32 <= length (readbuf (kdb w)))%nat ->
  readSize_loop (Z.of_nat (p + length bs - 1)) (Z.of_nat p)
                (map Some bs ++ rest) w =
  Done (set_readbuf (take p (readbuf (kdb w)) ++ bs ++
                     drop (p + length bs) (readbuf (kdb w)))
                    (set_rx rest w)).
Proof.
  induction bs as [|b bs IH]; intros p rest w Hne Hp Hl; [done |].
  simpl in Hp. simpl map. simpl app. cbn [readSize_loop].
  unfold readbuf_set.
  destruct (Z.leb_spec 0 (Z.of_nat p)); [| lia].
  destruct (Z.ltb_spec (Z.of_nat p) 32); [| lia]. cbn [andb].
  rewrite Nat2Z.id.
  destruct bs as [|b' bs].
  - simpl length. replace (p + 1 - 1)%nat with p by lia.
    rewrite Z.eqb_refl. f_equal. unfold set_readbuf, set_kdb, set_rx; simpl.
    rewrite insert_take_drop by lia.
    by replace (p + 1)%nat with (S p) by lia.
  - destruct (Z.eqb_spec (Z.of_nat p) (Z.of_nat (p + length (b :: b' :: bs) - 1)));
      [simpl in *; lia |].
    replace (u8 (Z.of_nat p + 1)) with (Z.of_nat (S p))
      by (unfold u8; rewrite Z.mod_small; lia).
    replace (p + length (b :: b' :: bs) - 1)%nat
      with (S p + length (b' :: bs) - 1)%nat by (simpl; lia).
    change (Some b' :: map Some bs ++ rest) with (map Some (b' :: bs) ++ rest).
    rewrite IH; [| done | simpl in *; lia | simpl; rewrite length_insert; lia].
    f_equal. unfold set_readbuf, set_kdb, set_rx; simpl. do 2 f_equal.
    rewrite (take_S_r _ _ b) by (apply list_lookup_insert_eq; lia).
    rewrite take_insert_ge by lia.
    rewrite drop_insert_lt by (simpl; lia).
    rewrite <- app_assoc. simpl.
    by replace (S (p + S (length bs))) with (p + S (S (length bs)))%nat by lia.
Qed.

Lemma readSize_ok size bs rest w :
  Z.of_nat (length bs) = size -> size <= 32 -> wf w ->
  rx w = map Some bs ++ rest ->
  readSize size w =
  Done (set_readbuf (bs ++ drop (length bs) (readbuf (kdb w))) (set_rx rest w)).
Proof.
  intros Hlen Hs [Hc Hl] Hrx. unfold readSize.
  destruct (Z.eqb_spec size 0) as [H0|H0].
  - destruct bs; [| simpl in *; lia]. simpl in *. rewrite drop_0.
    destruct w; simpl in *. subst. by destruct kdb0.
  - rewrite Hrx.
    replace (u8 (size - 1)) with (Z.of_nat (0 + length bs - 1))
      by (unfold u8; rewrite Z.mod_small; lia).
    rewrite (readSize_loop_block bs 0); [done | | lia | lia].
    intros ->. simpl in *. lia.
Qed.

(** ** Receiving a frame *)

Lemma readOp_loop_A0 fuel maxloop isOp w r :
  loops (kdb w) = true -> budget_spent maxloop = false ->
  rx w = Some 0xA0 :: r ->
  readOp_loop (S fuel) maxloop isOp w =
  readOp_loop fuel (next_budget maxloop) 1 (set_rx r w).
Proof. intros Hl Hb Hrx. simpl. by rewrite Hl, Hb, Hrx. Qed.

Lemma readOp_loop_1E fuel maxloop w r :
  loops (kdb w) = true -> budget_spent maxloop = false ->
  rx w = Some 0x1E :: r ->
  readOp_loop (S fuel) maxloop 1 w =
  bind (doOp (set_rx r w)) (readOp_loop fuel (next_budget maxloop) 0).
Proof. intros Hl Hb Hrx. simpl. by rewrite Hl, Hb, Hrx. Qed.

Lemma readOp_loop_idle fuel maxloop isOp w r :
  loops (kdb w) = true -> budget_spent maxloop = false ->
  rx w = None :: r ->
  readOp_loop (S fuel) maxloop isOp w =
  readOp_loop fuel (next_budget maxloop) isOp (set_rx r w).
Proof. intros Hl Hb Hrx. simpl. by rewrite Hl, Hb, Hrx. Qed.

(** With the header and the whole payload on the line, [doOp] hands the
    [switch] the opcode, the length and the payload it was sent. *)
Lemma doOp_recv opType opSize payload rest w :
  wf w -> Z.of_nat (length payload) = opSize -> opSize <= 32 ->
  rx w = Some opType :: Some opSize :: map Some payload ++ rest ->
  exists w1,
    doOp w = execOp opType (note_frame opType opSize w1) /\
    wf w1 /\ rx w1 = rest /\ tx w1 = tx w /\ frames w1 = frames w /\
    mem w1 = mem w /\ pins w1 = pins w /\ slept w1 = slept w /\
    caps (kdb w1) = caps (kdb w) /\ capsize (kdb w1) = capsize (kdb w) /\
    loops (kdb w1) = loops (kdb w) /\
    readbuf (kdb w1) =
      payload ++ drop (length payload) (opType :: opSize :: drop 2 (readbuf (kdb w))).
Proof.
  intros Hw Hlen Hs Hrx. unfold doOp.
  rewrite (readSize_ok 2 [opType; opSize] (map Some payload ++ rest));
    [| done | lia | done | done].
  cbn [bind].
  set (w0 := set_readbuf _ _).
  assert (Hw0 : wf w0).
  { apply wf_set_readbuf; [| by destruct Hw].
    destruct Hw as [_ Hl]. simpl. rewrite length_drop. lia. }
  assert (Hop : readbuf_get 0 w0 = opType) by done.
  assert (Hsz : readbuf_get 1 w0 = opSize) by done.
  rewrite Hop, Hsz.
  rewrite (readSize_ok opSize payload rest w0); [| done | done | done | done].
  cbn [bind]. eexists. split; [reflexivity |].
  split; [| done].
  apply wf_set_readbuf; [| by destruct Hw0].
  destruct Hw0 as [_ Hl]. rewrite length_app, length_drop, Hl. lia.
Qed.

Lemma reaches_frames_grow w o pre f :
  reaches (steps w) o -> frames w = pre ++ [f] ->
  reaches (fun w' => exists more, frames w' = pre ++ f :: more) o.
Proof.
  intros Hs Hf.
  assert (Hgrow : forall w', steps w w' ->
            exists more, frames w' = pre ++ f :: more).
  { intros w' [_ _ _ _ _ _ (fs & Hfs & _) _]. exists fs.
    by rewrite Hfs, Hf, <- app_assoc. }
  destruct o; simpl in *; auto.
Qed.

(** ** What the sync scan really needs *)

(** [readOp] dispatches only when some byte 0x1E comes after a byte 0xA0,
    whatever lies between them. *)
Lemma readOp_loop_quiet fuel : forall maxloop isOp w,
  (length (rx w) < fuel)%nat ->
  (isOp = 1 -> forall k2 k3, rx_bytes (rx w) <> k2 ++ 0x1E :: k3) ->
  (forall k1 k2 k3, rx_bytes (rx w) <> k1 ++ 0xA0 :: k2 ++ 0x1E :: k3) ->
  reaches (fun w' => frames w' = frames w) (readOp_loop fuel maxloop isOp w).
Proof.
  induction fuel as [|fuel IH]; intros maxloop isOp w Hf H1 H2; [lia |].
  cbn [readOp_loop]. destruct (loops (kdb w)); [| done].
  destruct (budget_spent maxloop); [done |].
  destruct (rx w) as [|[res|] r] eqn:Hrx; [done | |]; simpl in Hf.
  - change (rx_bytes (Some res :: r)) with (res :: rx_bytes r) in H1, H2.
    assert (H2' : forall k1 k2 k3, rx_bytes r <> k1 ++ 160 :: k2 ++ 30 :: k3).
    { intros k1 k2 k3 E. apply (H2 (res :: k1) k2 k3). by rewrite E. }
    destruct (Z.eqb_spec res 160) as [->|Hne].
    + apply (IH _ 1 (set_rx r w)); [simpl; lia | | done].
      intros _ k2 k3 E. cbn [rx set_rx] in E. apply (H2 [] k2 k3). by rewrite E.
    + destruct (Z.eqb_spec res 30) as [->|Hne'].
      * destruct (Z.eqb_spec isOp 1) as [->|Hop].
        { by destruct (H1 eq_refl [] (rx_bytes r)). }
        apply (IH _ isOp (set_rx r w)); [simpl; lia | done | done].
      * apply (IH _ isOp (set_rx r w)); [simpl; lia | | done].
        intros Hop k2 k3 E. cbn [rx set_rx] in E.
        apply (H1 Hop (res :: k2) k3). by rewrite E.
  - apply (IH _ isOp (set_rx r w)); [simpl; lia | done | done].
Qed.

(** ** Statements of the specification *)

(** C1 (the code departs from it).  The claim: on an input without the
    contiguous bytes 0xA0, 0x1E the reader never dispatches.  [readOp]
    keeps [isOp] set over any byte other than 0x1E, so 0xA0, 0x55, 0x1E is
    taken for a sync sequence: here [debugger] receives these three bytes
    and two zero bytes, dispatches a RETURN frame and returns. *)
Theorem C1_stale_sync_flag_dispatches :
  let r := [Some 0xA0; Some 0x55; Some 0x1E; Some 0; Some 0] in
  has_sync (rx_bytes r) = false /\
  exists w', debugger 7 (world_new r) = Done w' /\
    frames w' = [mkFrame 0 0 []] /\ loops (kdb w') = false /\ rx w' = [].
Proof.
  split; [reflexivity |].
  eexists. split; [vm_compute; reflexivity |]. done.
Qed.

(** C2.  A frame of at most 32 payload bytes written by [sendOp], read back
    by [readOp] on another board, reaches the [switch] of [doOp] with the
    same opcode, length and payload. *)
Theorem C2_frame_roundtrip (ws : World) (opType opSize : Z) :
  wf ws -> 0 <= opSize <= 32 ->
  exists ws',
    sendOp opType opSize ws = Done ws' /\
    written ws ws' =
      encode (mkFrame opType opSize (take (Z.to_nat opSize) (readbuf (kdb ws)))) /\
    forall (wr : World) (maxloop : Z) (rest : list (option Z)),
      wf wr -> loops (kdb wr) = true -> budget_allows 2 maxloop = true ->
      rx wr = map Some (written ws ws') ++ rest ->
      reaches (fun w' => exists more,
                 frames w' = frames wr ++
                   mkFrame opType opSize
                     (take (Z.to_nat opSize) (readbuf (kdb ws))) :: more)
              (readOp maxloop wr).
Proof.
  intros Hws Hsz. eexists. split; [by apply sendOp_ok |].
  assert (Hwr : written ws (set_tx (tx ws ++ [160; 30; opType; opSize] ++
              take (Z.to_nat opSize) (readbuf (kdb ws))) ws) =
            encode (mkFrame opType opSize (take (Z.to_nat opSize) (readbuf (kdb ws))))).
  { unfold written. simpl tx. by rewrite drop_app_length. }
  split; [done |].
  intros wr maxloop rest Hw Hl Hb Hrx. rewrite Hwr in Hrx.
  set (payload := take (Z.to_nat opSize) (readbuf (kdb ws))) in *.
  assert (Hpl : Z.of_nat (length payload) = opSize).
  { unfold payload. destruct Hws as [_ Hlen]. rewrite length_take, Hlen. lia. }
  simpl in Hb. apply andb_prop in Hb as [Hb1 Hb2].
  apply andb_prop in Hb2 as [Hb2 _].
  apply negb_true_iff in Hb1, Hb2.
  unfold encode in Hrx. simpl in Hrx.
  unfold readOp. rewrite Hrx. cbn [length].
  rewrite (readOp_loop_A0 _ _ _ _ _ Hl Hb1 Hrx).
  rewrite (readOp_loop_1E _ _ (set_rx _ wr) _ Hl Hb2 eq_refl).
  edestruct (doOp_recv opType opSize payload rest)
    as (w1 & -> & Hw1 & Hrx1 & _ & Hfr & _ & _ & _ & _ & _ & Hl1 & Hrb);
    [| done | lia | | ]; [| simpl; reflexivity |]; [done |].
  assert (Hpay : take (Z.to_nat opSize) (readbuf (kdb w1)) = payload).
  { rewrite Hrb. apply take_app_length'. lia. }
  assert (Hnote : frames (note_frame opType opSize w1) =
                  frames wr ++ [mkFrame opType opSize payload]).
  { unfold note_frame. simpl. by rewrite Hfr, Hpay. }
  assert (Hfuel : forall w, steps (note_frame opType opSize w1) w ->
            (length (rx w) < S (S (S (length (map Some payload ++ rest)))))%nat).
  { intros w Hs. apply st_rx, suffix_length in Hs. simpl in Hs.
    rewrite Hrx1 in Hs. rewrite length_app. lia. }
  destruct (decide (op_of_byte opType = Some _KDB_RETURN)) as [Hr|Hr].
  - unfold execOp. rewrite Hr. cbn [bind].
    eapply (reaches_frames_grow (set_loops false (note_frame opType opSize w1)));
      [| exact Hnote].
    apply steps_readOp_loop. simpl. rewrite Hrx1, length_app. lia.
  - eapply reaches_frames_grow; [| exact Hnote].
    apply steps_bind; [by apply steps_execOp |].
    intros w2 _ Hs2. apply steps_readOp_loop. by apply Hfuel.
Qed.

Lemma C2_witness :
  reaches (fun w' => exists more, frames w' = [] ++ mkFrame 9 2 [0; 0] :: more)
    (readOp 255 (set_loops true (world_new (map Some [0xA0; 0x1E; 9; 2; 0; 0] ++ [])))).
Proof.
  destruct (C2_frame_roundtrip (world_new []) 9 2) as (ws' & _ & Hwr & Hrecv);
    [split; reflexivity | lia |].
  apply (Hrecv (set_loops true (world_new (map Some [0xA0; 0x1E; 9; 2; 0; 0] ++ [])))
               255 []); [split; reflexivity | reflexivity | reflexivity |].
  rewrite Hwr. reflexivity.
Defined.

Lemma readOp_loop_stopped fuel maxloop isOp w :
  loops (kdb w) = false -> readOp_loop (S fuel) maxloop isOp w = Done w.
Proof. intros Hl. simpl. by rewrite Hl. Qed.

Lemma budget_allows_2 maxloop :
  budget_allows 2 maxloop = true ->
  budget_spent maxloop = false /\ budget_spent (next_budget maxloop) = false.
Proof.
  simpl. intros Hb. apply andb_prop in Hb as [Hb1 Hb2].
  apply andb_prop in Hb2 as [Hb2 _]. by apply negb_true_iff in Hb1, Hb2.
Qed.

(** C6.  The [switch] answers the RETURN opcode by clearing [loops] and
    nothing else; a RETURN frame arriving while [readOp] waits therefore
    makes it return at the next test of [loops], before any further poll
    of the port, and not a byte is written. *)
Theorem C6_return_stops_loop (w : World) (maxloop : Z) (rest : list (option Z)) :
  wf w -> loops (kdb w) = true -> budget_allows 2 maxloop = true ->
  rx w = map Some (encode (mkFrame (op_value _KDB_RETURN) 0 [])) ++ rest ->
  (forall w0, execOp (op_value _KDB_RETURN) w0 = Done (set_loops false w0)) /\
  exists w',
    readOp maxloop w = Done w' /\
    loops (kdb w') = false /\ tx w' = tx w /\ rx w' = rest /\
    frames w' = frames w ++ [mkFrame (op_value _KDB_RETURN) 0 []].
Proof.
  intros Hw Hl Hb Hrx. split; [done |].
  apply budget_allows_2 in Hb as [Hb1 Hb2].
  change (rx w = Some 160 :: Some 30 :: Some 0 :: Some 0 :: map Some [] ++ rest) in Hrx.
  unfold readOp. rewrite Hrx. cbn [length].
  rewrite (readOp_loop_A0 _ _ _ _ _ Hl Hb1 Hrx).
  rewrite (readOp_loop_1E _ _ (set_rx _ w) _ Hl Hb2 eq_refl).
  edestruct (doOp_recv 0 0 [] rest)
    as (w1 & -> & Hw1 & Hrx1 & Htx & Hfr & _ & _ & _ & _ & _ & Hl1 & Hrb);
    [| done | lia | | ]; [| simpl; reflexivity |]; [done |].
  change (execOp 0 (note_frame 0 0 w1))
    with (Done (set_loops false (note_frame 0 0 w1))).
  cbn [bind]. rewrite readOp_loop_stopped by done.
  eexists. split; [done |]. simpl. by rewrite Hfr.
Qed.

Lemma C6_witness :
  exists w',
    readOp 255 (set_loops true (world_new [Some 0xA0; Some 0x1E; Some 0; Some 0; Some 9])) = Done w' /\
    loops (kdb w') = false /\ tx w' = [] /\ rx w' = [Some 9] /\
    frames w' = [mkFrame 0 0 []].
Proof.
  apply (C6_return_stops_loop
           (set_loops true (world_new [Some 0xA0; Some 0x1E; Some 0; Some 0; Some 9]))
           255 [Some 9]); [split; reflexivity | reflexivity | reflexivity | reflexivity].
Defined.

(** ** The payload reader and the buffer bound *)

Lemma readSize_loop_bounded r : forall (size pos : nat) w,
  (pos <= size < 32)%nat -> wf w ->
  in_bounds (readSize_loop (Z.of_nat size) (Z.of_nat pos) r w) /\
  reaches (fun w' => wf w' /\ same_from (S size) w w' /\
                     overruns w' = overruns w)
          (readSize_loop (Z.of_nat size) (Z.of_nat pos) r w).
Proof.
  induction r as [|[b|] r IH]; intros size pos w Hp Hw; cbn [readSize_loop].
  - split; [done |]. simpl. split; [| done]. by destruct Hw.
  - unfold readbuf_set.
    destruct (Z.leb_spec 0 (Z.of_nat pos)); [| lia].
    destruct (Z.ltb_spec (Z.of_nat pos) 32); [| lia]. cbn [andb].
    rewrite Nat2Z.id.
    set (w1 := set_readbuf _ _).
    assert (Hw1 : wf w1).
    { apply wf_set_readbuf; [| by destruct Hw].
      rewrite length_insert. by destruct Hw. }
    assert (Hsame : same_from (S size) w w1).
    { unfold same_from, w1. simpl. apply drop_insert_lt. lia. }
    destruct (Z.eqb_spec (Z.of_nat pos) (Z.of_nat size)) as [He|He].
    + split; done.
    + replace (u8 (Z.of_nat pos + 1)) with (Z.of_nat (S pos))
        by (unfold u8; rewrite Z.mod_small; lia).
      destruct (IH size (S pos) w1) as [Hb Hr]; [lia | done |].
      split; [done |].
      destruct (readSize_loop _ _ r w1); simpl in *; try done;
        (split; [tauto |]; unfold same_from in *;
         destruct Hr as (_ & -> & ->); done).
  - apply IH; done.
Qed.

Lemma readSize_bounded n w :
  0 <= n <= 32 -> wf w ->
  in_bounds (readSize n w) /\
  reaches (fun w' => wf w' /\ same_from (Z.to_nat n) w w' /\
                     overruns w' = overruns w) (readSize n w).
Proof.
  intros Hn Hw. unfold readSize.
  destruct (Z.eqb_spec n 0) as [->|Hn0].
  - split; [done |]. simpl. split; done.
  - replace (u8 (n - 1)) with (Z.of_nat (Z.to_nat n - 1))
      by (unfold u8; rewrite Z.mod_small; lia).
    destruct (readSize_loop_bounded (rx w) (Z.to_nat n - 1) 0 w) as [Hb Hr];
      [lia | done |].
    split; [done |].
    by replace (S (Z.to_nat n - 1)) with (Z.to_nat n) in Hr by lia.
Qed.

(** C3 (as the code has it).  A payload of declared length at most 32 is
    stored inside the scratch buffer: [readSize] never leaves the array (no
    overrun is put on record) and changes no cell from index [n] on; and
    once a header declaring such a length has arrived, [doOp] either still
    waits for payload bytes or reaches its [switch] with the arrays intact
    and no cell outside them touched. *)
Theorem C3_declared_length_within_buffer (w : World) (n : Z) :
  wf w -> 0 <= n <= 32 ->
  in_bounds (readSize n w) /\
  reaches (fun w' => wf w' /\ same_from (Z.to_nat n) w w' /\
                     overruns w' = overruns w) (readSize n w) /\
  forall opType r, rx w = Some opType :: Some n :: r ->
    (exists w1, doOp w = Polling w1) \/
    (exists w1, wf w1 /\ overruns w1 = overruns w /\
                doOp w = execOp opType (note_frame opType n w1)).
Proof.
  intros Hw Hn.
  destruct (readSize_bounded n w Hn Hw) as [Hb Hr].
  split; [done |]. split; [done |].
  intros opType r Hrx. unfold doOp.
  rewrite (readSize_ok 2 [opType; n] r); [| done | lia | done | done].
  cbn [bind]. set (w0 := set_readbuf _ _).
  assert (Hw0 : wf w0).
  { apply wf_set_readbuf; [| by destruct Hw].
    destruct Hw as [_ Hl]. simpl. rewrite length_drop. lia. }
  change (readbuf_get 0 w0) with opType.
  change (readbuf_get 1 w0) with n.
  destruct (readSize_bounded n w0 Hn Hw0) as [Hb0 Hr0].
  destruct (readSize n w0) as [w1|w1| |]; simpl in *; try done.
  - right. exists w1. destruct Hr0 as (Hw1 & _ & Ho1).
    split; [done |]. split; [by rewrite Ho1 | done].
  - left. by exists w1.
Qed.

Lemma C3_witness :
  in_bounds (readSize 32 (world_new (replicate 40 (Some 7)))) /\
  reaches (fun w' => wf w' /\
             same_from 32 (world_new (replicate 40 (Some 7))) w' /\
             overruns w' = [])
          (readSize 32 (world_new (replicate 40 (Some 7)))).
Proof.
  destruct (C3_declared_length_within_buffer
              (world_new (replicate 40 (Some 7))) 32) as (Hb & Hr & _);
    [split; reflexivity | lia | exact (conj Hb Hr)].
Defined.

(** C3 (as the spec has it) fails: nothing in [doOp] or [readSize] checks
    the length byte.  A frame whose header declares 33 payload bytes makes
    [readSize] store the 33rd byte at [readbuf[32]], past the array, where
    the member [loops] lies; the frame is dispatched all the same. *)
Lemma C3_length_33_overruns :
  exists w',
    debugger 7 (world_new (map Some ([0xA0; 0x1E; 0; 33] ++ replicate 33 1))) =
    Done w' /\
    overruns w' = [readbuf_at 32] /\
    frames w' = [mkFrame 0 33 (replicate 32 1)].
Proof. eexists. split; [vm_compute; reflexivity | done]. Qed.

(** ** The capture table *)

Lemma readbuf_set_ok i b w :
  0 <= i < 32 ->
  readbuf_set i b w = Done (set_readbuf (<[Z.to_nat i := b]> (readbuf (kdb w))) w).
Proof.
  intros Hi. unfold readbuf_set.
  destruct (Z.leb_spec 0 i); [| lia]. destruct (Z.ltb_spec i 32); [| lia]. done.
Qed.

Lemma caps_set_ok i p w :
  0 <= i < 32 ->
  caps_set i p w = Done (set_caps (<[Z.to_nat i := p]> (caps (kdb w))) w).
Proof.
  intros Hi. unfold caps_set.
  destruct (Z.leb_spec 0 i); [| lia]. destruct (Z.ltb_spec i 32); [| lia]. done.
Qed.

Lemma take_8_inserts (a b c d e f g h : Z) (l : list Z) :
  (8 <= length l)%nat ->
  take 8 (<[7%nat:=h]> (<[6%nat:=g]> (<[5%nat:=f]> (<[4%nat:=e]>
         (<[3%nat:=d]> (<[2%nat:=c]> (<[1%nat:=b]> (<[0%nat:=a]> l)))))))) =
  [a; b; c; d; e; f; g; h].
Proof.
  intros Hl. do 8 (destruct l as [|? l]; [simpl in Hl; lia |]). reflexivity.
Qed.

Lemma capture_ok line x sz w :
  wf w -> 0 <= capsize (kdb w) < 32 ->
  exists w',
    capture line x sz w = Done w' /\ wf w' /\
    caps (kdb w') = <[Z.to_nat (capsize (kdb w)) := mkPtr sz x]> (caps (kdb w)) /\
    capsize (kdb w') = capsize (kdb w) + 1 /\
    tx w' = tx w ++ encode (capture_frame (capsize (kdb w)) (mkReg line x sz)) /\
    rx w' = rx w /\ loops (kdb w') = loops (kdb w) /\ frames w' = frames w.
Proof.
  intros [Hc Hl] Hn. unfold capture, put_line.
  do 8 (rewrite readbuf_set_ok by lia; cbn [bind]).
  rewrite caps_set_ok by done. cbn [bind].
  rewrite sendOp_ok; [| lia |].
  2:{ split; cbn [set_caps set_readbuf set_kdb kdb caps readbuf];
        rewrite !length_insert; done. }
  cbn [bind]. eexists. split; [reflexivity |].
  unfold wf.
  cbn [set_capsize set_tx set_caps set_readbuf set_kdb kdb caps readbuf capsize
       loops loops_byte Z.eqb negb tx rx frames].
  split; [split; rewrite !length_insert; done |].
  split; [done |].
  split; [unfold u8; rewrite Z.mod_small; lia |].
  split; [| done].
  change (Z.to_nat 8) with 8%nat.
  change (Z.to_nat 7) with 7%nat. change (Z.to_nat 6) with 6%nat.
  change (Z.to_nat 5) with 5%nat. change (Z.to_nat 4) with 4%nat.
  change (Z.to_nat 3) with 3%nat. change (Z.to_nat 2) with 2%nat.
  change (Z.to_nat 1) with 1%nat. change (Z.to_nat 0) with 0%nat.
  rewrite take_8_inserts by lia. done.
Qed.

Lemma capture_all_from regs : forall (k : nat) w,
  wf w -> capsize (kdb w) = Z.of_nat k -> (k + length regs <= 32)%nat ->
  exists w',
    capture_all regs w = Done w' /\ wf w' /\
    capsize (kdb w') = Z.of_nat (k + length regs) /\
    (forall i r, regs !! i = Some r ->
       caps (kdb w') !! (k + i)%nat = Some (mkPtr (r_size r) (r_addr r))) /\
    (forall j, (j < k)%nat -> caps (kdb w') !! j = caps (kdb w) !! j) /\
    tx w' = tx w ++
      concat (imap (fun i r => encode (capture_frame (Z.of_nat (k + i)) r)) regs).
Proof.
  induction regs as [|r regs IH]; intros k w Hw Hk Hlen.
  - exists w. simpl. rewrite app_nil_r, Nat.add_0_r. done.
  - simpl in Hlen.
    destruct (capture_ok (r_line r) (r_addr r) (r_size r) w)
      as (w1 & Hcap & Hw1 & Hcaps1 & Hsz1 & Htx1 & _); [done | lia |].
    destruct (IH (S k) w1) as (w' & Hall & Hw' & Hsz' & Hnew & Hold & Htx');
      [done | lia | lia |].
    exists w'. cbn [capture_all]. rewrite Hcap. cbn [bind].
    split; [done |]. split; [done |].
    split; [rewrite Hsz'; f_equal; simpl; lia |].
    split; [| split].
    + intros [|i] r' Hi; simpl in Hi.
      * simplify_eq. rewrite Nat.add_0_r, Hold by lia.
        rewrite Hcaps1, Hk, Nat2Z.id.
        apply list_lookup_insert_eq. destruct Hw as [-> _]. lia.
      * replace (k + S i)%nat with (S k + i)%nat by lia. by apply Hnew.
    + intros j Hj. rewrite Hold by lia.
      rewrite Hcaps1, Hk, Nat2Z.id. apply list_lookup_insert_ne. lia.
    + rewrite Htx', Htx1, Hk, <- app_assoc. f_equal.
      rewrite imap_cons. cbn [concat]. rewrite Nat.add_0_r. do 2 f_equal.
      apply imap_ext. intros i r' _. simpl. do 2 f_equal. lia.
Qed.

(** C5.  After a reset ([capsize] is 0), the registrations of any list of
    at most 32 all return; the [i]-th one (from 0) is stored in [caps[i]]
    and announced by a CAPTURE frame whose last payload byte is [i]. *)
Theorem C5_sequential_slot_indices (regs : list Reg) (w : World) :
  wf w -> capsize (kdb w) = 0 -> (length regs <= 32)%nat ->
  exists w',
    capture_all regs w = Done w' /\
    capsize (kdb w') = Z.of_nat (length regs) /\
    (forall i r, regs !! i = Some r ->
       caps (kdb w') !! i = Some (mkPtr (r_size r) (r_addr r)) /\
       last (f_payload (capture_frame (Z.of_nat i) r)) = Some (Z.of_nat i)) /\
    written w w' =
      concat (imap (fun i r => encode (capture_frame (Z.of_nat i) r)) regs).
Proof.
  intros Hw Hk Hlen.
  destruct (capture_all_from regs 0 w) as (w' & Hall & _ & Hsz & Hnew & _ & Htx);
    [done | done | lia |].
  exists w'. split; [done |]. split; [done |]. split.
  - intros i r Hi. split; [by apply (Hnew i) | done].
  - unfold written. rewrite Htx. apply drop_app_length.
Qed.

Lemma C5_witness :
  exists w',
    capture_all [mkReg 10 0x2000 2; mkReg 11 0x2004 4] (world_new []) = Done w' /\
    capsize (kdb w') = 2 /\
    (forall i r, [mkReg 10 0x2000 2; mkReg 11 0x2004 4] !! i = Some r ->
       caps (kdb w') !! i = Some (mkPtr (r_size r) (r_addr r)) /\
       last (f_payload (capture_frame (Z.of_nat i) r)) = Some (Z.of_nat i)) /\
    written (world_new []) w' =
      [0xA0; 0x1E; 9; 8; 0; 10; 0; 0; 0x20; 0x00; 2; 0;
       0xA0; 0x1E; 9; 8; 0; 11; 0; 0; 0x20; 0x04; 4; 1].
Proof.
  apply (C5_sequential_slot_indices
           [mkReg 10 0x2000 2; mkReg 11 0x2004 4] (world_new []));
    [split; reflexivity | reflexivity | simpl; lia].
Defined.

Lemma caps_get_ok pos w :
  wf w -> 0 <= pos < 32 ->
  exists p, caps_get pos w = Some p /\ caps (kdb w) !! Z.to_nat pos = Some p.
Proof.
  intros [Hc _] Hp. unfold caps_get.
  destruct (Z.leb_spec 0 pos); [| lia]. destruct (Z.ltb_spec pos 32); [| lia].
  destruct (lookup_lt_is_Some_2 (caps (kdb w)) (Z.to_nat pos)) as [p Hp'];
    [lia |].
  exists p. by rewrite Hp'.
Qed.

(** [sendOp] has no loop that waits and no access to [caps]: it returns. *)
Lemma sendOp_loop_returns n : forall i w, exists w', sendOp_loop n i w = Done w'.
Proof.
  induction n as [|n IH]; intros i w; simpl; [by eexists |].
  destruct (i <? 32); apply IH.
Qed.

Lemma sendOp_returns opType opSize w :
  exists w', sendOp opType opSize w = Done w'.
Proof. unfold sendOp. apply sendOp_loop_returns. Qed.

(** C4 (as the code has it).  While the table holds fewer than 32 entries,
    [capture] stores the slot at index [capsize], inside the table, counts
    it and returns.  READ_CAP and WRITE_CAP with an index below 32 use the
    table entry at that index, whatever [capsize] is, and no cell outside
    the table is accessed.  No error is reported anywhere. *)
Theorem C4_registry_within_table (w : World) :
  wf w ->
  (forall line x sz, 0 <= capsize (kdb w) < 32 ->
     exists w', capture line x sz w = Done w' /\ wf w' /\
       caps (kdb w') =
         <[Z.to_nat (capsize (kdb w)) := mkPtr sz x]> (caps (kdb w)) /\
       capsize (kdb w') = capsize (kdb w) + 1) /\
  (0 <= readbuf_get 0 w < 32 ->
     exists p, caps (kdb w) !! Z.to_nat (readbuf_get 0 w) = Some p /\
       execOp (op_value _KDB_READ_CAP) w =
         (let* w1 := readbuf_blit 0 (load (mem w) (ptr p) (Z.to_nat (size p))) w in
          sendOp (op_value _KDB_READ_CAP_RES) (size p) w1) /\
       execOp (op_value _KDB_WRITE_CAP) w = readbuf_copy_out (ptr p) 1 (size p) w /\
       (forall i w', execOp (op_value _KDB_READ_CAP) w <> Overrun (caps_at i) w') /\
       (forall i w', execOp (op_value _KDB_WRITE_CAP) w <> Overrun (caps_at i) w')).
Proof.
  intros Hw. split.
  - intros line x sz Hn.
    destruct (capture_ok line x sz w Hw Hn) as (w' & H1 & H2 & H3 & H4 & _).
    by exists w'.
  - intros Hpos.
    destruct (caps_get_ok _ w Hw Hpos) as (p & Hget & Hlk).
    exists p. split; [done |].
    assert (Hr : execOp (op_value _KDB_READ_CAP) w =
                 (let* w1 := readbuf_blit 0 (load (mem w) (ptr p) (Z.to_nat (size p))) w in
                  sendOp (op_value _KDB_READ_CAP_RES) (size p) w1)).
    { unfold execOp. change (op_of_byte (op_value _KDB_READ_CAP)) with (Some _KDB_READ_CAP).
      cbv beta iota zeta. by rewrite Hget. }
    assert (Hwr : execOp (op_value _KDB_WRITE_CAP) w =
                  readbuf_copy_out (ptr p) 1 (size p) w).
    { unfold execOp. change (op_of_byte (op_value _KDB_WRITE_CAP)) with (Some _KDB_WRITE_CAP).
      cbv beta iota zeta. by rewrite Hget. }
    split; [done |]. split; [done |]. split.
    + intros i w'. rewrite Hr. unfold readbuf_blit.
      destruct (_ <=? 32); cbn [bind];
        match goal with |- sendOp ?o ?n ?x <> _ =>
          destruct (sendOp_returns o n x) as [w2 ->] end; done.
    + intros i w'. rewrite Hwr. unfold readbuf_copy_out.
      destruct (_ <=? 32); done.
Qed.

Lemma C4_witness :
  exists w',
    capture 1 256 2 (world_new []) = Done w' /\ wf w' /\
    caps (kdb w') = <[0%nat := mkPtr 2 256]> (replicate 32 (mkPtr 0 0)) /\
    capsize (kdb w') = 0 + 1.
Proof.
  destruct (C4_registry_within_table (world_new [])) as [H _];
    [split; reflexivity |].
  apply (H 1 256 2). change (0 <= 0 < 32). lia.
Defined.

(** C4 (as the spec has it) fails: [capture] and the [switch] check
    nothing.  The 33rd registration of a session stores to [caps[32]],
    past the table; and on a board where nothing was registered, a
    READ_CAP for slot 5 is answered with an (empty) READ_CAP_RES frame
    taken from the zeroed table entry, not with an error. *)
Lemma C4_no_capacity_or_range_error :
  (exists w',
     capture_all (replicate 33 (mkReg 1 256 2)) (world_new []) =
     Overrun (caps_at 32) w') /\
  (exists w',
     debugger 7 (world_new (map Some [0xA0; 0x1E; 3; 1; 5; 0xA0; 0x1E; 0; 0])) =
     Done w' /\
     capsize (kdb w') = 0 /\
     tx w' = [0xA0; 0x1E; 8; 2; 0; 7] ++ [0xA0; 0x1E; 11; 0]).
Proof.
  split.
  - eexists. vm_compute. reflexivity.
  - eexists. split; [vm_compute; reflexivity |]. split; reflexivity.
Qed.

(** ** Text output *)

Lemma line_big_endian line :
  0 <= line < 65536 -> 256 * u8 (Z.shiftr line 8) + u8 line = line.
Proof.
  intros Hl. unfold u8. rewrite Z.shiftr_div_pow2 by lia.
  change (2 ^ 8) with 256.
  rewrite (Z.mod_small (line / 256)).
  - symmetry. apply Z.div_mod. lia.
  - split; [apply Z.div_pos; lia |]. apply Z.div_lt_upper_bound; lia.
Qed.

Lemma strlen_le s : (strlen s <= length (str_bytes s))%nat.
Proof.
  induction s as [|c s IH]; simpl; [lia |].
  destruct (Ascii.eqb c zero); simpl; unfold str_bytes in IH; lia.
Qed.

Lemma take_3_inserts (a b c : Z) (l : list Z) :
  (3 <= length l)%nat ->
  take 3 (<[2%nat:=c]> (<[1%nat:=b]> (<[0%nat:=a]> l))) = [a; b; c].
Proof.
  intros Hl. do 3 (destruct l as [|? l]; [simpl in Hl; lia |]). reflexivity.
Qed.

Lemma print_kind_ok kind line str w :
  wf w ->
  let n := Z.min (u8 (Z.of_nat (strlen str))) 29 in
  let text := take (Z.to_nat n) (str_bytes str) in
  Z.of_nat (length text) = n /\
  exists w',
    print_kind kind line str w = Done w' /\ wf w' /\
    tx w' = tx w ++ encode (mkFrame (op_value _KDB_PRINT) (n + 3)
                     ([u8 (Z.shiftr line 8); u8 line; kind] ++ text)).
Proof.
  intros [Hc Hl] n text.
  assert (Hu : 0 <= u8 (Z.of_nat (strlen str)) <= Z.of_nat (strlen str)).
  { unfold u8. split; [apply Z.mod_pos_bound; lia |].
    apply Z.mod_le; lia. }
  assert (Hn : 0 <= n <= 29) by (unfold n; lia).
  assert (Htext : Z.of_nat (length text) = n).
  { unfold text. rewrite length_take. pose proof (strlen_le str). lia. }
  split; [done |].
  unfold print_kind, put_line.
  replace (if u8 (Z.of_nat (strlen str)) >? 29 then 29
           else u8 (Z.of_nat (strlen str))) with n.
  2:{ unfold n. rewrite Z.gtb_ltb.
      destruct (Z.ltb_spec 29 (u8 (Z.of_nat (strlen str)))); lia. }
  do 3 (rewrite readbuf_set_ok by lia; cbn [bind]).
  fold text. unfold readbuf_blit.
  cbn [set_readbuf set_kdb kdb readbuf caps].
  destruct (Z.leb_spec (3 + Z.of_nat (length text)) 32) as [_|]; [| lia].
  cbn [bind].
  replace (u8 (n + 3)) with (n + 3) by (unfold u8; rewrite Z.mod_small; lia).
  rewrite sendOp_ok; [| lia |].
  2:{ split; cbn [set_readbuf set_kdb kdb readbuf caps]; [done |].
      rewrite !length_app, length_take, length_drop, !length_insert. lia. }
  eexists. split; [reflexivity |].
  cbn [set_tx set_readbuf set_kdb kdb readbuf caps tx].
  split.
  { split; cbn [set_tx set_readbuf set_kdb kdb readbuf caps]; [done |].
    rewrite !length_app, length_take, length_drop, !length_insert. lia. }
  f_equal. unfold encode. cbn [f_op f_len f_payload]. f_equal.
  change (Z.to_nat 3) with 3%nat. change (Z.to_nat 2) with 2%nat.
  change (Z.to_nat 1) with 1%nat. change (Z.to_nat 0) with 0%nat.
  rewrite take_3_inserts by lia.
  rewrite (app_assoc [_; _; _] text).
  apply take_app_length'. rewrite length_app. simpl. lia.
Qed.

(** C8 (the code departs from it).  The claim: the text is sent cut to its
    first 29 bytes.  [print] and [println] store the length in a [uint8_t]
    before they compare it with 29, so the length of a text of 256 bytes
    or more is first reduced modulo 256: of a text of 258 bytes the frame
    carries the first 2 only. *)
Theorem C8_length_narrowed_before_cut :
  let str := string_of_list_ascii (replicate 258 "a"%char) in
  strlen str = 258%nat /\
  (exists w', print 7 str (world_new []) = Done w' /\
     tx w' = [0xA0; 0x1E; 13; 5; 0; 7; 0; 97; 97]) /\
  (exists w', println 7 str (world_new []) = Done w' /\
     tx w' = [0xA0; 0x1E; 13; 5; 0; 7; 1; 97; 97]).
Proof.
  split; [vm_compute; reflexivity |].
  split; eexists; (split; [vm_compute; reflexivity | reflexivity]).
Qed.

(** ** Raw memory *)

Lemma store_outside bs : forall m a x,
  x < a \/ a + Z.of_nat (length bs) <= x -> store m a bs x = m x.
Proof.
  induction bs as [|b bs IH]; intros m a x Hx; simpl; [done |].
  rewrite IH by (simpl in Hx; lia).
  destruct (Z.eqb_spec x a); [simpl in Hx; lia | done].
Qed.

Lemma store_inside bs : forall m a (i : nat) b,
  bs !! i = Some b -> store m a bs (a + Z.of_nat i) = b.
Proof.
  induction bs as [|b0 bs IH]; intros m a i b Hi; [done |].
  destruct i as [|i]; cbn [store].
  - simpl in Hi. simplify_eq. rewrite store_outside by lia.
    change (Z.of_nat 0) with 0. by rewrite Z.add_0_r, Z.eqb_refl.
  - replace (a + Z.of_nat (S i)) with (a + 1 + Z.of_nat i) by lia.
    by apply IH.
Qed.

Lemma length_load m a n : length (load m a n) = n.
Proof. unfold load. by rewrite length_map, length_seq. Qed.

(** ** Captured slots *)

Lemma execOp_READ_CAP w p :
  wf w -> caps_get (readbuf_get 0 w) w = Some p -> 0 <= size p <= 32 ->
  execOp (op_value _KDB_READ_CAP) w =
  Done (set_tx (tx w ++ encode (mkFrame (op_value _KDB_READ_CAP_RES) (size p)
                                  (load (mem w) (ptr p) (Z.to_nat (size p)))))
         (set_readbuf (load (mem w) (ptr p) (Z.to_nat (size p)) ++
                       drop (Z.to_nat (size p)) (readbuf (kdb w))) w)).
Proof.
  intros [Hc Hl] Hget Hs. unfold execOp.
  change (op_of_byte (op_value _KDB_READ_CAP)) with (Some _KDB_READ_CAP).
  cbv beta iota zeta. rewrite Hget. unfold readbuf_blit.
  rewrite length_load, Z2Nat.id by lia.
  destruct (Z.leb_spec (0 + size p) 32) as [_|]; [| lia]. cbn [bind].
  rewrite sendOp_ok; [| lia |].
  2:{ split; cbn [set_readbuf set_kdb kdb readbuf caps]; [done |].
      rewrite !length_app, length_take, length_drop, length_load. simpl. lia. }
  f_equal. cbn [set_tx set_readbuf set_kdb kdb readbuf caps tx mem pins rx slept frames].
  change (take (Z.to_nat 0) (readbuf (kdb w))) with (@nil Z).
  rewrite Z.add_0_l. cbn [app]. do 2 f_equal.
  unfold encode. cbn [f_op f_len f_payload app]. do 4 f_equal.
  apply take_app_length'. by rewrite length_load.
Qed.

Lemma execOp_WRITE_CAP w p :
  caps_get (readbuf_get 0 w) w = Some p -> size p <= 31 ->
  execOp (op_value _KDB_WRITE_CAP) w =
  Done (set_mem (store (mem w) (ptr p)
                   (take (Z.to_nat (size p)) (drop 1 (readbuf (kdb w))))) w).
Proof.
  intros Hget Hs. unfold execOp.
  change (op_of_byte (op_value _KDB_WRITE_CAP)) with (Some _KDB_WRITE_CAP).
  cbv beta iota zeta. rewrite Hget. unfold readbuf_copy_out.
  destruct (Z.leb_spec (1 + size p) 32) as [_|]; [| lia]. done.
Qed.

Lemma copy_out_lookup m a (l : list Z) (k n i : nat) :
  (k + n <= length l)%nat -> (i < n)%nat ->
  store m a (take n (drop k l)) (a + Z.of_nat i) = default 0 (l !! (k + i)%nat).
Proof.
  intros Hk Hi.
  destruct (lookup_lt_is_Some_2 l (k + i)) as [b Hb]; [lia |].
  rewrite Hb. simpl. apply store_inside.
  rewrite lookup_take_lt by done. by rewrite lookup_drop.
Qed.

Lemma copy_out_length (l : list Z) (k n : nat) :
  (k + n <= length l)%nat -> length (take n (drop k l)) = n.
Proof. intros Hk. rewrite length_take, length_drop. lia. Qed.

(** ** Copies that run off the end of the scratch buffer *)

Lemma readbuf_get_ext k w1 w2 :
  kdb w1 = kdb w2 -> beyond w1 = beyond w2 -> readbuf_get k w1 = readbuf_get k w2.
Proof. intros Hk Hb. unfold readbuf_get. by rewrite Hk, Hb. Qed.

Lemma readbuf_get_poke_eq i b w :
  0 <= i -> (32 <= length (readbuf (kdb w)))%nat ->
  readbuf_get i (poke i b w) = b.
Proof.
  intros Hi Hl. unfold poke, readbuf_get, spill.
  destruct (Z.ltb_spec i 32).
  - cbn [set_readbuf set_kdb kdb readbuf].
    by rewrite list_lookup_insert_eq by lia.
  - destruct (Z.eqb_spec i 32); simpl; [done |]. by rewrite Z.eqb_refl.
Qed.

Lemma readbuf_get_poke_ne i k b w :
  0 <= i -> 0 <= k -> k <> i -> readbuf_get k (poke i b w) = readbuf_get k w.
Proof.
  intros Hi Hk Hne. unfold poke, readbuf_get, spill.
  destruct (Z.ltb_spec i 32).
  - cbn [set_readbuf set_kdb kdb readbuf loops_byte beyond].
    destruct (Z.ltb_spec k 32); [| done].
    by rewrite list_lookup_insert_ne by lia.
  - destruct (Z.ltb_spec k 32); [by destruct (i =? 32) |].
    destruct (Z.eqb_spec i 32); simpl.
    + by destruct (Z.eqb_spec k 32); [lia |].
    + destruct (Z.eqb_spec k 32); [done |].
      by destruct (Z.eqb_spec k i); [lia |].
Qed.

Lemma poke_keeps_poke i b w : poke_keeps w (poke i b w).
Proof.
  unfold poke_keeps, poke, spill.
  destruct (i <? 32); [| destruct (i =? 32)]; simpl;
    rewrite ?length_insert; done.
Qed.

Lemma poke_keeps_poke_from bs : forall i w, poke_keeps w (poke_from i bs w).
Proof.
  induction bs as [|b bs IH]; intros i w; simpl; [by repeat split |].
  destruct (IH (i + 1) (poke i b w)) as (A1 & A2 & A3 & A4 & A5 & A6 & A7 & A8 & A9).
  destruct (poke_keeps_poke i b w) as (B1 & B2 & B3 & B4 & B5 & B6 & B7 & B8 & B9).
  repeat split; congruence.
Qed.

Lemma readbuf_get_poke_from_below bs : forall i k w,
  0 <= k < i -> readbuf_get k (poke_from i bs w) = readbuf_get k w.
Proof.
  induction bs as [|b bs IH]; intros i k w Hk; simpl; [done |].
  rewrite IH by lia. apply readbuf_get_poke_ne; lia.
Qed.

Lemma readbuf_get_poke_from bs : forall i w (j : nat) b,
  0 <= i -> (32 <= length (readbuf (kdb w)))%nat -> bs !! j = Some b ->
  readbuf_get (i + Z.of_nat j) (poke_from i bs w) = b.
Proof.
  induction bs as [|b0 bs IH]; intros i w j b Hi Hl Hj; [done |].
  destruct j as [|j]; simpl in Hj; simpl poke_from.
  - simplify_eq. change (Z.of_nat 0) with 0. rewrite Z.add_0_r.
    rewrite readbuf_get_poke_from_below by lia.
    by apply readbuf_get_poke_eq.
  - replace (i + Z.of_nat (S j)) with (i + 1 + Z.of_nat j) by lia.
    apply IH; [lia | | done].
    destruct (poke_keeps_poke i b0 w) as (_ & _ & -> & _). done.
Qed.

Lemma map_seq_eq (f : nat -> Z) bs : forall s,
  (forall j b, bs !! j = Some b -> f (s + j)%nat = b) ->
  map f (seq s (length bs)) = bs.
Proof.
  induction bs as [|b bs IH]; intros s H; simpl; [done |].
  f_equal.
  - rewrite <- (Nat.add_0_r s). by apply H.
  - apply IH. intros j b' Hj.
    replace (S s + j)%nat with (s + S j)%nat by lia. by apply H.
Qed.

Lemma lookup_map_seq (f : nat -> Z) (n i : nat) :
  (i < n)%nat -> map f (seq 0 n) !! i = Some (f i).
Proof.
  intros Hi. change (map f (seq 0 n)) with (f <$> seq 0 n).
  rewrite list_lookup_fmap, lookup_seq_lt by done. done.
Qed.

(** [sendOp] writes what [readbuf + i] holds, inside the array or past it. *)
Lemma sendOp_loop_sends n : forall i w,
  exists w', sendOp_loop n i w = Done w' /\
    tx w' = tx w ++ map (fun j => readbuf_get (i + Z.of_nat j) w) (seq 0 n) /\
    kdb w' = kdb w /\ beyond w' = beyond w /\ mem w' = mem w /\
    pins w' = pins w /\ rx w' = rx w /\ slept w' = slept w /\
    frames w' = frames w.
Proof.
  induction n as [|n IH]; intros i w.
  - exists w. simpl. by rewrite app_nil_r.
  - cbn [sendOp_loop].
    set (wx := if i <? 32 then serial_write (readbuf_get i w) w
               else serial_write (readbuf_get i w) (note_overrun i w)).
    assert (Hx : tx wx = tx w ++ [readbuf_get i w] /\ kdb wx = kdb w /\
                 beyond wx = beyond w /\ mem wx = mem w /\ pins wx = pins w /\
                 rx wx = rx w /\ slept wx = slept w /\ frames wx = frames w).
    { unfold wx. by destruct (i <? 32). }
    destruct Hx as (X1 & X2 & X3 & X4 & X5 & X6 & X7 & X8).
    destruct (IH (i + 1) wx) as (w' & E & T & K & B & M & P & R & S' & F).
    exists w'. split.
    { rewrite <- E. unfold wx. by destruct (i <? 32). }
    split; [| repeat split; congruence].
    rewrite T, X1, <- app_assoc. f_equal. simpl. f_equal.
    { f_equal. lia. }
    rewrite <- seq_shift, map_map. apply map_ext. intros j.
    rewrite (readbuf_get_ext _ wx w) by done. f_equal. lia.
Qed.

Lemma sendOp_sends opType opSize w :
  exists w', sendOp opType opSize w = Done w' /\
    tx w' = tx w ++ [0xA0; 0x1E; opType; opSize] ++
            map (fun j => readbuf_get (Z.of_nat j) w) (seq 0 (Z.to_nat opSize)) /\
    kdb w' = kdb w /\ beyond w' = beyond w /\ mem w' = mem w /\
    pins w' = pins w /\ rx w' = rx w /\ slept w' = slept w /\
    frames w' = frames w.
Proof.
  unfold sendOp.
  set (w4 := serial_write opSize _).
  destruct (sendOp_loop_sends (Z.to_nat opSize) 0 w4)
    as (w' & E & T & K & B & M & P & R & S' & F).
  exists w'. split; [done |]. split; [| by repeat split].
  rewrite T. unfold w4. simpl. by rewrite <- !app_assoc.
Qed.

Lemma note_reads_keeps n : forall i w,
  kdb (note_reads n i w) = kdb w /\ beyond (note_reads n i w) = beyond w /\
  mem (note_reads n i w) = mem w /\ pins (note_reads n i w) = pins w /\
  rx (note_reads n i w) = rx w /\ tx (note_reads n i w) = tx w /\
  slept (note_reads n i w) = slept w /\ frames (note_reads n i w) = frames w.
Proof.
  induction n as [|n IH]; intros i w; simpl; [done |].
  destruct (IH (i + 1) (if i <? 32 then w else note_overrun i w))
    as (A1 & A2 & A3 & A4 & A5 & A6 & A7 & A8).
  rewrite A1, A2, A3, A4, A5, A6, A7, A8. by destruct (i <? 32).
Qed.

(** READ_CAP for a slot of any size: the answer holds the bytes of the
    slot, and memory is as before.  The 33rd byte of a larger slot is left
    in [loops]. *)
Lemma execOp_READ_CAP_any w p :
  wf w -> caps_get (readbuf_get 0 w) w = Some p -> 0 <= size p ->
  exists w',
    execOp (op_value _KDB_READ_CAP) w = Done w' /\
    tx w' = tx w ++ encode (mkFrame (op_value _KDB_READ_CAP_RES) (size p)
                              (load (mem w) (ptr p) (Z.to_nat (size p)))) /\
    mem w' = mem w /\ pins w' = pins w /\ rx w' = rx w /\
    caps (kdb w') = caps (kdb w) /\ capsize (kdb w') = capsize (kdb w) /\
    frames w' = frames w /\
    (32 < size p -> loops_byte (kdb w') = mem w (ptr p + 32)).
Proof.
  intros Hw Hget Hs.
  destruct (Z.le_gt_cases (size p) 32) as [Hle|Hgt].
  { rewrite (execOp_READ_CAP w p Hw Hget) by lia.
    eexists. split; [reflexivity |]. repeat split; try done. lia. }
  unfold execOp.
  change (op_of_byte (op_value _KDB_READ_CAP)) with (Some _KDB_READ_CAP).
  cbv beta iota zeta. rewrite Hget. unfold readbuf_blit.
  rewrite length_load, Z2Nat.id by lia.
  destruct (Z.leb_spec (0 + size p) 32) as [|_]; [lia |]. cbn [bind].
  set (bs := load (mem w) (ptr p) (Z.to_nat (size p))).
  set (w1 := poke_from 0 bs w).
  destruct (poke_keeps_poke_from bs 0 w)
    as (K1 & K2 & K3 & K4 & K5 & K6 & K7 & K8 & K9).
  fold w1 in K1, K2, K3, K4, K5, K6, K7, K8, K9.
  destruct (sendOp_sends (op_value _KDB_READ_CAP_RES) (size p) w1)
    as (w' & E & T & K & B & M & P & R & S' & F).
  assert (Hrd : forall (j : nat) b, bs !! j = Some b ->
            readbuf_get (Z.of_nat j) w1 = b).
  { intros j b Hj. rewrite <- (Z.add_0_l (Z.of_nat j)).
    apply readbuf_get_poke_from; [lia | | done].
    destruct Hw as [_ ->]. lia. }
  exists w'. split; [done |].
  split; [| repeat split; try congruence].
  - rewrite T, K7. f_equal. unfold encode. cbn [f_op f_len f_payload].
    f_equal.
    rewrite <- (length_load (mem w) (ptr p) (Z.to_nat (size p))). fold bs.
    apply map_seq_eq. intros j b Hj. cbn [Nat.add]. by apply Hrd.
  - intros _. rewrite K. change (loops_byte (kdb w1)) with (readbuf_get 32 w1).
    apply (Hrd 32%nat). unfold bs, load. by rewrite lookup_map_seq by lia.
Qed.

(** WRITE_CAP for a slot of any size: the slot receives what
    [readbuf + 1] onwards holds, and no other byte of memory changes. *)
Lemma execOp_WRITE_CAP_any w p :
  wf w -> caps_get (readbuf_get 0 w) w = Some p -> 0 <= size p ->
  exists w',
    execOp (op_value _KDB_WRITE_CAP) w = Done w' /\
    tx w' = tx w /\ rx w' = rx w /\
    (forall i : nat, Z.of_nat i < size p ->
       mem w' (ptr p + Z.of_nat i) = readbuf_get (1 + Z.of_nat i) w) /\
    (forall a, a < ptr p \/ ptr p + size p <= a -> mem w' a = mem w a).
Proof.
  intros [_ Hl] Hget Hs.
  unfold execOp.
  change (op_of_byte (op_value _KDB_WRITE_CAP)) with (Some _KDB_WRITE_CAP).
  cbv beta iota zeta. rewrite Hget. unfold readbuf_copy_out.
  destruct (Z.leb_spec (1 + size p) 32) as [Hle|Hgt].
  - eexists. split; [reflexivity |]. split; [done |]. split; [done |].
    cbn [set_mem mem]. change (Z.to_nat 1) with 1%nat. split.
    + intros i Hi.
      rewrite (copy_out_lookup _ _ _ 1 (Z.to_nat (size p)) i) by lia.
      rewrite readbuf_get_lt by lia. do 2 f_equal. lia.
    + intros a Ha. apply store_outside.
      rewrite copy_out_length by lia. lia.
  - eexists. split; [reflexivity |].
    destruct (note_reads_keeps (Z.to_nat (size p)) 1 w)
      as (_ & _ & _ & _ & N5 & N6 & _).
    split; [done |]. split; [done |]. cbn [set_mem mem]. split.
    + intros i Hi.
      apply (store_inside _ _ _ i).
      rewrite lookup_map_seq by lia. done.
    + intros a Ha. apply store_outside.
      rewrite length_map, length_seq. lia.
Qed.

(** With header and payload on the line, the world in which [doOp] enters
    its [switch]. *)
Lemma doOp_recv_eq opType opSize payload rest w :
  wf w -> Z.of_nat (length payload) = opSize -> opSize <= 32 ->
  rx w = Some opType :: Some opSize :: map Some payload ++ rest ->
  doOp w =
  execOp opType
    (note_frame opType opSize
       (set_readbuf (payload ++ drop (length payload)
                       (opType :: opSize :: drop 2 (readbuf (kdb w))))
                    (set_rx rest w))).
Proof.
  intros Hw Hlen Hs Hrx. unfold doOp.
  rewrite (readSize_ok 2 [opType; opSize] (map Some payload ++ rest));
    [| done | lia | done | done].
  cbn [bind].
  set (w0 := set_readbuf _ _).
  assert (Hw0 : wf w0).
  { apply wf_set_readbuf; [| by destruct Hw].
    destruct Hw as [_ Hl]. simpl. rewrite length_drop. lia. }
  assert (Hop : readbuf_get 0 w0 = opType) by done.
  assert (Hsz : readbuf_get 1 w0 = opSize) by done.
  rewrite Hop, Hsz.
  rewrite (readSize_ok opSize payload rest w0); [| done | done | done | done].
  cbn [bind]. done.
Qed.

(** C9.  For every registered slot (its size is a [uint8_t], 0 to 255),
    READ_CAP answers with a READ_CAP_RES frame of exactly [size] bytes, the
    bytes at the slot's address, and WRITE_CAP copies exactly [size] bytes,
    [readbuf[1]] onwards, to the slot's address and changes no other byte
    of memory.  Nothing compares [size] with the 32 bytes of the scratch
    buffer: a larger transfer passes through [loops] and the memory after
    the object.  The length byte of the frame plays no part: a WRITE_CAP
    frame that carries the slot index and no data still writes [size]
    bytes, first the length byte that the header left in [readbuf[1]],
    then what lay behind it before. *)
Theorem C9_cap_transfers_slot_size (w : World) (pos : Z) (p : _KDB_PtrWithSize) :
  wf w -> 0 <= pos < 32 -> caps (kdb w) !! Z.to_nat pos = Some p ->
  0 <= size p <= 255 ->
  (readbuf_get 0 w = pos ->
     exists w',
       execOp (op_value _KDB_READ_CAP) w = Done w' /\
       written w w' =
         encode (mkFrame (op_value _KDB_READ_CAP_RES) (size p)
                   (load (mem w) (ptr p) (Z.to_nat (size p)))) /\
       Z.of_nat (length (load (mem w) (ptr p) (Z.to_nat (size p)))) = size p /\
       mem w' = mem w) /\
  (readbuf_get 0 w = pos ->
     exists w',
       execOp (op_value _KDB_WRITE_CAP) w = Done w' /\ tx w' = tx w /\
       (forall i : nat, Z.of_nat i < size p ->
          mem w' (ptr p + Z.of_nat i) = readbuf_get (1 + Z.of_nat i) w) /\
       (forall a, a < ptr p \/ ptr p + size p <= a -> mem w' a = mem w a)) /\
  (forall rest,
     rx w = Some (op_value _KDB_WRITE_CAP) :: Some 1 :: Some pos :: rest ->
     exists w',
       doOp w = Done w' /\ rx w' = rest /\ tx w' = tx w /\
       (0 < size p -> mem w' (ptr p) = 1) /\
       (forall i : nat, (0 < i)%nat -> Z.of_nat i < size p ->
          mem w' (ptr p + Z.of_nat i) = readbuf_get (1 + Z.of_nat i) w) /\
       (forall a, a < ptr p \/ ptr p + size p <= a -> mem w' a = mem w a)).
Proof.
  intros Hw Hpos Hlk [Hs0 _].
  assert (Hget : forall w0, caps (kdb w0) = caps (kdb w) -> caps_get pos w0 = Some p).
  { intros w0 Hc. unfold caps_get. rewrite Hc.
    destruct (Z.leb_spec 0 pos); [| lia]. by destruct (Z.ltb_spec pos 32); [| lia]. }
  split; [| split].
  - intros Hrb. rewrite <- Hrb in Hget.
    destruct (execOp_READ_CAP_any w p Hw (Hget w eq_refl) Hs0)
      as (w' & E & T & M & _).
    exists w'. split; [done |]. split; [| split; [| done]].
    + unfold written. rewrite T. apply drop_app_length.
    + rewrite length_load. lia.
  - intros Hrb. rewrite <- Hrb in Hget.
    destruct (execOp_WRITE_CAP_any w p Hw (Hget w eq_refl) Hs0)
      as (w' & E & T & _ & Hin & Hout).
    by exists w'.
  - intros rest Hrx.
    rewrite (doOp_recv_eq (op_value _KDB_WRITE_CAP) 1 [pos] rest w);
      [| done | done | lia | done].
    set (w1 := note_frame _ _ _).
    assert (Hw1 : wf w1).
    { destruct Hw as [Hc Hl]. split; [done |]. unfold w1. simpl.
      rewrite length_drop. lia. }
    assert (Hget1 : caps_get (readbuf_get 0 w1) w1 = Some p) by by apply Hget.
    destruct (execOp_WRITE_CAP_any w1 p Hw1 Hget1 Hs0)
      as (w' & E & T & R & Hin & Hout).
    exists w'. split; [done |]. split; [by rewrite R |]. split; [by rewrite T |].
    split; [| split].
    + intros Hp. specialize (Hin 0%nat). rewrite Z.add_0_r in Hin.
      rewrite Hin by lia. done.
    + intros i Hi0 Hi. rewrite Hin by done.
      destruct Hw as [_ Hl].
      unfold readbuf_get.
      destruct (Z.ltb_spec (1 + Z.of_nat i) 32); [| done].
      assert (E2 : readbuf (kdb w1) = pos :: 1 :: drop 2 (readbuf (kdb w))) by done.
      rewrite E2.
      assert (Z.to_nat (1 + Z.of_nat i) = S (S (i - 1))) as -> by lia.
      rewrite !lookup_cons. by rewrite lookup_drop.
    + done.
Qed.

Lemma C9_witness :
  exists w',
    execOp (op_value _KDB_READ_CAP)
      (set_caps (mkPtr 33 256 :: replicate 31 (mkPtr 0 0)) (world_new [])) = Done w' /\
    written (set_caps (mkPtr 33 256 :: replicate 31 (mkPtr 0 0)) (world_new [])) w' =
      [0xA0; 0x1E; 11; 33] ++ replicate 33 0 /\
    Z.of_nat (length (load (fun _ => 0) 256 33)) = 33 /\
    mem w' = (fun _ => 0).
Proof.
  destruct (C9_cap_transfers_slot_size
              (set_caps (mkPtr 33 256 :: replicate 31 (mkPtr 0 0)) (world_new []))
              0 (mkPtr 33 256)) as [H _];
    [split; reflexivity | lia | reflexivity | simpl; lia |].
  apply H. reflexivity.
Defined.

(** ** The session loop *)

Lemma steps_delay ms w : steps w (delay ms w).
Proof. steps_fields. Qed.

Lemma steps_put_line line w : reaches (steps w) (put_line line w).
Proof.
  unfold put_line. apply steps_bind; [apply steps_readbuf_set |].
  intros; apply steps_readbuf_set.
Qed.

Lemma put_line_ok line w :
  put_line line w =
  Done (set_readbuf (<[1%nat := u8 line]>
                       (<[0%nat := u8 (Z.shiftr line 8)]> (readbuf (kdb w)))) w).
Proof.
  unfold put_line. by do 2 (rewrite readbuf_set_ok by lia; cbn [bind]).
Qed.

(** [readbuf[0] = line >> 8; readbuf[1] = line; sendOp(op, 2);] *)
Lemma sendOp_line o line w :
  wf w ->
  sendOp (op_value o) 2
    (set_readbuf (<[1%nat := u8 line]>
                    (<[0%nat := u8 (Z.shiftr line 8)]> (readbuf (kdb w)))) w) =
  Done (announced o line w).
Proof.
  intros [Hc Hl].
  rewrite sendOp_ok; [| lia |].
  2:{ split; cbn [set_readbuf set_kdb kdb readbuf caps];
        rewrite ?length_insert; done. }
  f_equal. unfold announced.
  cbn [set_tx set_readbuf set_kdb kdb readbuf caps tx].
  do 2 f_equal. unfold encode, line_frame. cbn [f_op f_len f_payload app].
  do 4 f_equal.
  destruct (readbuf (kdb w)) as [|a [|b l]]; simpl in Hl; try lia. reflexivity.
Qed.

Lemma wf_announced o line w : wf w -> wf (announced o line w).
Proof.
  intros [Hc Hl]. split; cbn [announced set_tx set_readbuf set_kdb kdb readbuf caps];
    rewrite ?length_insert; done.
Qed.

(** A call of [readOp] that comes back with [loops] still set has polled
    the port at least once. *)
Lemma readOp_loop_consumes fuel maxloop isOp w w' :
  (length (rx w) < S fuel)%nat ->
  loops (kdb w) = true -> budget_spent maxloop = false ->
  readOp_loop (S fuel) maxloop isOp w = Done w' ->
  (length (rx w') < length (rx w))%nat.
Proof.
  intros Hf Hl Hb. simpl. rewrite Hl, Hb.
  destruct (rx w) as [|[res|] r] eqn:Hrx; [done | |]; simpl in Hf.
  - assert (Hk : forall i, reaches (steps (set_rx r w))
                   (readOp_loop fuel (next_budget maxloop) i (set_rx r w)))
      by (intros; apply steps_readOp_loop; simpl; lia).
    assert (Hd : reaches (steps (set_rx r w))
                   (let* w0 := doOp (set_rx r w) in
                    readOp_loop fuel (next_budget maxloop) 0 w0)).
    { apply steps_bind; [apply steps_doOp |].
      intros w1 _ Hs. apply steps_readOp_loop.
      apply st_rx, suffix_length in Hs. simpl in Hs. lia. }
    intros H.
    assert (Hs : steps (set_rx r w) w').
    { destruct (res =? 160); [specialize (Hk 1); by rewrite H in Hk |].
      destruct (res =? 30); [| specialize (Hk isOp); by rewrite H in Hk].
      destruct (isOp =? 1); [by rewrite H in Hd |].
      specialize (Hk isOp); by rewrite H in Hk. }
    apply st_rx, suffix_length in Hs. simpl in *. lia.
  - intros H.
    pose proof (steps_readOp_loop fuel (next_budget maxloop) isOp (set_rx r w)) as Hs.
    rewrite H in Hs. simpl in Hs.
    specialize (Hs ltac:(lia)). apply st_rx, suffix_length in Hs. simpl in *. lia.
Qed.

Lemma steps_init_loop fuel : forall line w,
  (length (rx w) + 1 < fuel)%nat ->
  reaches (steps w) (init_loop fuel line w).
Proof.
  induction fuel as [|fuel IH]; intros line w Hf; [lia |].
  cbn [init_loop]. destruct (loops (kdb w)) eqn:Hl; [| apply steps_refl].
  apply steps_bind; [apply steps_put_line |]. intros w1 _ Hs1.
  apply steps_bind; [apply steps_sendOp |]. intros w2 _ Hs2.
  assert (Hs12 : steps w w2) by (eapply steps_trans; done).
  assert (Hrx2 : (length (rx w2) <= length (rx w))%nat)
    by (apply st_rx, suffix_length in Hs12; lia).
  apply steps_bind; [apply steps_readOp |]. intros w3 Hr Hs3.
  eapply reaches_steps_trans; [apply steps_delay |].
  destruct (loops (kdb w3)) eqn:Hl3.
  - apply IH. simpl.
    assert (Hl2 : loops (kdb w2) = true).
    { destruct (loops (kdb w2)) eqn:E; [done |].
      unfold readOp in Hr. rewrite readOp_loop_stopped in Hr by done.
      congruence. }
    apply readOp_loop_consumes in Hr; [lia | lia | done | done].
  - destruct fuel as [|fuel]; [lia |]. cbn [init_loop delay set_slept kdb].
    rewrite Hl3. apply steps_refl.
Qed.


(** [init] always stays below the loop bound of its model. *)
Lemma init_total line w : init line w <> NoFuel.
Proof.
  unfold init. cbv zeta. set (w0 := set_capsize 0 (set_loops true w)).
  pose proof (steps_init_loop (S (S (length (rx w0)))) line w0) as H.
  specialize (H ltac:(lia)).
  intros E. by rewrite E in H.
Qed.

(** ** Idle polls *)

Lemma budget_allows_add k : forall j m,
  budget_allows (k + j) m = budget_allows k m && budget_allows j (budget_after k m).
Proof.
  induction k as [|k IH]; intros j m; [done |].
  cbn [Nat.add budget_allows budget_after]. rewrite IH. by rewrite andb_assoc.
Qed.

Lemma readOp_loop_spent fuel maxloop isOp w :
  loops (kdb w) = true -> budget_spent maxloop = true ->
  readOp_loop (S fuel) maxloop isOp w = Done w.
Proof. intros Hl Hb. cbn [readOp_loop]. by rewrite Hl, Hb. Qed.

Lemma readOp_loop_starved fuel maxloop isOp w :
  loops (kdb w) = true -> budget_spent maxloop = false -> rx w = [] ->
  readOp_loop (S fuel) maxloop isOp w = Polling w.
Proof. intros Hl Hb Hrx. cbn [readOp_loop]. by rewrite Hl, Hb, Hrx. Qed.

Lemma readOp_loop_idle_run k : forall fuel maxloop isOp w r,
  loops (kdb w) = true -> rx w = replicate k None ++ r ->
  budget_allows k maxloop = true ->
  readOp_loop (k + fuel) maxloop isOp w =
  readOp_loop fuel (budget_after k maxloop) isOp (set_rx r w).
Proof.
  induction k as [|k IH]; intros fuel maxloop isOp w r Hl Hrx Hb.
  - simpl in Hrx. cbn [Nat.add budget_after]. rewrite <- Hrx. by destruct w.
  - cbn [budget_allows] in Hb. apply andb_prop in Hb as [Hb1 Hb2].
    apply negb_true_iff in Hb1.
    cbn [Nat.add budget_after].
    rewrite (readOp_loop_idle _ _ _ _ (replicate k None ++ r) Hl Hb1 Hrx).
    by rewrite (IH _ _ _ (set_rx _ w) r Hl eq_refl Hb2).
Qed.

Lemma budget_200 : budget_allows 199 200 = true /\ budget_after 199 200 = 1.
Proof. split; vm_compute; reflexivity. Qed.

(** [readOp(200)] gives up after 199 polls that found nothing. *)
Lemma readOp_200_timeout w rest :
  loops (kdb w) = true -> rx w = replicate 199 None ++ rest ->
  readOp 200 w = Done (set_rx rest w).
Proof.
  intros Hl Hrx. unfold readOp. rewrite Hrx, length_app, length_replicate.
  replace (S (199 + length rest)) with (199 + S (length rest))%nat by lia.
  destruct budget_200 as [Ha Hb].
  rewrite (readOp_loop_idle_run 199 _ _ _ _ rest Hl Hrx Ha), Hb.
  by apply readOp_loop_spent.
Qed.



Lemma init_loop_first fuel line w :
  wf w -> loops (kdb w) = true -> (length (rx w) + 1 < fuel)%nat ->
  reaches (steps (announced _KDB_INIT line w)) (init_loop fuel line w).
Proof.
  intros Hw Hl Hf. destruct fuel as [|fuel]; [lia |].
  cbn [init_loop]. rewrite Hl, put_line_ok. cbn [bind].
  rewrite (sendOp_line _KDB_INIT) by done. cbn [bind].
  apply steps_bind; [apply steps_readOp |]. intros w3 Hr Hs3.
  eapply reaches_steps_trans; [apply steps_delay |].
  destruct (loops (kdb w3)) eqn:Hl3.
  - apply steps_init_loop.
    apply readOp_loop_consumes in Hr; [| simpl; lia | done | done].
    cbn [delay set_slept rx]. simpl in Hr. lia.
  - destruct fuel as [|fuel]; [lia |]. cbn [init_loop delay set_slept kdb].
    rewrite Hl3. apply steps_refl.
Qed.

Lemma init_first_frame line w :
  wf w ->
  reaches (fun w' => capsize (kdb w') = 0 /\
             exists more,
               tx w' = tx w ++ encode (line_frame _KDB_INIT line) ++ more)
          (init line w).
Proof.
  intros Hw. unfold init. cbv zeta.
  set (w0 := set_capsize 0 (set_loops true w)).
  assert (Hw0 : wf w0) by (destruct Hw; by split).
  pose proof (init_loop_first (S (S (length (rx w0)))) line w0 Hw0 eq_refl) as H.
  specialize (H ltac:(lia)).
  assert (Hk : forall w', steps (announced _KDB_INIT line w0) w' ->
            capsize (kdb w') = 0 /\
            exists more, tx w' = tx w ++ encode (line_frame _KDB_INIT line) ++ more).
  { intros w' [Hc _ _ _ [more Htx] _ _ _]. split; [by rewrite Hc |].
    exists more. rewrite Htx. cbn [announced set_tx tx]. by rewrite <- app_assoc. }
  destruct (init_loop _ line w0); simpl in *; auto.
Qed.

Lemma debugger_first_frame line w :
  wf w ->
  reaches (fun w' => exists more,
             tx w' = tx w ++ encode (line_frame _KDB_DEBUGGER line) ++ more)
          (debugger line w).
Proof.
  intros Hw. unfold debugger. rewrite put_line_ok. cbn [bind].
  rewrite (sendOp_line _KDB_DEBUGGER) by done. cbn [bind].
  pose proof (steps_readOp 255 (set_loops true (announced _KDB_DEBUGGER line w))) as H.
  assert (Hk : forall w', steps (set_loops true (announced _KDB_DEBUGGER line w)) w' ->
            exists more, tx w' = tx w ++ encode (line_frame _KDB_DEBUGGER line) ++ more).
  { intros w' [_ _ _ _ [more Htx] _ _ _].
    exists more. rewrite Htx.
    cbn [set_loops set_loops_byte set_kdb announced set_tx tx].
    by rewrite <- app_assoc. }
  destruct (readOp 255 _); simpl in *; auto.
Qed.




(** ** Opcode values *)

Lemma op_of_byte_value o : op_of_byte (op_value o) = Some o.
Proof. by destruct o. Qed.

Lemma op_of_byte_inv b o : op_of_byte b = Some o -> b = op_value o.
Proof.
  unfold op_of_byte. intros H. apply find_some in H as [_ H].
  by apply Z.eqb_eq in H.
Qed.

Lemma op_of_byte_unknown b : b < 0 \/ 13 < b -> op_of_byte b = None.
Proof.
  intros Hb. destruct (op_of_byte b) as [o|] eqn:E; [| done].
  apply op_of_byte_inv in E. destruct o; vm_compute in E; lia.
Qed.

Lemma execOp_ignored b w :
  b < 0 \/ 7 <= b -> execOp b w = Done w.
Proof.
  intros Hb. unfold execOp.
  destruct (op_of_byte b) as [o|] eqn:E; [| done].
  apply op_of_byte_inv in E. destruct o; try done; vm_compute in E; lia.
Qed.

(** C10.  The enumerators take the values 0 to 13 in the order of their
    declaration and a byte names at most one of them.  [doOp] acts on the
    bytes 0 to 6 as RETURN, READ_MEM, WRITE_MEM, READ_CAP, WRITE_CAP,
    READ_PIN and WRITE_PIN, answers with the opcodes 10, 11 and 12, and
    ignores every other byte; [init], [debugger], [capture], [print] and
    [println] write the opcodes 7, 8, 9 and 13. *)
Theorem C10_opcode_values :
  map op_value _KDB_OpType_decl = [0; 1; 2; 3; 4; 5; 6; 7; 8; 9; 10; 11; 12; 13] /\
  (forall o, op_of_byte (op_value o) = Some o) /\
  (forall b o, op_of_byte b = Some o -> b = op_value o) /\
  (forall w,
     execOp 0 w = Done (set_loops false w) /\
     execOp 1 w =
       (let* w1 := readbuf_blit 0
                     (load (mem w)
                        (be32 (readbuf_get 0 w) (readbuf_get 1 w)
                              (readbuf_get 2 w) (readbuf_get 3 w))
                        (Z.to_nat (readbuf_get 4 w))) w in
        sendOp 10 (readbuf_get 4 w) w1) /\
     execOp 2 w =
       readbuf_copy_out (be32 (readbuf_get 0 w) (readbuf_get 1 w)
                              (readbuf_get 2 w) (readbuf_get 3 w))
                        5 (readbuf_get 4 w) w /\
     (forall p, caps_get (readbuf_get 0 w) w = Some p ->
        execOp 3 w =
          (let* w1 := readbuf_blit 0 (load (mem w) (ptr p) (Z.to_nat (size p))) w in
           sendOp 11 (size p) w1) /\
        execOp 4 w = readbuf_copy_out (ptr p) 1 (size p) w) /\
     execOp 5 w =
       (let* w1 := readbuf_set 0 (u8 (digitalRead (readbuf_get 0 w) w)) w in
        sendOp 12 1 w1) /\
     execOp 6 w = Done (digitalWrite (readbuf_get 0 w) (readbuf_get 1 w) w) /\
     (forall b, b < 0 \/ 7 <= b -> execOp b w = Done w)) /\
  (forall opType opSize w,
     reaches (fun w' => exists more,
                tx w' = tx w ++ [0xA0; 0x1E; opType; opSize] ++ more)
             (sendOp opType opSize w)) /\
  (forall w line, wf w ->
     reaches (fun w' => exists more, tx w' = tx w ++ [0xA0; 0x1E; 7; 2] ++ more)
             (init line w) /\
     reaches (fun w' => exists more, tx w' = tx w ++ [0xA0; 0x1E; 8; 2] ++ more)
             (debugger line w) /\
     (forall x sz, 0 <= capsize (kdb w) < 32 ->
        exists w', capture line x sz w = Done w' /\
          take 4 (written w w') = [0xA0; 0x1E; 9; 8]) /\
     (forall str, exists w', print line str w = Done w' /\
          take 3 (written w w') = [0xA0; 0x1E; 13]) /\
     (forall str, exists w', println line str w = Done w' /\
          take 3 (written w w') = [0xA0; 0x1E; 13])).
Proof.
  split; [reflexivity |].
  split; [apply op_of_byte_value |].
  split; [apply op_of_byte_inv |].
  split; [| split].
  - intros w. split; [done |]. split; [done |]. split; [done |].
    split; [| split; [done | split; [done |]]].
    + intros p Hp. unfold execOp.
      change (op_of_byte 3) with (Some _KDB_READ_CAP).
      change (op_of_byte 4) with (Some _KDB_WRITE_CAP).
      cbv beta iota zeta. by rewrite Hp.
    + intros b. apply execOp_ignored.
  - intros opType opSize w. unfold sendOp.
    pose proof (steps_sendOp_loop (Z.to_nat opSize) 0
      (serial_write opSize (serial_write opType
         (serial_write 30 (serial_write 160 w))))) as H.
    assert (Hk : forall w', steps (serial_write opSize (serial_write opType
                   (serial_write 30 (serial_write 160 w)))) w' ->
              exists more, tx w' = tx w ++ [160; 30; opType; opSize] ++ more).
    { intros w' [_ _ _ _ [more Htx] _ _]. exists more. rewrite Htx.
      cbn [serial_write set_tx tx]. by rewrite <- !app_assoc. }
    destruct (sendOp_loop _ _ _); simpl in *; auto.
  - intros w line Hw.
    split; [| split; [| split; [| split]]].
    + pose proof (init_first_frame line w Hw) as H.
      destruct (init line w); simpl in *; try done;
        destruct H as [_ [more ->]]; by eexists.
    + pose proof (debugger_first_frame line w Hw) as H.
      destruct (debugger line w); simpl in *; try done;
        destruct H as [more ->]; by eexists.
    + intros x sz Hn.
      destruct (capture_ok line x sz w Hw Hn) as (w' & Hc & _ & _ & _ & Htx & _).
      exists w'. split; [done |]. unfold written. rewrite Htx.
      by rewrite drop_app_length.
    + intros str.
      destruct (print_kind_ok 0 line str w Hw) as (_ & w' & Hp & _ & Htx).
      exists w'. split; [done |]. unfold written. rewrite Htx.
      by rewrite drop_app_length.
    + intros str.
      destruct (print_kind_ok 1 line str w Hw) as (_ & w' & Hp & _ & Htx).
      exists w'. split; [done |]. unfold written. rewrite Htx.
      by rewrite drop_app_length.
Qed.

Lemma C10_witness :
  reaches (fun w' => exists more, tx w' = [] ++ [0xA0; 0x1E; 7; 2] ++ more)
          (init 42 (world_new [])).
Proof.
  destruct C10_opcode_values as (_ & _ & _ & _ & _ & H).
  destruct (H (world_new []) 42) as [Hi _]; [split; reflexivity | exact Hi].
Defined.

(** * Further properties *)

(** ** The payload reader and the pace of the port *)

Lemma rx_bytes_app r1 r2 : rx_bytes (r1 ++ r2) = rx_bytes r1 ++ rx_bytes r2.
Proof. unfold rx_bytes. apply omap_app. Qed.

Lemma readSize_loop_paced r1 : forall (p : nat) b rest w,
  (p + length (rx_bytes r1) < 32)%nat ->
  (32 <= length (readbuf (kdb w)))%nat ->
  readSize_loop (Z.of_nat (p + length (rx_bytes r1))) (Z.of_nat p)
                (r1 ++ Some b :: rest) w =
  Done (set_readbuf (take p (readbuf (kdb w)) ++ (rx_bytes r1 ++ [b]) ++
                     drop (S (p + length (rx_bytes r1))) (readbuf (kdb w)))
                    (set_rx rest w)).
Proof.
  induction r1 as [|[c|] r1 IH]; intros p b rest w Hp Hl.
  - simpl app. cbn [rx_bytes omap list_omap length]. rewrite Nat.add_0_r.
    cbn [readSize_loop]. rewrite readbuf_set_ok by lia.
    rewrite Z.eqb_refl, Nat2Z.id. f_equal.
    unfold set_readbuf, set_kdb, set_rx; simpl.
    by rewrite insert_take_drop by lia.
  - change (rx_bytes (Some c :: r1)) with (c :: rx_bytes r1) in *.
    simpl in Hp. simpl app. cbn [readSize_loop].
    rewrite readbuf_set_ok by lia. rewrite Nat2Z.id.
    destruct (Z.eqb_spec (Z.of_nat p) (Z.of_nat (p + length (c :: rx_bytes r1))));
      [simpl in *; lia |].
    replace (u8 (Z.of_nat p + 1)) with (Z.of_nat (S p))
      by (unfold u8; rewrite Z.mod_small; lia).
    replace (p + length (c :: rx_bytes r1))%nat
      with (S p + length (rx_bytes r1))%nat by (simpl; lia).
    rewrite IH; [| lia | simpl; rewrite length_insert; lia].
    f_equal. unfold set_readbuf, set_kdb, set_rx; simpl. do 2 f_equal.
    rewrite (take_S_r _ _ c) by (apply list_lookup_insert_eq; lia).
    rewrite take_insert_ge by lia.
    rewrite drop_insert_lt by lia.
    rewrite <- !app_assoc. simpl. do 5 f_equal. lia.
  - change (rx_bytes (None :: r1)) with (rx_bytes r1) in *.
    simpl app. cbn [readSize_loop]. by apply IH.
Qed.

Lemma set_readbuf_id w : set_readbuf (readbuf (kdb w)) w = w.
Proof. by destruct w as [[] ? ? ? ? ? ?]. Qed.

Lemma readSize_loop_short r : forall (p : nat) (size : Z) w,
  Z.of_nat (p + length (rx_bytes r)) <= size -> size < 32 ->
  (32 <= length (readbuf (kdb w)))%nat ->
  readSize_loop size (Z.of_nat p) r w =
  Polling (set_readbuf (take p (readbuf (kdb w)) ++ rx_bytes r ++
                        drop (p + length (rx_bytes r)) (readbuf (kdb w)))
                       (set_rx [] w)).
Proof.
  induction r as [|[c|] r IH]; intros p size w Hp Hs Hl.
  - cbn [readSize_loop rx_bytes omap list_omap length app].
    rewrite Nat.add_0_r, take_drop. f_equal.
    by destruct w as [[] ? ? ? ? ? ?].
  - change (rx_bytes (Some c :: r)) with (c :: rx_bytes r) in *.
    simpl in Hp. cbn [readSize_loop].
    rewrite readbuf_set_ok by lia. rewrite Nat2Z.id.
    destruct (Z.eqb_spec (Z.of_nat p) size); [lia |].
    replace (u8 (Z.of_nat p + 1)) with (Z.of_nat (S p))
      by (unfold u8; rewrite Z.mod_small; lia).
    rewrite IH; [| lia | lia | simpl; rewrite length_insert; lia].
    f_equal. unfold set_readbuf, set_kdb, set_rx; simpl. do 2 f_equal.
    rewrite (take_S_r _ _ c) by (apply list_lookup_insert_eq; lia).
    rewrite take_insert_ge by lia.
    rewrite drop_insert_lt by lia.
    rewrite <- !app_assoc. simpl. do 4 f_equal. lia.
  - change (rx_bytes (None :: r)) with (rx_bytes r) in *.
    cbn [readSize_loop]. by apply IH.
Qed.

(** X1.  Polls that find nothing do not matter to [readSize]: once [n]
    bytes (at most 32) have been delivered, however many empty polls lie
    between them, it returns with exactly these bytes at the start of the
    scratch buffer, the rest of the buffer unchanged, and the port read up
    to and including the last of them. *)
Theorem readSize_paced (n : Z) (r1 : list (option Z)) (b : Z)
    (rest : list (option Z)) (w : World) :
  wf w -> n <= 32 -> Z.of_nat (length (rx_bytes r1)) + 1 = n ->
  rx w = r1 ++ Some b :: rest ->
  readSize n w =
  Done (set_readbuf ((rx_bytes r1 ++ [b]) ++
                     drop (Z.to_nat n) (readbuf (kdb w))) (set_rx rest w)).
Proof.
  intros [_ Hl] Hn Hlen Hrx. unfold readSize.
  destruct (Z.eqb_spec n 0); [lia |]. rewrite Hrx.
  replace (u8 (n - 1)) with (Z.of_nat (0 + length (rx_bytes r1)))
    by (unfold u8; rewrite Z.mod_small; lia).
  rewrite (readSize_loop_paced r1 0); [| lia | lia].
  change (take 0 (readbuf (kdb w))) with (@nil Z). cbn [app Nat.add].
  by replace (Z.to_nat n) with (S (length (rx_bytes r1))) by lia.
Qed.

Lemma readSize_paced_witness :
  readSize 2 (world_new [None; Some 7; None; None; Some 9; Some 1]) =
  Done (set_readbuf ([7; 9] ++ replicate 30 0) (world_new [Some 1])).
Proof.
  apply (readSize_paced 2 [None; Some 7; None; None] 9 [Some 1]
           (world_new [None; Some 7; None; None; Some 9; Some 1]));
    [split; reflexivity | lia | reflexivity | reflexivity].
Defined.

(** X2.  [readSize] does not come back before all [n] bytes have arrived:
    while fewer were delivered it is still polling, with the bytes that did
    arrive stored at the start of the scratch buffer. *)
Theorem readSize_waits (n : Z) (w : World) :
  wf w -> n <= 32 -> Z.of_nat (length (rx_bytes (rx w))) < n ->
  readSize n w =
  Polling (set_readbuf (rx_bytes (rx w) ++
                        drop (length (rx_bytes (rx w))) (readbuf (kdb w)))
                       (set_rx [] w)).
Proof.
  intros [_ Hl] Hn Hlen. unfold readSize.
  destruct (Z.eqb_spec n 0); [lia |].
  replace (u8 (n - 1)) with (n - 1) by (unfold u8; rewrite Z.mod_small; lia).
  by rewrite (readSize_loop_short (rx w) 0); [| cbn [Nat.add]; lia | lia | lia].
Qed.

Lemma readSize_waits_witness :
  readSize 3 (world_new [Some 7; None; Some 9; None]) =
  Polling (set_readbuf ([7; 9] ++ replicate 30 0) (world_new [])).
Proof.
  apply (readSize_waits 3 (world_new [Some 7; None; Some 9; None]));
    [split; reflexivity | lia | simpl; lia].
Defined.

(** ** The poll budget of [readOp] *)

Lemma budget_countdown k : forall m,
  Z.of_nat k + 1 = m -> m <= 254 ->
  budget_allows k m = true /\ budget_after k m = 1.
Proof.
  induction k as [|k IH]; intros m Hm Hle.
  - split; [done |]. simpl. lia.
  - assert (Hs : budget_spent m = false /\ next_budget m = m - 1).
    { unfold budget_spent, next_budget, u8.
      destruct (Z.eqb_spec m 255); [lia |]. rewrite Z.mod_small by lia.
      split; [| done]. destruct (Z.eqb_spec (m - 1) 0); [lia | done]. }
    destruct Hs as [Hs Hn]. cbn [budget_allows budget_after]. rewrite Hs, Hn.
    destruct (IH (m - 1)) as [Ha Hb]; [lia | lia |]. by rewrite Ha, Hb.
Qed.

Lemma budget_unbounded k : budget_allows k 255 = true /\ budget_after k 255 = 255.
Proof.
  induction k as [|k [Ha Hb]]; [done |].
  cbn [budget_allows budget_after].
  change (budget_spent 255) with false. change (next_budget 255) with 255.
  by rewrite Ha, Hb.
Qed.

Lemma readOp_loop_idle_all k : forall fuel isOp w,
  loops (kdb w) = true -> rx w = replicate k None -> (k < fuel)%nat ->
  readOp_loop fuel 255 isOp w = Polling (set_rx [] w).
Proof.
  intros fuel isOp w Hl Hrx Hf.
  replace fuel with (k + S (fuel - S k))%nat by lia.
  destruct (budget_unbounded k) as [Ha Hb].
  rewrite (readOp_loop_idle_run k _ _ _ _ [] Hl); [| by rewrite app_nil_r | done].
  rewrite Hb. by apply readOp_loop_starved.
Qed.

(** X3.  A budget [maxloop] from 1 to 254 lets [readOp] poll exactly
    [maxloop - 1] times: on a port that stays silent that long it returns
    then, with [loops] still set and nothing else changed.  With budget 1
    it returns without polling at all. *)
Theorem readOp_budget_runs_out (maxloop : Z) (k : nat)
    (rest : list (option Z)) (w : World) :
  1 <= maxloop <= 254 -> Z.of_nat k = maxloop - 1 ->
  loops (kdb w) = true -> rx w = replicate k None ++ rest ->
  readOp maxloop w = Done (set_rx rest w).
Proof.
  intros Hm Hk Hl Hrx. unfold readOp. rewrite Hrx, length_app, length_replicate.
  replace (S (k + length rest)) with (k + S (length rest))%nat by lia.
  destruct (budget_countdown k maxloop) as [Ha Hb]; [lia | lia |].
  rewrite (readOp_loop_idle_run k _ _ _ _ rest Hl Hrx Ha), Hb.
  by apply readOp_loop_spent.
Qed.

Lemma readOp_budget_runs_out_witness :
  readOp 3 (set_loops true (world_new [None; None; Some 0xA0])) =
  Done (set_rx [Some 0xA0] (set_loops true (world_new [None; None; Some 0xA0]))).
Proof.
  apply (readOp_budget_runs_out 3 2 [Some 0xA0]
           (set_loops true (world_new [None; None; Some 0xA0])));
    [lia | lia | reflexivity | reflexivity].
Defined.

(** X4.  The budgets 255 and 0 never run out: 255 is never decremented,
    and 0 wraps to 255 at the first decrement.  On a silent port [readOp]
    keeps polling however long the silence lasts. *)
Theorem readOp_no_timeout (maxloop : Z) (n : nat) (w : World) :
  maxloop = 255 \/ maxloop = 0 ->
  loops (kdb w) = true -> rx w = replicate n None ->
  readOp maxloop w = Polling (set_rx [] w).
Proof.
  intros [->| ->] Hl Hrx; unfold readOp.
  - apply (readOp_loop_idle_all n); [done | done | rewrite Hrx, length_replicate; lia].
  - destruct n as [|n].
    + rewrite Hrx. cbn [replicate length].
      rewrite readOp_loop_starved by done.
      change (@nil (option Z)) with (replicate 0 (@None Z)). rewrite <- Hrx.
      by destruct w.
    + rewrite Hrx. cbn [replicate length].
      rewrite (readOp_loop_idle _ 0 _ _ (replicate n None) Hl eq_refl Hrx).
      change (next_budget 0) with 255.
      rewrite (readOp_loop_idle_all n); [done | done | done |].
      rewrite length_replicate. lia.
Qed.

Lemma readOp_no_timeout_witness :
  readOp 0 (set_loops true (world_new (replicate 300 None))) =
  Polling (set_rx [] (set_loops true (world_new (replicate 300 None)))).
Proof.
  apply (readOp_no_timeout 0 300 (set_loops true (world_new (replicate 300 None))));
    [by right | reflexivity | reflexivity].
Defined.

(** ** Waiting for RETURN *)

Lemma doOp_return w rest :
  wf w -> rx w = Some 0 :: Some 0 :: rest -> doOp w = Done (returned rest w).
Proof.
  intros Hw Hrx. unfold doOp.
  by rewrite (readSize_ok 2 [0; 0] rest); [| done | lia | done | done].
Qed.

Lemma readOp_loop_return k : forall fuel maxloop w rest,
  wf w -> loops (kdb w) = true ->
  rx w = replicate k None ++ Some 0xA0 :: Some 0x1E :: Some 0 :: Some 0 :: rest ->
  budget_allows (k + 2) maxloop = true ->
  readOp_loop (k + S (S (S fuel))) maxloop 0 w = Done (returned rest w).
Proof.
  intros fuel maxloop w rest Hw Hl Hrx Hb.
  rewrite budget_allows_add in Hb. apply andb_prop in Hb as [Hk Hb].
  apply budget_allows_2 in Hb as [Hb1 Hb2].
  rewrite (readOp_loop_idle_run k _ _ _ _ _ Hl Hrx Hk).
  rewrite (readOp_loop_A0 _ _ _ (set_rx _ w) _ Hl Hb1 eq_refl).
  rewrite (readOp_loop_1E _ _ (set_rx _ (set_rx _ w)) _ Hl Hb2 eq_refl).
  rewrite (doOp_return _ rest); [| by destruct Hw | done].
  cbn [bind]. by rewrite readOp_loop_stopped.
Qed.


Lemma readOp_255_idle n w :
  loops (kdb w) = true -> rx w = replicate n None ->
  readOp 255 w = Polling (set_rx [] w).
Proof.
  intros Hl Hrx. unfold readOp.
  apply (readOp_loop_idle_all n); [done | done |].
  rewrite Hrx, length_replicate. lia.
Qed.

(** X5.  [debugger] announces once and then waits without limit: on a port
    that stays silent, however long, it is still polling, and all it has
    written is one DEBUGGER frame carrying the line number. *)
Theorem debugger_waits_forever (line : Z) (n : nat) (w : World) :
  wf w -> rx w = replicate n None ->
  debugger line w =
    Polling (set_rx [] (set_loops true (announced _KDB_DEBUGGER line w))) /\
  written w (set_rx [] (set_loops true (announced _KDB_DEBUGGER line w))) =
    encode (line_frame _KDB_DEBUGGER line).
Proof.
  intros Hw Hrx. split.
  - unfold debugger. rewrite put_line_ok. cbn [bind].
    rewrite (sendOp_line _KDB_DEBUGGER) by done. cbn [bind].
    by apply (readOp_255_idle n).
  - unfold written. cbn [set_rx set_loops set_loops_byte set_kdb announced set_tx tx].
    apply drop_app_length.
Qed.

Lemma debugger_waits_forever_witness :
  debugger 7 (world_new (replicate 1000 None)) =
    Polling (set_rx [] (set_loops true
               (announced _KDB_DEBUGGER 7 (world_new (replicate 1000 None))))) /\
  written (world_new (replicate 1000 None))
    (set_rx [] (set_loops true
       (announced _KDB_DEBUGGER 7 (world_new (replicate 1000 None))))) =
    encode (line_frame _KDB_DEBUGGER 7).
Proof.
  apply (debugger_waits_forever 7 1000 (world_new (replicate 1000 None)));
    [split; reflexivity | reflexivity].
Defined.



Lemma init_loop_handshake q : forall fuel line w k rest,
  wf w -> loops (kdb w) = true -> (k <= 197)%nat ->
  rx w = replicate (199 * q + k) None ++
         Some 0xA0 :: Some 0x1E :: Some 0 :: Some 0 :: rest ->
  (q + 1 < fuel)%nat ->
  exists w',
    init_loop fuel line w = Done w' /\
    tx w' = tx w ++ concat (replicate (S q) (encode (line_frame _KDB_INIT line))) /\
    slept w' = slept w + 100 * Z.of_nat (S q) /\
    loops (kdb w') = false /\ capsize (kdb w') = capsize (kdb w) /\
    rx w' = rest /\ frames w' = frames w ++ [mkFrame 0 0 []].
Proof.
  induction q as [|q IH]; intros fuel line w k rest Hw Hl Hk Hrx Hf;
    (destruct fuel as [|fuel]; [lia |]);
    cbn [init_loop]; rewrite Hl, put_line_ok; cbn [bind];
    rewrite (sendOp_line _KDB_INIT) by done; cbn [bind].
  - assert (Hb : budget_allows (k + 2) 200 = true).
    { destruct budget_200 as [Ha _].
      replace 199%nat with ((k + 2) + (197 - k))%nat in Ha by lia.
      rewrite budget_allows_add in Ha. by apply andb_prop in Ha as [Ha _]. }
    rewrite Nat.mul_0_r, Nat.add_0_l in Hrx.
    unfold readOp.
    replace (S (length (rx (announced _KDB_INIT line w))))
      with (k + S (S (S (S (S (length rest))))))%nat.
    2:{ cbn [announced set_tx set_readbuf set_kdb rx].
        rewrite Hrx, length_app, length_replicate. simpl. lia. }
    rewrite (readOp_loop_return k _ _ _ rest);
      [| by apply wf_announced | done | done | done].
    cbn [bind]. destruct fuel as [|fuel]; [lia |].
    eexists. split; [reflexivity |].
    cbn [delay set_slept returned set_loops set_loops_byte note_frame set_frames
         set_readbuf set_rx set_kdb announced set_tx
         tx slept kdb loops loops_byte Z.eqb negb capsize rx frames concat replicate].
    rewrite app_nil_r. split; [done |]. split; [lia | done].
  - rewrite (readOp_200_timeout _
               (replicate (199 * q + k) None ++
                Some 160 :: Some 30 :: Some 0 :: Some 0 :: rest)); [| done |].
    2:{ cbn [announced set_tx set_readbuf set_kdb rx]. rewrite Hrx.
        rewrite app_assoc, <- replicate_add. do 2 f_equal. lia. }
    cbn [bind].
    destruct (IH fuel line
                (delay 100 (set_rx (replicate (199 * q + k) None ++
                                    Some 160 :: Some 30 :: Some 0 :: Some 0 :: rest)
                              (announced _KDB_INIT line w))) k rest)
      as (w' & Hi & Htx & Hsl & Hl' & Hcs & Hrx' & Hfr); [| done | done | done | lia |].
    { destruct (wf_announced _KDB_INIT line w Hw). by split. }
    exists w'. split; [done |].
    rewrite Htx, Hsl.
    cbn [delay set_slept set_rx announced set_tx set_readbuf set_kdb tx slept] in *.
    split; [by rewrite <- app_assoc |]. split; [lia | done].
Qed.

(** X7.  When the host answers RETURN during the [q]-th repetition of the
    INIT announcement (counting from 0), after [199 * q + k] empty polls
    with [k] at most 197, [init] returns: it has written [q + 1] INIT
    frames, slept [q + 1] times for 100, cleared [loops], left [capsize] at
    0 and read the port up to the end of the RETURN frame. *)
Theorem init_handshake (line : Z) (q k : nat) (rest : list (option Z)) (w : World) :
  wf w -> (k <= 197)%nat ->
  rx w = replicate (199 * q + k) None ++ map Some (encode (mkFrame 0 0 [])) ++ rest ->
  exists w',
    init line w = Done w' /\
    written w w' = concat (replicate (S q) (encode (line_frame _KDB_INIT line))) /\
    slept w' = slept w + 100 * Z.of_nat (S q) /\ loops (kdb w') = false /\
    capsize (kdb w') = 0 /\ rx w' = rest /\
    frames w' = frames w ++ [mkFrame 0 0 []].
Proof.
  intros Hw Hk Hrx. unfold init. cbv zeta.
  set (w0 := set_capsize 0 (set_loops true w)).
  assert (Hw0 : wf w0) by (destruct Hw; by split).
  destruct (init_loop_handshake q (S (S (length (rx w0)))) line w0 k rest)
    as (w' & Hi & Htx & Hsl & Hl' & Hcs & Hrx' & Hfr); [done | done | done | done | |].
  { change (rx w0) with (rx w). rewrite Hrx, length_app, length_replicate. lia. }
  exists w'. split; [done |]. split; [| done].
  unfold written. rewrite Htx. apply drop_app_length.
Qed.

Lemma init_handshake_witness :
  exists w',
    init 42 (world_new (replicate (199 * 1 + 2) None ++
                        map Some (encode (mkFrame 0 0 [])) ++ [Some 5])) = Done w' /\
    written (world_new (replicate (199 * 1 + 2) None ++
                        map Some (encode (mkFrame 0 0 [])) ++ [Some 5])) w' =
      concat (replicate 2 (encode (line_frame _KDB_INIT 42))) /\
    slept w' = 0 + 100 * Z.of_nat 2 /\ loops (kdb w') = false /\
    capsize (kdb w') = 0 /\ rx w' = [Some 5] /\
    frames w' = [] ++ [mkFrame 0 0 []].
Proof.
  apply (init_handshake 42 1 2 [Some 5]
           (world_new (replicate (199 * 1 + 2) None ++
                       map Some (encode (mkFrame 0 0 [])) ++ [Some 5])));
    [split; reflexivity | lia | reflexivity].
Defined.


(** ** Addresses on the wire *)

Lemma u8_range z : 0 <= u8 z < 256.
Proof. unfold u8. apply Z.mod_pos_bound. lia. Qed.

(** The four bytes sent for an address below 2^32 are its digits to the
    base 256. *)
Lemma byte_split x :
  0 <= x < 2 ^ 32 ->
  x = u8 (Z.shiftr x 24) * 2 ^ 24 + u8 (Z.shiftr x 16) * 2 ^ 16 +
      u8 (Z.shiftr x 8) * 2 ^ 8 + u8 x.
Proof.
  intros Hx. unfold u8. rewrite !Z.shiftr_div_pow2 by lia.
  pose proof (Z.div_mod x 256 ltac:(lia)) as H0.
  pose proof (Z.div_mod (x / 2 ^ 8) 256 ltac:(lia)) as H1.
  pose proof (Z.div_mod (x / 2 ^ 16) 256 ltac:(lia)) as H2.
  rewrite Z.div_div in H1, H2 by lia.
  change (2 ^ 8 * 256) with (2 ^ 16) in H1.
  change (2 ^ 16 * 256) with (2 ^ 24) in H2.
  change 256 with (2 ^ 8) in H0 at 2.
  assert (H3 : (x / 2 ^ 24) mod 256 = x / 2 ^ 24).
  { apply Z.mod_small. split; [apply Z.div_pos; lia |].
    apply Z.div_lt_upper_bound; lia. }
  rewrite H3. lia.
Qed.

(** Bits that do not overlap add up, also below a negative number. *)
Lemma lor_disjoint m k r :
  0 <= k -> 0 <= r < 2 ^ k -> Z.lor (m * 2 ^ k) r = m * 2 ^ k + r.
Proof.
  intros Hk Hr.
  assert (Hl : Z.land (m * 2 ^ k) r = 0).
  { destruct (Z.eq_dec r 0) as [->|Hne]; [apply Z.land_0_r |].
    apply Z.bits_inj'. intros n Hn. rewrite Z.land_spec, Z.bits_0.
    destruct (Z.ltb_spec n k).
    - by rewrite Z.mul_pow2_bits_low by lia.
    - rewrite (Z.bits_above_log2 r n), andb_false_r; [done | lia |].
      assert (Z.log2 r < k) by (apply Z.log2_lt_pow2; lia). lia. }
  pose proof (Z.add_lor_land (m * 2 ^ k) r) as H.
  by rewrite Hl, Z.add_0_r in H.
Qed.

(** The address that READ_MEM and WRITE_MEM build from four bytes: the
    first byte counts as a signed one. *)
Lemma be32_value b0 b1 b2 b3 :
  0 <= b0 < 256 -> 0 <= b1 < 256 -> 0 <= b2 < 256 -> 0 <= b3 < 256 ->
  be32 b0 b1 b2 b3 =
  to_size_t ((if b0 <? 128 then b0 else b0 - 256) * 2 ^ 24 +
             b1 * 2 ^ 16 + b2 * 2 ^ 8 + b3).
Proof.
  intros H0 H1 H2 H3. unfold be32. f_equal.
  rewrite !Z.shiftl_mul_pow2 by lia.
  set (hi := if b0 <? 128 then b0 else b0 - 256).
  assert (Hhi : -128 <= hi < 128) by (unfold hi; destruct (Z.ltb_spec b0 128); lia).
  assert (E0 : to_int (b0 * 2 ^ 24) = hi * 2 ^ 24).
  { unfold to_int, hi. destruct (Z.ltb_spec b0 128).
    - rewrite Z.mod_small by lia. lia.
    - replace (b0 * 2 ^ 24 + 2 ^ 31)
        with ((b0 - 256) * 2 ^ 24 + 2 ^ 31 + 1 * 2 ^ 32) by lia.
      rewrite Z.mod_add by lia. rewrite Z.mod_small by lia. lia. }
  assert (E1 : to_int (b1 * 2 ^ 16) = b1 * 2 ^ 16).
  { unfold to_int. rewrite Z.mod_small by lia. lia. }
  assert (E2 : to_int (b2 * 2 ^ 8) = b2 * 2 ^ 8).
  { unfold to_int. rewrite Z.mod_small by lia. lia. }
  rewrite E0, E1, E2.
  rewrite (lor_disjoint hi 24) by lia.
  replace (hi * 2 ^ 24 + b1 * 2 ^ 16) with ((hi * 2 ^ 8 + b1) * 2 ^ 16) by lia.
  rewrite (lor_disjoint _ 16) by lia.
  replace ((hi * 2 ^ 8 + b1) * 2 ^ 16 + b2 * 2 ^ 8)
    with ((hi * 2 ^ 16 + b1 * 2 ^ 8 + b2) * 2 ^ 8) by lia.
  rewrite (lor_disjoint _ 8) by lia. lia.
Qed.

Lemma be32_bytes (x : Z) :
  0 <= x < 2 ^ 31 ->
  be32 (u8 (Z.shiftr x 24)) (u8 (Z.shiftr x 16)) (u8 (Z.shiftr x 8)) (u8 x) = x.
Proof.
  intros Hx. rewrite be32_value by apply u8_range.
  pose proof (byte_split x ltac:(lia)) as Hs.
  pose proof (u8_range (Z.shiftr x 24)). pose proof (u8_range (Z.shiftr x 16)).
  pose proof (u8_range (Z.shiftr x 8)). pose proof (u8_range x).
  destruct (Z.ltb_spec (u8 (Z.shiftr x 24)) 128); [| lia].
  rewrite <- Hs. unfold to_size_t. apply Z.mod_small. lia.
Qed.

Lemma be32_bytes_high (x : Z) :
  2 ^ 31 <= x < 2 ^ 32 ->
  be32 (u8 (Z.shiftr x 24)) (u8 (Z.shiftr x 16)) (u8 (Z.shiftr x 8)) (u8 x) =
  x + (2 ^ 64 - 2 ^ 32).
Proof.
  intros Hx. rewrite be32_value by apply u8_range.
  pose proof (byte_split x ltac:(lia)) as Hs.
  pose proof (u8_range (Z.shiftr x 24)). pose proof (u8_range (Z.shiftr x 16)).
  pose proof (u8_range (Z.shiftr x 8)). pose proof (u8_range x).
  destruct (Z.ltb_spec (u8 (Z.shiftr x 24)) 128); [lia |].
  unfold to_size_t.
  replace ((u8 (Z.shiftr x 24) - 256) * 2 ^ 24 + u8 (Z.shiftr x 16) * 2 ^ 16 +
           u8 (Z.shiftr x 8) * 2 ^ 8 + u8 x)
    with (x + (2 ^ 64 - 2 ^ 32) + (-1) * 2 ^ 64) by lia.
  rewrite Z.mod_add by lia. apply Z.mod_small. lia.
Qed.

(** X8.  The four address bytes that [capture] puts in a CAPTURE frame are
    bytes.  Put together the way READ_MEM and WRITE_MEM build an address,
    they give back an address below 2^31.  From 2^31 on (a first byte of
    0x80 or more) the [int] in which the bytes are combined is negative,
    and the conversion to [size_t] sets the upper 32 bits of the address. *)
Theorem address_bytes_roundtrip (x : Z) :
  0 <= x < 2 ^ 32 ->
  Forall (fun b => 0 <= b < 256)
    [u8 (Z.shiftr x 24); u8 (Z.shiftr x 16); u8 (Z.shiftr x 8); u8 x] /\
  (x < 2 ^ 31 ->
   be32 (u8 (Z.shiftr x 24)) (u8 (Z.shiftr x 16)) (u8 (Z.shiftr x 8)) (u8 x) = x) /\
  (2 ^ 31 <= x ->
   be32 (u8 (Z.shiftr x 24)) (u8 (Z.shiftr x 16)) (u8 (Z.shiftr x 8)) (u8 x) =
   x + (2 ^ 64 - 2 ^ 32)).
Proof.
  intros Hx. split; [repeat constructor; apply u8_range |].
  split; intros Hx'; [apply be32_bytes | apply be32_bytes_high]; lia.
Qed.

Lemma address_bytes_roundtrip_witness :
  be32 (u8 (Z.shiftr 0x20001234 24)) (u8 (Z.shiftr 0x20001234 16))
       (u8 (Z.shiftr 0x20001234 8)) (u8 0x20001234) = 0x20001234 /\
  be32 (u8 (Z.shiftr 0x80000000 24)) (u8 (Z.shiftr 0x80000000 16))
       (u8 (Z.shiftr 0x80000000 8)) (u8 0x80000000) = 0xFFFFFFFF80000000.
Proof.
  split.
  - destruct (address_bytes_roundtrip 0x20001234) as (_ & H & _); [lia |].
    apply H. lia.
  - destruct (address_bytes_roundtrip 0x80000000) as (_ & _ & H); [lia |].
    apply H. lia.
Defined.

(** ** Reading and writing raw memory *)

Lemma load_cons m a n : load m a (S n) = m a :: load m (a + 1) n.
Proof.
  unfold load. cbn [seq List.map]. rewrite Z.add_0_r. f_equal.
  rewrite <- seq_shift, List.map_map. apply List.map_ext.
  intros i. f_equal. lia.
Qed.

Lemma load_store bs : forall m a, load (store m a bs) a (length bs) = bs.
Proof.
  induction bs as [|b bs IH]; intros m a; [done |].
  cbn [length store]. rewrite load_cons, IH. f_equal.
  rewrite store_outside by lia. by rewrite Z.eqb_refl.
Qed.

Lemma readbuf_get_of (l : list Z) (i : Z) (x : Z) w :
  readbuf (kdb w) = l ->
  (if i <? 32 then l !! Z.to_nat i else None) = Some x -> readbuf_get i w = x.
Proof.
  intros Hl Hi. unfold readbuf_get. destruct (i <? 32); [| done].
  by rewrite Hl, Hi.
Qed.

Lemma doOp_WRITE_MEM a b c d dat rest w :
  wf w -> (5 + length dat <= 32)%nat ->
  rx w = map Some ([2; 5 + Z.of_nat (length dat); a; b; c; d;
                    Z.of_nat (length dat)] ++ dat) ++ rest ->
  exists w1,
    doOp w = Done w1 /\ wf w1 /\
    mem w1 = store (mem w) (be32 a b c d) dat /\
    tx w1 = tx w /\ rx w1 = rest /\ pins w1 = pins w /\
    caps (kdb w1) = caps (kdb w) /\ capsize (kdb w1) = capsize (kdb w) /\
    loops (kdb w1) = loops (kdb w).
Proof.
  intros Hw Hlen Hrx.
  destruct (doOp_recv 2 (5 + Z.of_nat (length dat))
              ([a; b; c; d; Z.of_nat (length dat)] ++ dat) rest w)
    as (w1 & -> & Hw1 & Hrx1 & Htx1 & _ & Hmem1 & Hp1 & _ & Hc1 & Hcs1 & Hl1 & Hrb1);
    [done | simpl; lia | lia | done |].
  set (n := Z.of_nat (length dat)) in *.
  set (w2 := note_frame 2 (5 + n) w1).
  assert (Hrb2 : readbuf (kdb w2) =
            a :: b :: c :: d :: n :: dat ++
            drop (length ([a; b; c; d; n] ++ dat)) (2 :: 5 + n :: drop 2 (readbuf (kdb w))))
    by (cbn [w2 note_frame set_frames kdb]; by rewrite Hrb1).
  unfold execOp. change (op_of_byte 2) with (Some _KDB_WRITE_MEM).
  cbv beta iota zeta.
  rewrite (readbuf_get_of _ 0 a w2 Hrb2 eq_refl),
          (readbuf_get_of _ 1 b w2 Hrb2 eq_refl),
          (readbuf_get_of _ 2 c w2 Hrb2 eq_refl),
          (readbuf_get_of _ 3 d w2 Hrb2 eq_refl),
          (readbuf_get_of _ 4 n w2 Hrb2 eq_refl).
  unfold readbuf_copy_out.
  destruct (Z.leb_spec (5 + n) 32) as [_|]; [| lia].
  eexists. split; [reflexivity |].
  cbn [set_mem mem tx rx pins kdb w2 note_frame set_frames].
  split; [by destruct Hw1 |]. split; [| done].
  rewrite Hmem1, Hrb1. do 2 f_equal.
  change (Z.to_nat 5) with 5%nat. cbn [app drop].
  apply take_app_length'. lia.
Qed.

Lemma doOp_READ_MEM a b c d n rest w :
  wf w -> 0 <= n <= 32 ->
  rx w = map Some [1; 5; a; b; c; d; n] ++ rest ->
  exists w1,
    doOp w = Done w1 /\ wf w1 /\
    tx w1 = tx w ++ encode (mkFrame 10 n (load (mem w) (be32 a b c d) (Z.to_nat n))) /\
    mem w1 = mem w /\ rx w1 = rest /\ pins w1 = pins w /\
    caps (kdb w1) = caps (kdb w) /\ capsize (kdb w1) = capsize (kdb w) /\
    loops (kdb w1) = loops (kdb w).
Proof.
  intros Hw Hn Hrx.
  destruct (doOp_recv 1 5 [a; b; c; d; n] rest w)
    as (w1 & -> & Hw1 & Hrx1 & Htx1 & _ & Hmem1 & Hp1 & _ & Hc1 & Hcs1 & Hl1 & Hrb1);
    [done | done | lia | done |].
  set (w2 := note_frame 1 5 w1).
  assert (Hrb2 : readbuf (kdb w2) =
            a :: b :: c :: d :: n ::
            drop (length [a; b; c; d; n]) (1 :: 5 :: drop 2 (readbuf (kdb w))))
    by (cbn [w2 note_frame set_frames kdb]; by rewrite Hrb1).
  assert (Hw2 : wf w2) by (destruct Hw1; by split).
  unfold execOp. change (op_of_byte 1) with (Some _KDB_READ_MEM).
  cbv beta iota zeta.
  rewrite (readbuf_get_of _ 0 a w2 Hrb2 eq_refl),
          (readbuf_get_of _ 1 b w2 Hrb2 eq_refl),
          (readbuf_get_of _ 2 c w2 Hrb2 eq_refl),
          (readbuf_get_of _ 3 d w2 Hrb2 eq_refl),
          (readbuf_get_of _ 4 n w2 Hrb2 eq_refl).
  unfold readbuf_blit. rewrite length_load, Z2Nat.id by lia.
  destruct (Z.leb_spec (0 + n) 32) as [_|]; [| lia]. cbn [bind].
  change (op_value _KDB_READ_MEM_RES) with 10.
  rewrite sendOp_ok; [| lia |].
  2:{ destruct Hw2 as [Hc2 Hl2].
      split; cbn [set_readbuf set_kdb kdb readbuf caps]; [done |].
      rewrite !length_app, length_take, length_drop, length_load, Hl2. lia. }
  eexists. split; [reflexivity |].
  cbn [set_tx set_readbuf set_kdb kdb readbuf caps capsize loops loops_byte Z.eqb negb tx mem rx pins
       w2 note_frame set_frames].
  destruct Hw1 as [Hcw1 Hlw1].
  split.
  { unfold wf, w2.
    cbn [set_tx set_readbuf set_kdb kdb readbuf caps note_frame set_frames].
    split; [done |].
    rewrite !length_app, length_take, length_drop, length_load, Hlw1. lia. }
  split; [| done].
  rewrite Htx1, Hmem1. f_equal. unfold encode. cbn [f_op f_len f_payload app].
  do 4 f_equal.
  change (take (Z.to_nat 0) (readbuf (kdb w1))) with (@nil Z). cbn [app].
  apply take_app_length'. by rewrite length_load.
Qed.

(** ** Captured variables over the wire *)

Lemma sendOp_loop_keeps n : forall i w w',
  sendOp_loop n i w = Done w' ->
  mem w' = mem w /\ pins w' = pins w /\ rx w' = rx w /\ slept w' = slept w /\
  kdb w' = kdb w /\ frames w' = frames w.
Proof.
  intros i w w' H.
  destruct (sendOp_loop_sends n i w) as (w'' & E & T & K & B & M & P & R & S' & F).
  rewrite E in H. by injection H as <-.
Qed.

Lemma sendOp_keeps o n w w' :
  sendOp o n w = Done w' ->
  mem w' = mem w /\ pins w' = pins w /\ rx w' = rx w /\ slept w' = slept w /\
  kdb w' = kdb w /\ frames w' = frames w.
Proof. unfold sendOp. intros H. by apply sendOp_loop_keeps in H. Qed.

Lemma capture_keeps line x sz w w' :
  capture line x sz w = Done w' ->
  mem w' = mem w /\ pins w' = pins w /\ rx w' = rx w /\ slept w' = slept w.
Proof.
  unfold capture. rewrite put_line_ok. cbn [bind].
  do 6 (rewrite readbuf_set_ok by lia; cbn [bind]).
  unfold caps_set. destruct (_ && _); [cbn [bind] | done].
  destruct (sendOp _ _ _) as [w1| | |] eqn:E; try done. cbn [bind].
  intros H. injection H as <-. apply sendOp_keeps in E.
  cbn [set_capsize set_kdb mem pins rx slept]. tauto.
Qed.

Lemma caps_get_at pos p w :
  0 <= pos < 32 -> caps (kdb w) !! Z.to_nat pos = Some p ->
  caps_get pos w = Some p.
Proof.
  intros Hp Hlk. unfold caps_get.
  destruct (Z.leb_spec 0 pos); [| lia]. by destruct (Z.ltb_spec pos 32); [| lia].
Qed.

Lemma doOp_READ_CAP pos p rest w :
  wf w -> 0 <= pos < 32 -> caps (kdb w) !! Z.to_nat pos = Some p ->
  0 <= size p <= 32 ->
  rx w = map Some [3; 1; pos] ++ rest ->
  exists w1,
    doOp w = Done w1 /\ wf w1 /\
    tx w1 = tx w ++ encode (mkFrame 11 (size p)
                      (load (mem w) (ptr p) (Z.to_nat (size p)))) /\
    mem w1 = mem w /\ rx w1 = rest /\
    caps (kdb w1) = caps (kdb w) /\ capsize (kdb w1) = capsize (kdb w) /\
    loops (kdb w1) = loops (kdb w).
Proof.
  intros Hw Hpos Hlk Hs Hrx.
  destruct (doOp_recv 3 1 [pos] rest w)
    as (w1 & -> & Hw1 & Hrx1 & Htx1 & _ & Hmem1 & _ & _ & Hc1 & Hcs1 & Hl1 & Hrb1);
    [done | done | lia | done |].
  set (w2 := note_frame 3 1 w1).
  assert (Hw2 : wf w2) by (destruct Hw1; by split).
  assert (Hget : caps_get (readbuf_get 0 w2) w2 = Some p).
  { rewrite (readbuf_get_of (readbuf (kdb w1)) 0 pos w2 eq_refl)
      by (by rewrite Hrb1).
    apply caps_get_at; [done |]. cbn [w2 note_frame set_frames kdb]. by rewrite Hc1. }
  change 3 with (op_value _KDB_READ_CAP) at 1.
  rewrite (execOp_READ_CAP w2 p Hw2 Hget Hs).
  eexists. split; [reflexivity |].
  unfold wf. cbn [set_tx set_readbuf set_kdb kdb readbuf caps capsize loops loops_byte Z.eqb negb tx mem rx
                  w2 note_frame set_frames].
  destruct Hw1 as [Hcw1 Hlw1].
  split.
  { split; [done |]. rewrite length_app, length_drop, length_load, Hlw1. lia. }
  by rewrite Htx1, Hmem1.
Qed.

Lemma doOp_WRITE_CAP pos p dat rest w :
  wf w -> 0 <= pos < 32 -> caps (kdb w) !! Z.to_nat pos = Some p ->
  size p = Z.of_nat (length dat) -> size p <= 31 ->
  rx w = map Some ([4; 1 + size p; pos] ++ dat) ++ rest ->
  exists w1,
    doOp w = Done w1 /\ wf w1 /\
    mem w1 = store (mem w) (ptr p) dat /\
    tx w1 = tx w /\ rx w1 = rest /\
    caps (kdb w1) = caps (kdb w) /\ capsize (kdb w1) = capsize (kdb w) /\
    loops (kdb w1) = loops (kdb w).
Proof.
  intros Hw Hpos Hlk Hsz Hs Hrx.
  destruct (doOp_recv 4 (1 + size p) ([pos] ++ dat) rest w)
    as (w1 & -> & Hw1 & Hrx1 & Htx1 & _ & Hmem1 & _ & _ & Hc1 & Hcs1 & Hl1 & Hrb1);
    [done | simpl; lia | lia | done |].
  set (w2 := note_frame 4 (1 + size p) w1).
  assert (Hget : caps_get (readbuf_get 0 w2) w2 = Some p).
  { rewrite (readbuf_get_of (readbuf (kdb w1)) 0 pos w2 eq_refl)
      by (by rewrite Hrb1).
    apply caps_get_at; [done |]. cbn [w2 note_frame set_frames kdb]. by rewrite Hc1. }
  change 4 with (op_value _KDB_WRITE_CAP) at 1.
  rewrite (execOp_WRITE_CAP w2 p Hget Hs).
  eexists. split; [reflexivity |].
  cbn [set_mem mem tx rx kdb w2 note_frame set_frames].
  split; [by destruct Hw1 |]. split; [| done].
  rewrite Hmem1, Hrb1. do 2 f_equal. cbn [app drop].
  apply take_app_length'. lia.
Qed.

(** X10.  A variable registered with [capture] can be read back by its
    slot index: a READ_CAP frame naming the index that [capture] assigned
    is answered with one READ_CAP_RES frame holding the [size] bytes found
    at the registered address (size at most 32). *)
Theorem capture_then_read_cap (line x sz : Z) (rest : list (option Z)) (w : World) :
  wf w -> 0 <= capsize (kdb w) < 32 -> 0 <= sz <= 32 ->
  rx w = map Some [3; 1; capsize (kdb w)] ++ rest ->
  exists w1 w2,
    capture line x sz w = Done w1 /\ doOp w1 = Done w2 /\
    written w1 w2 = encode (mkFrame 11 sz (load (mem w) x (Z.to_nat sz))) /\
    rx w2 = rest.
Proof.
  intros Hw Hn Hsz Hrx.
  destruct (capture_ok line x sz w Hw Hn)
    as (w1 & Hc & Hw1 & Hcaps & _ & _ & _).
  destruct (capture_keeps _ _ _ _ _ Hc) as (Hmem & _ & Hrx1 & _).
  destruct (doOp_READ_CAP (capsize (kdb w)) (mkPtr sz x) rest w1)
    as (w2 & Hd & _ & Htx & _ & Hrx2 & _); [done | done | | done | congruence |].
  { rewrite Hcaps. apply list_lookup_insert_eq. destruct Hw as [-> _]. lia. }
  exists w1, w2. split; [done |]. split; [done |]. split; [| done].
  unfold written. rewrite Htx, drop_app_length. cbn [size ptr]. by rewrite Hmem.
Qed.

Lemma capture_then_read_cap_witness :
  exists w1 w2,
    capture 12 0x100 4 (world_new (map Some [3; 1; 0] ++ [])) = Done w1 /\
    doOp w1 = Done w2 /\
    written w1 w2 = encode (mkFrame 11 4 (load (fun _ => 0) 0x100 (Z.to_nat 4))) /\
    rx w2 = [].
Proof.
  apply (capture_then_read_cap 12 0x100 4 []
           (world_new (map Some [3; 1; 0] ++ [])));
    [split; reflexivity | simpl; lia | lia | reflexivity].
Defined.

(** X11.  The address announced in a CAPTURE frame serves READ_MEM: a
    READ_MEM frame carrying the four address bytes of the CAPTURE frame and
    the size is answered with the [size] bytes of the registered variable
    (address below 2^31, so that the first address byte is below 0x80;
    size at most 32). *)
Theorem capture_then_read_mem (line x sz : Z) (rest : list (option Z)) (w : World) :
  wf w -> 0 <= capsize (kdb w) < 32 -> 0 <= x < 2 ^ 31 -> 0 <= sz <= 32 ->
  rx w = map Some ([1; 5] ++
           take 4 (drop 2 (f_payload
             (capture_frame (capsize (kdb w)) (mkReg line x sz)))) ++ [sz]) ++ rest ->
  exists w1 w2,
    capture line x sz w = Done w1 /\
    written w w1 = encode (capture_frame (capsize (kdb w)) (mkReg line x sz)) /\
    doOp w1 = Done w2 /\
    written w1 w2 = encode (mkFrame 10 sz (load (mem w) x (Z.to_nat sz))) /\
    rx w2 = rest.
Proof.
  intros Hw Hn Hx Hsz Hrx.
  destruct (capture_ok line x sz w Hw Hn)
    as (w1 & Hc & Hw1 & _ & _ & Htx1 & _).
  destruct (capture_keeps _ _ _ _ _ Hc) as (Hmem & _ & Hrx1 & _).
  destruct (doOp_READ_MEM (u8 (Z.shiftr x 24)) (u8 (Z.shiftr x 16))
              (u8 (Z.shiftr x 8)) (u8 x) sz rest w1 Hw1 Hsz)
    as (w2 & Hd & _ & Htx & _ & Hrx2 & _); [by rewrite Hrx1, Hrx |].
  exists w1, w2. split; [done |]. split.
  { unfold written. rewrite Htx1. apply drop_app_length. }
  split; [done |]. split; [| done].
  unfold written. rewrite Htx, drop_app_length, Hmem.
  by rewrite be32_bytes.
Qed.

Lemma capture_then_read_mem_witness :
  exists w1 w2,
    capture 12 0x1234 2
      (world_new (map Some ([1; 5] ++ [0; 0; 0x12; 0x34] ++ [2]) ++ [])) = Done w1 /\
    written (world_new (map Some ([1; 5] ++ [0; 0; 0x12; 0x34] ++ [2]) ++ [])) w1 =
      encode (capture_frame 0 (mkReg 12 0x1234 2)) /\
    doOp w1 = Done w2 /\
    written w1 w2 = encode (mkFrame 10 2 (load (fun _ => 0) 0x1234 (Z.to_nat 2))) /\
    rx w2 = [].
Proof.
  apply (capture_then_read_mem 12 0x1234 2 []
           (world_new (map Some ([1; 5] ++ [0; 0; 0x12; 0x34] ++ [2]) ++ [])));
    [split; reflexivity | simpl; lia | lia | lia | reflexivity].
Defined.

(** X9.  A variable registered with [capture] (address below 2^31; as a
    variable of the sketch it lies apart from the debugger object) can be
    written and read back through the address announced in its CAPTURE
    frame: a WRITE_MEM frame carrying the four address bytes and the data
    is not answered and changes the bytes of the variable only, and a
    READ_MEM frame for the same address and size is then answered with the
    written bytes in one READ_MEM_RES frame. *)
Theorem write_mem_read_mem (line x : Z) (dat : list Z)
    (rest : list (option Z)) (w : World) :
  wf w -> 0 <= capsize (kdb w) < 32 -> 0 <= x < 2 ^ 31 ->
  (5 + length dat <= 32)%nat ->
  let n := Z.of_nat (length dat) in
  let adr := take 4 (drop 2 (f_payload
               (capture_frame (capsize (kdb w)) (mkReg line x n)))) in
  rx w = map Some ([2; 5 + n] ++ adr ++ [n] ++ dat) ++
         map Some ([1; 5] ++ adr ++ [n]) ++ rest ->
  exists w0 w1 w2,
    capture line x n w = Done w0 /\
    written w w0 = encode (capture_frame (capsize (kdb w)) (mkReg line x n)) /\
    doOp w0 = Done w1 /\ tx w1 = tx w0 /\
    (forall a, a < x \/ x + n <= a -> mem w1 a = mem w a) /\
    doOp w1 = Done w2 /\
    written w1 w2 = encode (mkFrame 10 n dat) /\
    rx w2 = rest.
Proof.
  intros Hw Hn Hx Hlen n adr Hrx.
  destruct (capture_ok line x n w Hw Hn)
    as (w0 & Hc & Hw0 & _ & _ & Htx0 & _).
  destruct (capture_keeps _ _ _ _ _ Hc) as (Hmem0 & _ & Hrx0 & _).
  destruct (doOp_WRITE_MEM (u8 (Z.shiftr x 24)) (u8 (Z.shiftr x 16))
              (u8 (Z.shiftr x 8)) (u8 x) dat
              (map Some ([1; 5] ++ adr ++ [n]) ++ rest) w0 Hw0 Hlen)
    as (w1 & Hd1 & Hw1 & Hmem1 & Htx1 & Hrx1 & _); [by rewrite Hrx0, Hrx |].
  destruct (doOp_READ_MEM (u8 (Z.shiftr x 24)) (u8 (Z.shiftr x 16))
              (u8 (Z.shiftr x 8)) (u8 x) n rest w1 Hw1)
    as (w2 & Hd2 & _ & Htx2 & _ & Hrx2 & _); [lia | done |].
  rewrite be32_bytes in Hmem1, Htx2 by done.
  exists w0, w1, w2. split; [done |]. split.
  { unfold written. rewrite Htx0. apply drop_app_length. }
  split; [done |]. split; [done |]. split.
  - intros a Ha. rewrite Hmem1, Hmem0. by apply store_outside.
  - split; [done |]. split; [| done].
    unfold written. rewrite Htx2, drop_app_length, Hmem1. unfold n.
    by rewrite Nat2Z.id, load_store.
Qed.

Lemma write_mem_read_mem_witness :
  exists w0 w1 w2,
    capture 12 0x1234 2
      (world_new (map Some ([2; 5 + 2] ++ [0; 0; 0x12; 0x34] ++ [2] ++ [7; 9]) ++
                  map Some ([1; 5] ++ [0; 0; 0x12; 0x34] ++ [2]) ++ [])) = Done w0 /\
    written
      (world_new (map Some ([2; 5 + 2] ++ [0; 0; 0x12; 0x34] ++ [2] ++ [7; 9]) ++
                  map Some ([1; 5] ++ [0; 0; 0x12; 0x34] ++ [2]) ++ [])) w0 =
      encode (capture_frame 0 (mkReg 12 0x1234 2)) /\
    doOp w0 = Done w1 /\ tx w1 = tx w0 /\
    (forall a, a < 0x1234 \/ 0x1234 + 2 <= a -> mem w1 a = 0) /\
    doOp w1 = Done w2 /\
    written w1 w2 = encode (mkFrame 10 2 [7; 9]) /\
    rx w2 = [].
Proof.
  apply (write_mem_read_mem 12 0x1234 [7; 9] []
           (world_new (map Some ([2; 5 + 2] ++ [0; 0; 0x12; 0x34] ++ [2] ++ [7; 9]) ++
                       map Some ([1; 5] ++ [0; 0; 0x12; 0x34] ++ [2]) ++ [])));
    [split; reflexivity | simpl; lia | lia | simpl; lia | reflexivity].
Defined.

(** X12.  WRITE_CAP followed by READ_CAP of the same slot gives the written
    bytes back, when the frame carries exactly [size] data bytes (size at
    most 31).  The WRITE_CAP frame is not answered. *)
Theorem write_cap_read_cap (pos : Z) (p : _KDB_PtrWithSize) (dat : list Z)
    (rest : list (option Z)) (w : World) :
  wf w -> 0 <= pos < 32 -> caps (kdb w) !! Z.to_nat pos = Some p ->
  size p = Z.of_nat (length dat) -> size p <= 31 ->
  rx w = map Some ([4; 1 + size p; pos] ++ dat) ++
         map Some [3; 1; pos] ++ rest ->
  exists w1 w2,
    doOp w = Done w1 /\ tx w1 = tx w /\
    (forall x, x < ptr p \/ ptr p + size p <= x -> mem w1 x = mem w x) /\
    doOp w1 = Done w2 /\
    written w1 w2 = encode (mkFrame 11 (size p) dat) /\
    rx w2 = rest.
Proof.
  intros Hw Hpos Hlk Hsz Hs Hrx.
  destruct (doOp_WRITE_CAP pos p dat _ w Hw Hpos Hlk Hsz Hs Hrx)
    as (w1 & Hd1 & Hw1 & Hmem1 & Htx1 & Hrx1 & Hc1 & _).
  destruct (doOp_READ_CAP pos p rest w1)
    as (w2 & Hd2 & _ & Htx2 & _ & Hrx2 & _);
    [done | done | by rewrite Hc1 | lia | done |].
  exists w1, w2. split; [done |]. split; [done |]. split.
  - intros x Hx. rewrite Hmem1. apply store_outside. lia.
  - split; [done |]. split; [| done].
    unfold written. rewrite Htx2, drop_app_length, Hmem1, Hsz, Nat2Z.id.
    by rewrite load_store.
Qed.

Lemma write_cap_read_cap_witness :
  exists w1 w2,
    doOp (set_caps (mkPtr 2 0x100 :: replicate 31 (mkPtr 0 0))
            (world_new (map Some ([4; 1 + 2; 0] ++ [7; 9]) ++
                        map Some [3; 1; 0] ++ []))) = Done w1 /\
    tx w1 = [] /\
    (forall x, x < 0x100 \/ 0x100 + 2 <= x -> mem w1 x = 0) /\
    doOp w1 = Done w2 /\
    written w1 w2 = encode (mkFrame 11 2 [7; 9]) /\
    rx w2 = [].
Proof.
  apply (write_cap_read_cap 0 (mkPtr 2 0x100) [7; 9] []
           (set_caps (mkPtr 2 0x100 :: replicate 31 (mkPtr 0 0))
              (world_new (map Some ([4; 1 + 2; 0] ++ [7; 9]) ++
                          map Some [3; 1; 0] ++ []))));
    [split; reflexivity | lia | reflexivity | reflexivity | simpl; lia | reflexivity].
Defined.

(** ** Pins *)

Lemma doOp_WRITE_PIN pin v rest w :
  wf w -> rx w = map Some [6; 2; pin; v] ++ rest ->
  exists w1,
    doOp w = Done w1 /\ wf w1 /\ tx w1 = tx w /\ rx w1 = rest /\
    mem w1 = mem w /\
    pins w1 = (fun p => if p =? pin then (if v =? 0 then 0 else 1) else pins w p).
Proof.
  intros Hw Hrx.
  destruct (doOp_recv 6 2 [pin; v] rest w)
    as (w1 & -> & Hw1 & Hrx1 & Htx1 & _ & Hmem1 & Hp1 & _ & _ & _ & _ & Hrb1);
    [done | done | lia | done |].
  set (w2 := note_frame 6 2 w1).
  unfold execOp. change (op_of_byte 6) with (Some _KDB_WRITE_PIN).
  cbv beta iota zeta.
  rewrite (readbuf_get_of (readbuf (kdb w1)) 0 pin w2 eq_refl) by (by rewrite Hrb1).
  rewrite (readbuf_get_of (readbuf (kdb w1)) 1 v w2 eq_refl) by (by rewrite Hrb1).
  eexists. split; [reflexivity |].
  unfold digitalWrite.
  cbn [set_pins pins mem tx rx kdb w2 note_frame set_frames].
  split; [by destruct Hw1 |]. by rewrite Hp1.
Qed.

Lemma doOp_READ_PIN pin rest w :
  wf w -> rx w = map Some [5; 1; pin] ++ rest ->
  exists w1,
    doOp w = Done w1 /\ wf w1 /\
    tx w1 = tx w ++ encode (mkFrame 12 1 [u8 (pins w pin)]) /\
    rx w1 = rest /\ pins w1 = pins w /\ mem w1 = mem w.
Proof.
  intros Hw Hrx.
  destruct (doOp_recv 5 1 [pin] rest w)
    as (w1 & -> & Hw1 & Hrx1 & Htx1 & _ & Hmem1 & Hp1 & _ & _ & _ & _ & Hrb1);
    [done | done | lia | done |].
  set (w2 := note_frame 5 1 w1).
  assert (Hw2 : wf w2) by (destruct Hw1; by split).
  unfold execOp. change (op_of_byte 5) with (Some _KDB_READ_PIN).
  cbv beta iota zeta.
  rewrite (readbuf_get_of (readbuf (kdb w1)) 0 pin w2 eq_refl) by (by rewrite Hrb1).
  rewrite readbuf_set_ok by lia. cbn [bind].
  change (op_value _KDB_READ_PIN_RES) with 12.
  rewrite sendOp_ok; [| lia |].
  2:{ destruct Hw2 as [Hc2 Hl2].
      split; cbn [set_readbuf set_kdb kdb readbuf caps]; [done |].
      by rewrite length_insert. }
  eexists. split; [reflexivity |].
  unfold wf, digitalRead.
  cbn [set_tx set_readbuf set_kdb kdb readbuf caps tx mem rx pins
       w2 note_frame set_frames].
  destruct Hw1 as [Hcw1 Hlw1].
  split; [split; [done | by rewrite length_insert] |].
  split; [| done].
  rewrite Htx1, Hp1. f_equal. unfold encode. cbn [f_op f_len f_payload app].
  do 4 f_equal.
  destruct (readbuf (kdb w1)) as [|? ?]; [simpl in Hlw1; lia | reflexivity].
Qed.

(** X13.  WRITE_PIN is not answered and changes the addressed pin only;
    READ_PIN is answered with a READ_PIN_RES frame of exactly one byte.
    With pins that read back what was written, READ_PIN after WRITE_PIN of
    the same pin answers 0 for the value 0 and 1 for any other value. *)
Theorem write_pin_read_pin (pin v : Z) (rest : list (option Z)) (w : World) :
  wf w ->
  rx w = map Some [6; 2; pin; v] ++ map Some [5; 1; pin] ++ rest ->
  exists w1 w2,
    doOp w = Done w1 /\ tx w1 = tx w /\
    (forall p, p <> pin -> pins w1 p = pins w p) /\
    doOp w1 = Done w2 /\
    written w1 w2 = encode (mkFrame 12 1 [if v =? 0 then 0 else 1]) /\
    rx w2 = rest.
Proof.
  intros Hw Hrx.
  destruct (doOp_WRITE_PIN pin v _ w Hw Hrx)
    as (w1 & Hd1 & Hw1 & Htx1 & Hrx1 & _ & Hp1).
  destruct (doOp_READ_PIN pin rest w1 Hw1 Hrx1)
    as (w2 & Hd2 & _ & Htx2 & Hrx2 & _).
  exists w1, w2. split; [done |]. split; [done |]. split.
  - intros p Hp. rewrite Hp1. by destruct (Z.eqb_spec p pin).
  - split; [done |]. split; [| done].
    unfold written. rewrite Htx2, drop_app_length, Hp1, Z.eqb_refl.
    by destruct (v =? 0).
Qed.

Lemma write_pin_read_pin_witness :
  exists w1 w2,
    doOp (world_new (map Some [6; 2; 13; 1] ++ map Some [5; 1; 13] ++ [])) = Done w1 /\
    tx w1 = [] /\
    (forall p, p <> 13 -> pins w1 p = 0) /\
    doOp w1 = Done w2 /\
    written w1 w2 = encode (mkFrame 12 1 [1]) /\
    rx w2 = [].
Proof.
  apply (write_pin_read_pin 13 1 []
           (world_new (map Some [6; 2; 13; 1] ++ map Some [5; 1; 13] ++ []))).
  - split; reflexivity.
  - reflexivity.
Defined.

(** ** One frame after the other *)

Lemma readOp_loop_return_now fuel maxloop w rest :
  wf w -> loops (kdb w) = true ->
  rx w = Some 0xA0 :: Some 0x1E :: Some 0 :: Some 0 :: rest ->
  budget_allows 2 maxloop = true ->
  readOp_loop (S (S (S fuel))) maxloop 0 w = Done (returned rest w).
Proof. intros Hw Hl Hrx Hb. by apply (readOp_loop_return 0). Qed.

(** X14.  A frame whose opcode the [switch] does not know is read to its
    end, payload included, and has no effect; its payload is not searched
    for sync bytes.  The frame after it is then served: here a RETURN frame
    ends the wait.  Nothing is written and memory, pins and the capture
    table are as before. *)
Theorem ignored_frame_then_return (opType : Z) (payload : list Z) (maxloop : Z)
    (rest : list (option Z)) (w : World) :
  wf w -> loops (kdb w) = true -> budget_allows 4 maxloop = true ->
  opType < 0 \/ 7 <= opType -> (length payload <= 32)%nat ->
  rx w = map Some (encode (mkFrame opType (Z.of_nat (length payload)) payload)) ++
         map Some (encode (mkFrame 0 0 [])) ++ rest ->
  exists w',
    readOp maxloop w = Done w' /\
    loops (kdb w') = false /\ tx w' = tx w /\ rx w' = rest /\
    frames w' = frames w ++
      [mkFrame opType (Z.of_nat (length payload)) payload; mkFrame 0 0 []] /\
    mem w' = mem w /\ pins w' = pins w /\
    caps (kdb w') = caps (kdb w) /\ capsize (kdb w') = capsize (kdb w).
Proof.
  intros Hw Hl Hb Hop Hlen Hrx.
  change 4%nat with (2 + 2)%nat in Hb. rewrite budget_allows_add in Hb.
  apply andb_prop in Hb as [Hb Hb'].
  apply budget_allows_2 in Hb as [Hb1 Hb2].
  unfold encode in Hrx. cbn [f_op f_len f_payload app map] in Hrx.
  unfold readOp. rewrite Hrx. cbn [length].
  rewrite (readOp_loop_A0 _ _ _ _ _ Hl Hb1 Hrx).
  rewrite (readOp_loop_1E _ _ (set_rx _ w) _ Hl Hb2 eq_refl).
  edestruct (doOp_recv opType (Z.of_nat (length payload)) payload)
    as (w1 & -> & Hw1 & Hrx1 & Htx1 & Hfr1 & Hmem1 & Hp1 & _ & Hc1 & Hcs1 & Hl1 & Hrb1);
    [| done | lia | | ]; [| simpl; reflexivity |]; [done |].
  rewrite execOp_ignored by done. cbn [bind].
  assert (Hpay : take (Z.to_nat (Z.of_nat (length payload))) (readbuf (kdb w1)) = payload).
  { rewrite Hrb1. apply take_app_length'. lia. }
  rewrite (readOp_loop_return_now _ _ _ rest);
    [| destruct Hw1; by split
     | cbn [note_frame set_frames kdb]; by rewrite Hl1
     | by cbn [note_frame set_frames rx]; rewrite Hrx1 | done].
  eexists. split; [reflexivity |].
  cbn [returned set_loops set_loops_byte note_frame set_frames set_readbuf set_rx set_kdb
       kdb loops loops_byte Z.eqb negb tx rx frames mem pins caps capsize].
  rewrite Hpay, Hfr1, <- app_assoc. done.
Qed.

Lemma ignored_frame_then_return_witness :
  exists w',
    readOp 255 (set_loops true (world_new
      (map Some (encode (mkFrame 99 (Z.of_nat (length [0xA0; 0x1E; 0; 0]))
                           [0xA0; 0x1E; 0; 0])) ++
       map Some (encode (mkFrame 0 0 [])) ++ [Some 1]))) = Done w' /\
    loops (kdb w') = false /\ tx w' = [] /\ rx w' = [Some 1] /\
    frames w' = [] ++ [mkFrame 99 4 [0xA0; 0x1E; 0; 0]; mkFrame 0 0 []] /\
    mem w' = (fun _ => 0) /\ pins w' = (fun _ => 0) /\
    caps (kdb w') = replicate 32 (mkPtr 0 0) /\ capsize (kdb w') = 0.
Proof.
  apply (ignored_frame_then_return 99 [0xA0; 0x1E; 0; 0] 255 [Some 1]
           (set_loops true (world_new
              (map Some (encode (mkFrame 99 (Z.of_nat (length [0xA0; 0x1E; 0; 0]))
                                   [0xA0; 0x1E; 0; 0])) ++
               map Some (encode (mkFrame 0 0 [])) ++ [Some 1]))));
    [split; reflexivity | reflexivity | reflexivity | lia | simpl; lia | reflexivity].
Defined.

(** ** A new session *)




(** ** Text output and the rest of the state *)

Lemma print_kind_keeps kind line str w w' :
  wf w -> print_kind kind line str w = Done w' -> only_sent w w'.
Proof.
  intros [Hc Hl]. unfold print_kind.
  set (n := if u8 (Z.of_nat (strlen str)) >? 29 then 29
            else u8 (Z.of_nat (strlen str))).
  assert (Hn : 0 <= n <= 29).
  { unfold n. pose proof (u8_range (Z.of_nat (strlen str))).
    rewrite Z.gtb_ltb. destruct (Z.ltb_spec 29 (u8 (Z.of_nat (strlen str)))); lia. }
  rewrite put_line_ok. cbn [bind]. rewrite readbuf_set_ok by lia. cbn [bind].
  unfold readbuf_blit.
  set (text := take (Z.to_nat n) (str_bytes str)).
  assert (Ht : Z.of_nat (length text) <= 29)
    by (unfold text; rewrite length_take; lia).
  destruct (Z.leb_spec (3 + Z.of_nat (length text)) 32) as [_|]; [| lia].
  cbn [bind].
  rewrite sendOp_ok.
  - intros H. injection H as <-. by repeat split.
  - unfold u8. rewrite Z.mod_small; lia.
  - split; cbn [set_readbuf set_kdb kdb readbuf caps]; [done |].
    rewrite !length_app, length_take, length_drop, !length_insert. lia.
Qed.

(** X16.  [print] and [println] never wait: whatever the text and whatever
    the port holds, they return without reading from the port and leave
    memory, pins, the capture table, its count and [loops] as they were.
    A text of at most 29 bytes is sent whole. *)
Theorem print_returns_at_once (line : Z) (str : string) (w : World) :
  wf w ->
  (exists w', print line str w = Done w' /\ only_sent w w') /\
  (exists w', println line str w = Done w' /\ only_sent w w') /\
  ((strlen str <= 29)%nat ->
   exists w', print line str w = Done w' /\
     written w w' =
       [0xA0; 0x1E; 13; Z.of_nat (strlen str) + 3;
        u8 (Z.shiftr line 8); u8 line; 0] ++
       take (strlen str) (str_bytes str)).
Proof.
  intros Hw.
  destruct (print_kind_ok 0 line str w Hw) as (_ & w0 & Hp0 & _ & Htx0).
  destruct (print_kind_ok 1 line str w Hw) as (_ & w1 & Hp1 & _ & _).
  split; [| split].
  - exists w0. split; [done |]. by apply (print_kind_keeps _ _ _ _ _ Hw) in Hp0.
  - exists w1. split; [done |]. by apply (print_kind_keeps _ _ _ _ _ Hw) in Hp1.
  - intros Hs. exists w0. split; [done |].
    unfold written. rewrite Htx0, drop_app_length.
    assert (Hn : Z.min (u8 (Z.of_nat (strlen str))) 29 = Z.of_nat (strlen str)).
    { unfold u8. rewrite Z.mod_small by lia. lia. }
    rewrite Hn, Nat2Z.id. reflexivity.
Qed.

Lemma print_returns_at_once_witness :
  exists w', print 300 "ok" (world_new [Some 0xA0; Some 0x1E]) = Done w' /\
    only_sent (world_new [Some 0xA0; Some 0x1E]) w'.
Proof.
  destruct (print_returns_at_once 300 "ok" (world_new [Some 0xA0; Some 0x1E]))
    as [H _]; [split; reflexivity | exact H].
Defined.

(** X20.  For a text shorter than 256 bytes, [print] and [println] emit
    one PRINT frame: the line number high byte first, the kind byte (0 for
    [print], 1 for [println]), then the text cut to its first 29 bytes, so
    that the payload has at most 32 bytes.  For a line number below 65536
    the two bytes are its big-endian form. *)
Theorem print_frame_below_256 (line : Z) (str : string) (w : World) :
  wf w -> (strlen str < 256)%nat ->
  let text := take (Nat.min (strlen str) 29) (str_bytes str) in
  (exists w', print line str w = Done w' /\
     written w w' = encode (mkFrame (op_value _KDB_PRINT)
                              (Z.of_nat (length text) + 3)
                              ([u8 (Z.shiftr line 8); u8 line; 0] ++ text))) /\
  (exists w', println line str w = Done w' /\
     written w w' = encode (mkFrame (op_value _KDB_PRINT)
                              (Z.of_nat (length text) + 3)
                              ([u8 (Z.shiftr line 8); u8 line; 1] ++ text))) /\
  length text = Nat.min (strlen str) 29 /\
  (0 <= line < 65536 -> 256 * u8 (Z.shiftr line 8) + u8 line = line).
Proof.
  intros Hw Hs text.
  destruct (print_kind_ok 0 line str w Hw) as (Hlen & w0 & Hp0 & _ & Htx0).
  destruct (print_kind_ok 1 line str w Hw) as (_ & w1 & Hp1 & _ & Htx1).
  assert (Hn : Z.min (u8 (Z.of_nat (strlen str))) 29 =
               Z.of_nat (Nat.min (strlen str) 29)).
  { unfold u8. rewrite Z.mod_small by lia. lia. }
  rewrite Hn, Nat2Z.id in Hlen, Htx0, Htx1. fold text in Hlen, Htx0, Htx1.
  split; [| split; [| split; [| apply line_big_endian]]].
  - exists w0. split; [done |]. unfold written.
    rewrite Htx0, Hlen. apply drop_app_length.
  - exists w1. split; [done |]. unfold written.
    rewrite Htx1, Hlen. apply drop_app_length.
  - lia.
Qed.

Lemma print_frame_below_256_witness :
  exists w', print 300 "hi" (world_new []) = Done w' /\
    written (world_new []) w' = [0xA0; 0x1E; 13; 5; 1; 44; 0; 104; 105].
Proof.
  destruct (print_frame_below_256 300 "hi" (world_new [])) as [H _];
    [split; reflexivity | simpl; lia | exact H].
Defined.

(** ** Bytes that start no frame *)

Lemma only_rx_set_rx r w : only_rx w (set_rx r w).
Proof. by repeat split. Qed.

Lemma readOp_loop_untouched fuel : forall maxloop isOp w,
  (length (rx w) < fuel)%nat ->
  (isOp = 1 -> forall k2 k3, rx_bytes (rx w) <> k2 ++ 0x1E :: k3) ->
  (forall k1 k2 k3, rx_bytes (rx w) <> k1 ++ 0xA0 :: k2 ++ 0x1E :: k3) ->
  reaches (only_rx w) (readOp_loop fuel maxloop isOp w).
Proof.
  induction fuel as [|fuel IH]; intros maxloop isOp w Hf H1 H2; [lia |].
  cbn [readOp_loop]. destruct (loops (kdb w)); [| by repeat split].
  destruct (budget_spent maxloop); [by repeat split |].
  destruct (rx w) as [|[res|] r] eqn:Hrx; [by repeat split | |]; simpl in Hf.
  - change (rx_bytes (Some res :: r)) with (res :: rx_bytes r) in H1, H2.
    assert (H2' : forall k1 k2 k3, rx_bytes r <> k1 ++ 160 :: k2 ++ 30 :: k3).
    { intros k1 k2 k3 E. apply (H2 (res :: k1) k2 k3). by rewrite E. }
    destruct (Z.eqb_spec res 160) as [->|Hne].
    + apply (IH _ 1 (set_rx r w)); [simpl; lia | | done].
      intros _ k2 k3 E. cbn [rx set_rx] in E. apply (H2 [] k2 k3). by rewrite E.
    + destruct (Z.eqb_spec res 30) as [->|Hne'].
      * destruct (Z.eqb_spec isOp 1) as [->|Hop].
        { by destruct (H1 eq_refl [] (rx_bytes r)). }
        apply (IH _ isOp (set_rx r w)); [simpl; lia | done | done].
      * apply (IH _ isOp (set_rx r w)); [simpl; lia | | done].
        intros Hop k2 k3 E. cbn [rx set_rx] in E.
        apply (H1 Hop (res :: k2) k3). by rewrite E.
  - apply (IH _ isOp (set_rx r w)); [simpl; lia | done | done].
Qed.

(** X17.  [readOp] leaves everything but the port alone as long as no byte
    0x1E comes after a byte 0xA0 in what the port delivers: nothing is
    dispatched, nothing written, and the object, memory and pins are as
    before, whether [readOp] returns or still polls. *)
Theorem readOp_without_sync (maxloop : Z) (w : World) :
  (forall k1 k2 k3, rx_bytes (rx w) <> k1 ++ 0xA0 :: k2 ++ 0x1E :: k3) ->
  reaches (only_rx w) (readOp maxloop w).
Proof.
  intros H. unfold readOp. apply readOp_loop_untouched; [lia | done | done].
Qed.

Lemma readOp_without_sync_witness :
  reaches (only_rx (set_loops true (world_new [Some 0x1E; None; Some 7])))
          (readOp 255 (set_loops true (world_new [Some 0x1E; None; Some 7]))).
Proof.
  apply (readOp_without_sync 255 (set_loops true (world_new [Some 0x1E; None; Some 7]))).
  intros k1 k2 k3 E. change (rx_bytes _) with [0x1E; 7] in E.
  destruct k1 as [|a [|b k1]]; simpl in E; try congruence.
  destruct k1; simpl in E; congruence.
Defined.

(** ** A whole debugging session *)

Lemma readOp_loop_fuel f1 : forall f2 maxloop isOp w,
  (length (rx w) < f1)%nat -> (length (rx w) < f2)%nat ->
  readOp_loop f1 maxloop isOp w = readOp_loop f2 maxloop isOp w.
Proof.
  induction f1 as [|f1 IH]; intros f2 maxloop isOp w H1 H2; [lia |].
  destruct f2 as [|f2]; [lia |].
  cbn [readOp_loop]. destruct (loops (kdb w)); [| done].
  destruct (budget_spent maxloop); [done |].
  destruct (rx w) as [|[res|] r] eqn:Hrx; [done | |]; simpl in H1, H2.
  - destruct (res =? 160); [apply IH; simpl; lia |].
    destruct (res =? 30); [| apply IH; simpl; lia].
    destruct (isOp =? 1); [| apply IH; simpl; lia].
    pose proof (steps_doOp (set_rx r w)) as Hs.
    destruct (doOp (set_rx r w)) as [w1| | |]; try done. cbn [bind].
    apply st_rx, suffix_length in Hs. simpl in Hs. apply IH; lia.
  - apply IH; simpl; lia.
Qed.

(** With a sync sequence at the head of the port and no time limit,
    [readOp] serves the frame and waits on. *)
Lemma readOp_serve w r :
  loops (kdb w) = true -> rx w = Some 0xA0 :: Some 0x1E :: r ->
  readOp 255 w = bind (doOp (set_rx r w)) (readOp 255).
Proof.
  intros Hl Hrx. unfold readOp at 1. rewrite Hrx. cbn [length].
  rewrite (readOp_loop_A0 _ 255 _ _ _ Hl eq_refl Hrx).
  change (next_budget 255) with 255.
  rewrite (readOp_loop_1E _ 255 (set_rx _ w) _ Hl eq_refl eq_refl).
  change (next_budget 255) with 255.
  change (set_rx r (set_rx (Some 30 :: r) w)) with (set_rx r w).
  pose proof (steps_doOp (set_rx r w)) as Hs.
  destruct (doOp (set_rx r w)) as [w1| | |]; try done. cbn [bind].
  apply st_rx, suffix_length in Hs. simpl in Hs.
  unfold readOp. apply readOp_loop_fuel; lia.
Qed.

Lemma readOp_return w rest :
  wf w -> loops (kdb w) = true ->
  rx w = Some 0xA0 :: Some 0x1E :: Some 0 :: Some 0 :: rest ->
  readOp 255 w = Done (returned rest w).
Proof.
  intros Hw Hl Hrx. unfold readOp. rewrite Hrx. cbn [length].
  by apply readOp_loop_return_now.
Qed.

(** X18.  A session from registration to RETURN.  A variable of [sz] bytes
    (at most 31) is registered with [capture]; [debugger] then announces
    the breakpoint and serves the host: READ_CAP of the new slot is
    answered with the variable's bytes, WRITE_CAP of [sz] new bytes is not
    answered, a second READ_CAP is answered with the new bytes, and RETURN
    ends the wait.  The variable then holds the new bytes. *)
Theorem debug_session (line l x sz : Z) (dat : list Z)
    (rest : list (option Z)) (w : World) :
  wf w -> 0 <= capsize (kdb w) < 32 -> sz = Z.of_nat (length dat) -> sz <= 31 ->
  rx w = map Some (encode (mkFrame 3 1 [capsize (kdb w)])) ++
         map Some (encode (mkFrame 4 (1 + sz) ([capsize (kdb w)] ++ dat))) ++
         map Some (encode (mkFrame 3 1 [capsize (kdb w)])) ++
         map Some (encode (mkFrame 0 0 [])) ++ rest ->
  exists w1 w2,
    capture l x sz w = Done w1 /\ debugger line w1 = Done w2 /\
    written w1 w2 =
      encode (line_frame _KDB_DEBUGGER line) ++
      encode (mkFrame 11 sz (load (mem w) x (Z.to_nat sz))) ++
      encode (mkFrame 11 sz dat) /\
    mem w2 = store (mem w) x dat /\
    loops (kdb w2) = false /\ rx w2 = rest.
Proof.
  intros Hw Hn Hsz Hs Hrx.
  set (i := capsize (kdb w)) in *.
  destruct (capture_ok l x sz w Hw Hn)
    as (w1 & Hc & Hw1 & Hcaps & _ & _ & _).
  destruct (capture_keeps _ _ _ _ _ Hc) as (Hmem1 & _ & Hrx1 & _).
  assert (Hslot : caps (kdb w1) !! Z.to_nat i = Some (mkPtr sz x)).
  { rewrite Hcaps. apply list_lookup_insert_eq. destruct Hw as [-> _]. lia. }
  exists w1. unfold debugger. rewrite put_line_ok. cbn [bind].
  rewrite (sendOp_line _KDB_DEBUGGER) by done. cbn [bind].
  set (w0 := set_loops true (announced _KDB_DEBUGGER line w1)).
  assert (Hw0 : wf w0).
  { destruct (wf_announced _KDB_DEBUGGER line w1 Hw1). by split. }
  unfold encode in Hrx. cbn [f_op f_len f_payload app map] in Hrx.
  rewrite <- Hrx1 in Hrx. change (rx w1) with (rx w0) in Hrx.
  (* READ_CAP *)
  rewrite (readOp_serve w0 _ eq_refl Hrx).
  match goal with |- context [doOp ?wx] =>
    destruct (doOp_READ_CAP i (mkPtr sz x)
                (Some 160 :: Some 30 :: Some 4 :: Some (1 + sz) :: Some i ::
                 map Some dat ++
                 Some 160 :: Some 30 :: Some 3 :: Some 1 :: Some i ::
                 Some 160 :: Some 30 :: Some 0 :: Some 0 :: rest) wx)
      as (wa & -> & Hwa & Htxa & Hmema & Hrxa & Hca & _ & Hla)
  end; [destruct Hw0; by split | done | done | cbn [size]; lia | done |].
  cbn [bind]. cbn [size ptr set_rx kdb tx mem] in Htxa, Hmema, Hca, Hla.
  (* WRITE_CAP *)
  rewrite (readOp_serve wa _ Hla Hrxa).
  match goal with |- context [doOp ?wx] =>
    destruct (doOp_WRITE_CAP i (mkPtr sz x) dat
                (Some 160 :: Some 30 :: Some 3 :: Some 1 :: Some i ::
                 Some 160 :: Some 30 :: Some 0 :: Some 0 :: rest) wx)
      as (wb & -> & Hwb & Hmemb & Htxb & Hrxb & Hcb & _ & Hlb)
  end; [destruct Hwa; by split | done | cbn [set_rx kdb]; by rewrite Hca
       | done | done | done |].
  cbn [bind]. cbn [size ptr set_rx kdb tx mem] in Htxb, Hmemb, Hcb, Hlb.
  (* READ_CAP *)
  rewrite (readOp_serve wb _ (eq_trans Hlb Hla) Hrxb).
  match goal with |- context [doOp ?wx] =>
    destruct (doOp_READ_CAP i (mkPtr sz x)
                (Some 160 :: Some 30 :: Some 0 :: Some 0 :: rest) wx)
      as (wc & -> & Hwc & Htxc & Hmemc & Hrxc & Hcc & _ & Hlc)
  end; [destruct Hwb; by split | done | cbn [set_rx kdb]; by rewrite Hcb, Hca
       | cbn [size]; lia | done |].
  cbn [bind]. cbn [size ptr set_rx kdb tx mem] in Htxc, Hmemc, Hcc, Hlc.
  (* RETURN *)
  rewrite (readOp_return wc rest Hwc (eq_trans Hlc (eq_trans Hlb Hla)) Hrxc).
  eexists. split; [done |]. split; [reflexivity |].
  cbn [returned set_loops set_loops_byte note_frame set_frames set_readbuf set_rx set_kdb
       kdb loops loops_byte Z.eqb negb tx rx mem].
  split; [| split; [| done]].
  - unfold written. change (tx (returned rest wc)) with (tx wc).
    rewrite Htxc, Htxb, Htxa.
    cbn [set_rx set_loops set_loops_byte set_kdb w0 announced set_tx tx mem].
    rewrite <- !app_assoc, drop_app_length.
    rewrite Hmemb, Hmema.
    cbn [set_rx set_loops set_loops_byte set_kdb w0 announced set_tx mem set_readbuf].
    by rewrite Hmem1, Hsz, Nat2Z.id, load_store.
  - change (mem (returned rest wc)) with (mem wc).
    rewrite Hmemc, Hmemb, Hmema.
    cbn [set_rx set_loops set_loops_byte set_kdb w0 announced set_tx mem set_readbuf].
    by rewrite Hmem1.
Qed.

Lemma debug_session_witness :
  exists w1 w2,
    capture 10 0x100 2
      (world_new (map Some (encode (mkFrame 3 1 [0])) ++
                  map Some (encode (mkFrame 4 (1 + 2) ([0] ++ [7; 9]))) ++
                  map Some (encode (mkFrame 3 1 [0])) ++
                  map Some (encode (mkFrame 0 0 [])) ++ [])) = Done w1 /\
    debugger 20 w1 = Done w2 /\
    written w1 w2 =
      encode (line_frame _KDB_DEBUGGER 20) ++
      encode (mkFrame 11 2 (load (fun _ => 0) 0x100 (Z.to_nat 2))) ++
      encode (mkFrame 11 2 [7; 9]) /\
    mem w2 = store (fun _ => 0) 0x100 [7; 9] /\
    loops (kdb w2) = false /\ rx w2 = [].
Proof.
  apply (debug_session 20 10 0x100 2 [7; 9] []
           (world_new (map Some (encode (mkFrame 3 1 [0])) ++
                       map Some (encode (mkFrame 4 (1 + 2) ([0] ++ [7; 9]))) ++
                       map Some (encode (mkFrame 3 1 [0])) ++
                       map Some (encode (mkFrame 0 0 [])) ++ [])));
    [split; reflexivity | simpl; lia | reflexivity | lia | reflexivity].
Defined.

(** ** Where a frame starts *)

Lemma readOp_loop_hunt j : forall fuel w r,
  loops (kdb w) = true -> rx w = j ++ r ->
  Forall (fun e => e <> Some 0xA0) j ->
  readOp_loop (length j + fuel) 255 0 w = readOp_loop fuel 255 0 (set_rx r w).
Proof.
  induction j as [|e j IH]; intros fuel w r Hl Hrx Hj.
  - simpl in *. rewrite <- Hrx. by destruct w.
  - apply Forall_cons in Hj as [He Hj]. cbn [length Nat.add readOp_loop].
    rewrite Hl, Hrx. change (budget_spent 255) with false.
    change (next_budget 255) with 255. cbv beta iota zeta. cbn [app].
    destruct e as [b|].
    + destruct (Z.eqb_spec b 160) as [->|_]; [done |].
      destruct (b =? 30); by rewrite (IH _ (set_rx _ w) r).
    + by rewrite (IH _ (set_rx _ w) r).
Qed.

Lemma readOp_loop_armed j : forall fuel w r,
  loops (kdb w) = true -> rx w = j ++ r ->
  Forall (fun e => e <> Some 0x1E) j ->
  readOp_loop (length j + fuel) 255 1 w = readOp_loop fuel 255 1 (set_rx r w).
Proof.
  induction j as [|e j IH]; intros fuel w r Hl Hrx Hj.
  - simpl in *. rewrite <- Hrx. by destruct w.
  - apply Forall_cons in Hj as [He Hj]. cbn [length Nat.add readOp_loop].
    rewrite Hl, Hrx. change (budget_spent 255) with false.
    change (next_budget 255) with 255. cbv beta iota zeta. cbn [app].
    destruct e as [b|].
    + destruct (b =? 160); [by rewrite (IH _ (set_rx _ w) r) |].
      destruct (Z.eqb_spec b 30) as [->|_]; [done |].
      by rewrite (IH _ (set_rx _ w) r).
    + by rewrite (IH _ (set_rx _ w) r).
Qed.

(** X19.  What [readOp] takes for the start of a frame: the first 0x1E
    that comes after a 0xA0.  Anything without 0xA0 before that 0xA0 is
    skipped, and so is anything without 0x1E between the two, empty polls
    and other bytes alike.  Here the bytes after the 0x1E are a RETURN
    header, and [debugger] returns. *)
Theorem debugger_sync_scan (line : Z) (j1 j2 rest : list (option Z)) (w : World) :
  wf w ->
  Forall (fun e => e <> Some 0xA0) j1 -> Forall (fun e => e <> Some 0x1E) j2 ->
  rx w = j1 ++ Some 0xA0 :: j2 ++ Some 0x1E :: Some 0 :: Some 0 :: rest ->
  exists w',
    debugger line w = Done w' /\
    written w w' = encode (line_frame _KDB_DEBUGGER line) /\
    loops (kdb w') = false /\ rx w' = rest /\
    frames w' = frames w ++ [mkFrame 0 0 []].
Proof.
  intros Hw Hj1 Hj2 Hrx. unfold debugger. rewrite put_line_ok. cbn [bind].
  rewrite (sendOp_line _KDB_DEBUGGER) by done. cbn [bind].
  set (w0 := set_loops true (announced _KDB_DEBUGGER line w)).
  assert (Hw0 : wf w0).
  { destruct (wf_announced _KDB_DEBUGGER line w Hw). by split. }
  unfold readOp. change (rx w0) with (rx w). rewrite Hrx.
  rewrite length_app. cbn [length]. rewrite length_app. cbn [length].
  replace (S (length j1 + S (length j2 + S (S (S (length rest))))))
    with (length j1 + S (length j2 + S (S (S (S (length rest))))))%nat by lia.
  rewrite (readOp_loop_hunt j1 _ w0 _ eq_refl Hrx Hj1).
  rewrite (readOp_loop_A0 _ 255 _ (set_rx _ w0) _ eq_refl eq_refl eq_refl).
  change (next_budget 255) with 255.
  rewrite (readOp_loop_armed j2 _ (set_rx _ (set_rx _ w0)) _ eq_refl eq_refl Hj2).
  rewrite (readOp_loop_1E _ 255 (set_rx _ (set_rx _ (set_rx _ w0))) _
             eq_refl eq_refl eq_refl).
  rewrite (doOp_return _ rest); [| destruct Hw0; by split | done].
  cbn [bind]. rewrite readOp_loop_stopped by done.
  eexists. split; [reflexivity |]. split; [| done].
  unfold written. cbn [w0 returned set_loops set_loops_byte note_frame set_frames
    set_readbuf set_rx set_kdb announced set_tx tx].
  apply drop_app_length.
Qed.

Lemma debugger_sync_scan_witness :
  exists w',
    debugger 7 (world_new ([Some 0x1E; None; Some 3] ++
                  Some 0xA0 :: [Some 0xA0; None; Some 0x55] ++
                  Some 0x1E :: Some 0 :: Some 0 :: [Some 9])) = Done w' /\
    written (world_new ([Some 0x1E; None; Some 3] ++
                  Some 0xA0 :: [Some 0xA0; None; Some 0x55] ++
                  Some 0x1E :: Some 0 :: Some 0 :: [Some 9])) w' =
      encode (line_frame _KDB_DEBUGGER 7) /\
    loops (kdb w') = false /\ rx w' = [Some 9] /\
    frames w' = [] ++ [mkFrame 0 0 []].
Proof.
  apply (debugger_sync_scan 7 [Some 0x1E; None; Some 3]
           [Some 0xA0; None; Some 0x55] [Some 9]
           (world_new ([Some 0x1E; None; Some 3] ++
                  Some 0xA0 :: [Some 0xA0; None; Some 0x55] ++
                  Some 0x1E :: Some 0 :: Some 0 :: [Some 9])));
    [split; reflexivity | | | reflexivity];
    repeat constructor; discriminate.
Defined.

(** ** Frames and slots larger than the scratch buffer *)

Lemma readSize_loop_prefix bs : forall (p : nat) size r w,
  bs <> [] -> (p + length bs <= 32)%nat -> Z.of_nat (p + length bs) <= size ->
  (32 <= length (readbuf (kdb w)))%nat ->
  readSize_loop size (Z.of_nat p) (map Some bs ++ r) w =
  readSize_loop size (Z.of_nat (p + length bs)) r
    (set_readbuf (take p (readbuf (kdb w)) ++ bs ++
                  drop (p + length bs) (readbuf (kdb w)))
                 (set_rx r w)).
Proof.
  induction bs as [|b bs IH]; intros p size r w Hne Hp Hs Hl; [done |].
  simpl in Hp, Hs. simpl map. simpl app. cbn [readSize_loop].
  rewrite readbuf_set_ok by lia. rewrite Nat2Z.id.
  destruct (Z.eqb_spec (Z.of_nat p) size); [lia |].
  replace (u8 (Z.of_nat p + 1)) with (Z.of_nat (S p))
    by (unfold u8; rewrite Z.mod_small; lia).
  destruct bs as [|b' bs].
  - simpl app. cbn [length]. replace (p + 1)%nat with (S p) by lia.
    do 2 f_equal. unfold set_readbuf, set_kdb, set_rx; simpl.
    by rewrite insert_take_drop by lia.
  - rewrite IH; [| done | simpl in *; lia | simpl in *; lia
                 | simpl; rewrite length_insert; lia].
    replace (S p + length (b' :: bs))%nat with (p + length (b :: b' :: bs))%nat
      by (simpl; lia).
    f_equal. unfold set_readbuf, set_kdb, set_rx; simpl. do 2 f_equal.
    rewrite (take_S_r _ _ b) by (apply list_lookup_insert_eq; lia).
    rewrite take_insert_ge by lia.
    rewrite drop_insert_lt by (simpl; lia).
    by rewrite <- app_assoc.
Qed.

Lemma readSize_33 pre b rest w :
  wf w -> length pre = 32%nat -> rx w = map Some (pre ++ [b]) ++ rest ->
  readSize 33 w =
  Done (spill 32 b (set_readbuf pre (set_rx rest w))).
Proof.
  intros [Hc Hl] Hpre Hrx. unfold readSize. change (33 =? 0) with false.
  change (u8 (33 - 1)) with 32. cbv iota.
  rewrite Hrx, map_app, <- app_assoc.
  rewrite (readSize_loop_prefix pre 0 32); [| | lia | lia | lia].
  2:{ intros ->. done. }
  rewrite Hpre. simpl app. cbn [readSize_loop Nat.add].
  change (Z.of_nat 32) with 32. unfold readbuf_set.
  change ((0 <=? 32) && (32 <? 32)) with false. change (32 <=? 32) with true.
  cbv iota. change (32 =? 32) with true. cbv iota. do 2 f_equal.
  unfold set_readbuf, set_kdb, set_rx; simpl.
  rewrite drop_ge by lia. by rewrite app_nil_r.
Qed.

(** X21.  A payload of 33 bytes: [readSize(33)] stores the first 32 in the
    scratch buffer and the 33rd at [readbuf[32]], which is the member
    [loops]: afterwards [loops] is set exactly when that byte is not zero.
    The capture table, memory, pins and the written bytes are as before. *)
Theorem payload_of_33_reaches_loops (pre : list Z) (b : Z)
    (rest : list (option Z)) (w : World) :
  wf w -> length pre = 32%nat -> rx w = map Some (pre ++ [b]) ++ rest ->
  exists w',
    readSize 33 w = Done w' /\
    readbuf (kdb w') = pre /\ loops (kdb w') = negb (b =? 0) /\
    overruns w' = overruns w ++ [readbuf_at 32] /\ rx w' = rest /\
    caps (kdb w') = caps (kdb w) /\ capsize (kdb w') = capsize (kdb w) /\
    mem w' = mem w /\ pins w' = pins w /\ tx w' = tx w.
Proof.
  intros Hw Hpre Hrx. rewrite (readSize_33 pre b rest w Hw Hpre Hrx).
  eexists. split; [reflexivity |]. by repeat split.
Qed.

Lemma payload_of_33_reaches_loops_witness :
  exists w',
    readSize 33 (set_loops true (world_new (map Some (replicate 32 1 ++ [0]) ++ []))) =
    Done w' /\
    readbuf (kdb w') = replicate 32 1 /\ loops (kdb w') = negb (0 =? 0) /\
    overruns w' = [] ++ [readbuf_at 32] /\ rx w' = [] /\
    caps (kdb w') = replicate 32 (mkPtr 0 0) /\ capsize (kdb w') = 0 /\
    mem w' = (fun _ => 0) /\ pins w' = (fun _ => 0) /\ tx w' = [].
Proof.
  apply (payload_of_33_reaches_loops (replicate 32 1) 0 []
           (set_loops true (world_new (map Some (replicate 32 1 ++ [0]) ++ []))));
    [split; reflexivity | reflexivity | reflexivity].
Defined.

(** X22.  [debugger] ends without a RETURN frame when a frame of 33
    payload bytes ends in a zero byte: the frame, here with an opcode that
    the [switch] ignores, is received and dispatched, its last byte has
    cleared [loops], and [debugger] returns at the next test of [loops].
    All it wrote is its DEBUGGER frame. *)
Theorem long_frame_ends_debugger (line opType : Z) (pre : list Z)
    (rest : list (option Z)) (w : World) :
  wf w -> opType < 0 \/ 7 <= opType -> length pre = 32%nat ->
  rx w = map Some ([0xA0; 0x1E; opType; 33] ++ pre ++ [0]) ++ rest ->
  exists w',
    debugger line w = Done w' /\
    loops (kdb w') = false /\
    frames w' = frames w ++ [mkFrame opType 33 pre] /\
    written w w' = encode (line_frame _KDB_DEBUGGER line) /\
    rx w' = rest /\ overruns w' = overruns w ++ [readbuf_at 32].
Proof.
  intros Hw Hop Hpre Hrx. unfold debugger. rewrite put_line_ok. cbn [bind].
  rewrite (sendOp_line _KDB_DEBUGGER) by done. cbn [bind].
  set (w0 := set_loops true (announced _KDB_DEBUGGER line w)).
  assert (Hw0 : wf w0).
  { destruct (wf_announced _KDB_DEBUGGER line w Hw). by split. }
  rewrite (readOp_serve w0 (map Some ([opType; 33] ++ pre ++ [0]) ++ rest));
    [| done |
     cbn [w0 set_loops set_loops_byte set_kdb announced set_tx set_readbuf rx];
     by rewrite Hrx].
  unfold doOp.
  rewrite (readSize_ok 2 [opType; 33] (map Some (pre ++ [0]) ++ rest));
    [| done | lia | by destruct Hw0; split | by rewrite map_app, <- app_assoc].
  cbn [bind]. set (w1 := set_readbuf _ _).
  assert (Hw1 : wf w1).
  { destruct Hw0 as [Hc Hl]. split; [done |]. unfold w1.
    cbn [set_readbuf set_kdb kdb readbuf set_rx].
    rewrite length_app, length_drop. cbn [length]. rewrite Hl. lia. }
  change (readbuf_get 0 w1) with opType. change (readbuf_get 1 w1) with 33.
  rewrite (readSize_33 pre 0 rest w1 Hw1 Hpre eq_refl). cbn [bind].
  rewrite execOp_ignored by done. cbn [bind].
  unfold readOp. rewrite readOp_loop_stopped by done.
  eexists. split; [reflexivity |].
  split; [done |]. split.
  { cbn. rewrite take_ge by lia. done. }
  split; [| done].
  unfold written. cbn. apply drop_app_length.
Qed.

Lemma long_frame_ends_debugger_witness :
  exists w',
    debugger 7 (world_new (map Some ([0xA0; 0x1E; 9; 33] ++ replicate 32 5 ++ [0])
                           ++ [Some 1])) = Done w' /\
    loops (kdb w') = false /\
    frames w' = [] ++ [mkFrame 9 33 (replicate 32 5)] /\
    written (world_new (map Some ([0xA0; 0x1E; 9; 33] ++ replicate 32 5 ++ [0])
                        ++ [Some 1])) w' =
      encode (line_frame _KDB_DEBUGGER 7) /\
    rx w' = [Some 1] /\ overruns w' = [] ++ [readbuf_at 32].
Proof.
  apply (long_frame_ends_debugger 7 9 (replicate 32 5) [Some 1]
           (world_new (map Some ([0xA0; 0x1E; 9; 33] ++ replicate 32 5 ++ [0])
                       ++ [Some 1])));
    [split; reflexivity | lia | reflexivity | reflexivity].
Defined.


